(** * Mortality dashboard: data preparation and aggregation pipeline

    Shallow embedding of [src/data_loader.py] and [src/transforms.py].

    A pandas [DataFrame] is a list of rows, a row is a record whose fields
    are the columns the pipeline reads, and a null cell ([None], [NaN],
    [pd.NA]) is [None] in an [option].  Text is a Rocq [string]; the case
    mapping and the white space of [str.upper] and [str.strip] are the ASCII
    ones.  Code that can raise returns a [result]. *)

From Stdlib Require Import ZArith QArith Qround List String Ascii Bool Lia.
From Stdlib Require Import Sorted DecimalString.
From Stdlib Require DecimalPos.
Import ListNotations.

Open Scope string_scope.
Open Scope Z_scope.

(** ** Python values and exceptions *)

Module Py.

(** The exceptions the modelled code can raise. *)
Inductive exn := TypeError | ValueError | OverflowError.

Inductive result (A : Type) :=
| Ok (a : A)
| Raise (e : exn).
Arguments Ok {A} a.
Arguments Raise {A} e.

Definition bind {A B} (m : result A) (k : A -> result B) : result B :=
  match m with
  | Ok a => k a
  | Raise e => Raise e
  end.

Fixpoint mapM {A B} (f : A -> result B) (l : list A) : result (list B) :=
  match l with
  | [] => Ok []
  | a :: l' =>
      bind (f a) (fun b => bind (mapM f l') (fun bs => Ok (b :: bs)))
  end.

(** A float: finite values are kept exact, as rationals. *)
Inductive pyfloat :=
| Finite (q : Q)
| Infinite (negative : bool)
| NaN.

(** What a spreadsheet cell can hold once loaded. *)
Inductive pyobj :=
| PNone
| PInt (z : Z)
| PFloat (f : pyfloat)
| PStr (s : string)
| POther.   (* an object with no numeric conversion, for instance a date *)

(** *** [str] methods

    A text is the sequence of its characters, one [ascii] each.  The
    methods below are those of Python on ASCII text, where every character
    is below 128: there [upper] changes the letters a to z and nothing
    else, and the white space is the blank, the controls 9 to 13 and the
    separators 28 to 31.  Python also maps letters and strips white space
    beyond 127; such text is outside this development, and a theorem that
    depends on what [upper] or [strip] does to a text states that the
    text is ASCII. *)

Definition is_lower (c : ascii) : bool :=
  let n := N_of_ascii c in ((97 <=? n) && (n <=? 122))%N.

Definition upper_char (c : ascii) : ascii :=
  if is_lower c then ascii_of_N (N_of_ascii c - 32) else c.

Fixpoint upper (s : string) : string :=
  match s with
  | EmptyString => EmptyString
  | String c s' => String (upper_char c) (upper s')
  end.

(** [s.startswith(p)] *)
Definition startswith (s p : string) : bool := String.prefix p s.

(** [c.isspace()] for a character below 128. *)
Definition is_space (c : ascii) : bool :=
  let n := N_of_ascii c in
  ((n =? 32) || ((9 <=? n) && (n <=? 13)) || ((28 <=? n) && (n <=? 31)))%N.

Fixpoint lstrip (s : string) : string :=
  match s with
  | EmptyString => EmptyString
  | String c s' => if is_space c then lstrip s' else s
  end.

Fixpoint rstrip (s : string) : string :=
  match s with
  | EmptyString => EmptyString
  | String c s' =>
      match rstrip s' with
      | EmptyString => if is_space c then EmptyString else String c EmptyString
      | r => String c r
      end
  end.

Definition strip (s : string) : string := rstrip (lstrip s).

Fixpoint zeros (n : nat) : string :=
  match n with
  | O => EmptyString
  | S n' => String "0" (zeros n')
  end.

(** [s.zfill(width)] of Python, which [Series.str.zfill] applies to each
    element: a leading sign stays in front of the padding. *)
Definition zfill (width : Z) (s : string) : string :=
  let len := Z.of_nat (String.length s) in
  if width <=? len then s
  else
    let pad := zeros (Z.to_nat (width - len)) in
    match s with
    | String c s' =>
        if (Ascii.eqb c "+" || Ascii.eqb c "-")%bool
        then String c (pad ++ s')
        else pad ++ s
    | EmptyString => pad
    end.

(** [str(z)] for an integer. *)
Definition str_of_int (z : Z) : string := NilZero.string_of_int (Z.to_int z).

End Py.

Import Py.

Notation "x <- m ;; k" := (Py.bind m (fun x => k))
  (at level 61, m at next level, right associativity).

(** ** [src/data_loader.py] *)

Module DataLoader.

(** [{code: label for code in range(lo, hi)}] *)
Definition range_dict (lo hi : nat) (label : string) : list (Z * string) :=
  map (fun c => (Z.of_nat c, label)) (seq lo (hi - lo)).

Definition AGE_CATEGORY_LABELS : list (Z * string) :=
  range_dict 0 5 "Mortalidad neonatal"
  ++ range_dict 5 7 "Mortalidad infantil"
  ++ range_dict 7 9 "Primera infancia"
  ++ range_dict 9 11 "Niñez"
  ++ [(11, "Adolescencia")]
  ++ range_dict 12 14 "Juventud"
  ++ range_dict 14 17 "Adultez temprana"
  ++ range_dict 17 20 "Adultez intermedia"
  ++ range_dict 20 25 "Vejez"
  ++ range_dict 25 29 "Longevidad / Centenarios"
  ++ [(29, "Edad desconocida")].

Definition DEFAULT_AGE_CATEGORY : string := "Edad desconocida".

Definition SEXO_MAP : list (Z * string) := [(1, "Masculino"); (2, "Femenino")].
Definition SEXO_DEFAULT : string := "Sin información".

(** [d.get(k, default)] on a dict written as the list of its items, in
    the order they are written; a later item wins over an earlier one. *)
Fixpoint dict_get {V} (k : Z) (d : list (Z * V)) (default : V) : V :=
  match d with
  | [] => default
  | (k', v) :: d' => dict_get k d' (if k =? k' then v else default)
  end.

(** [series.map(d)]: a key that is null or not in the dict gives null. *)
Definition series_map_dict {V} (d : list (Z * V)) (k : option Z) : option V :=
  match k with
  | Some z => dict_get z (map (fun kv => (fst kv, Some (snd kv))) d) None
  | None => None
  end.

Definition fillna {V} (default : V) (v : option V) : V :=
  match v with
  | Some x => x
  | None => default
  end.

(** [pd.isna(x)] for a scalar. *)
Definition isna (x : pyobj) : bool :=
  match x with
  | PNone | PFloat NaN => true
  | _ => false
  end.

(** [int(q)] for a finite float: rounds towards zero. *)
Definition truncate (q : Q) : Z :=
  if Qnum q <? 0 then Qceiling q else Qfloor q.

Definition is_integral (q : Q) : bool := Qnum q mod Zpos (Qden q) =? 0.

Definition INT64_MIN : Z := - 2 ^ 63.
Definition INT64_MAX : Z := 2 ^ 63 - 1.

(** [astype("Int64")] on one element of a numeric series: a finite value
    that is not an integer of 64 bits makes the cast raise [TypeError]
    (cannot safely cast non-equivalent float64 to int64), an infinite one
    makes it raise [OverflowError]. *)
Definition astype_Int64 (f : pyfloat) : result (option Z) :=
  match f with
  | NaN => Ok None
  | Infinite _ => Raise OverflowError
  | Finite q =>
      let z := Qfloor q in
      if is_integral q && (INT64_MIN <=? z) && (z <=? INT64_MAX)
      then Ok (Some z)
      else Raise TypeError
  end.

(** [astype("string")] on one element of an [Int64] series. *)
Definition astype_string (v : option Z) : option string :=
  option_map str_of_int v.

Definition endswith (s suffix : string) : bool :=
  let n := String.length s in
  let m := String.length suffix in
  (m <=? n)%nat && String.eqb (String.substring (n - m) m s) suffix.

(** [str.replace] of the pattern [\.0$] by the empty text. *)
Definition replace_trailing_dot0 (s : string) : string :=
  if endswith s ".0" then String.substring 0 (String.length s - 2) s else s.

(** [if width:] for [width: int | None] *)
Definition width_given (width : option Z) : bool :=
  match width with
  | Some w => negb (w =? 0)
  | None => false
  end.

Definition _clean_string (v : option string) : option string :=
  option_map strip v.

Definition str_upper (v : option string) : option string :=
  option_map upper v.

(** *** Tables

    The columns of the three loaded tables that the build reads. *)

Record mortalidad_row := {
  raw_COD_DANE : pyobj;
  raw_COD_DEPARTAMENTO : pyobj;
  raw_COD_MUNICIPIO : pyobj;
  raw_COD_MUERTE : option string;
  raw_MANERA_MUERTE : option string;
  raw_SEXO : pyobj;
  raw_GRUPO_EDAD1 : pyobj;
  raw_MES : option Z
}.

Record divipola_row := {
  divi_COD_DANE : pyobj;
  divi_COD_DEPARTAMENTO : pyobj;
  divi_COD_MUNICIPIO : pyobj;
  divi_DEPARTAMENTO : option string;
  divi_MUNICIPIO : option string
}.

Record codigo_row := {
  codigo_cuatro : option string;
  descripcion_cuatro : option string
}.

(** The mortality table after the normalisation of its columns. *)
Record mortalidad_norm := {
  n_COD_DANE : option string;
  n_COD_DEPARTAMENTO : option string;
  n_COD_MUNICIPIO : option string;
  n_COD_MUERTE : option string;
  n_MANERA_MUERTE : option string;
  n_SEXO : option Z;
  n_GRUPO_EDAD1 : pyobj;
  n_MES : option Z
}.

(** [_select_columns(divipola, [...])] after the renaming. *)
Record divipola_sel := {
  sel_COD_DANE : option string;
  sel_NOMBRE_DEPARTAMENTO : option string;
  sel_NOMBRE_MUNICIPIO : option string;
  sel_COD_DEPARTAMENTO : option string
}.

(** A row of the first merge: the left columns, and the right ones, the
    overlapping [COD_DEPARTAMENTO] under its suffix. *)
Record merged_row := {
  m_left : mortalidad_norm;
  NOMBRE_DEPARTAMENTO : option string;
  NOMBRE_MUNICIPIO : option string;
  COD_DEPARTAMENTO_DIVI : option string
}.

(** A row once the department code is resolved and the [_DIVI] column
    dropped. *)
Record located_row := {
  loc_base : mortalidad_norm;
  loc_COD_DEPARTAMENTO : option string;
  loc_DEPARTAMENTO : option string;
  loc_MUNICIPIO : option string
}.

(** A row of the enriched dataset. *)
Record row := {
  COD_DANE : option string;
  COD_DEPARTAMENTO : option string;
  COD_MUNICIPIO : option string;
  COD_MUERTE : option string;
  MANERA_MUERTE : option string;
  SEXO : option Z;
  GRUPO_EDAD1 : pyobj;
  MES : option Z;
  DEPARTAMENTO : option string;
  MUNICIPIO : option string;
  DESCRIPCION_COD_MUERTE : option string;
  categoria_edad : option string;
  SEXO_DESC : option string
}.

Definition notna {V} (v : option V) : bool :=
  match v with
  | Some _ => true
  | None => false
  end.

(** The part of [load_codigos_muerte] after the file is read. *)
Definition load_codigos_muerte (df : list codigo_row) : list codigo_row :=
  let df := filter (fun c => notna (codigo_cuatro c)) df in
  map (fun c => {| codigo_cuatro := str_upper (_clean_string (codigo_cuatro c));
                   descripcion_cuatro := descripcion_cuatro c |}) df.

(** Join keys: two null keys match each other. *)
Definition key_eqb (a b : option string) : bool :=
  match a, b with
  | Some x, Some y => String.eqb x y
  | None, None => true
  | _, _ => false
  end.

(** [left.merge(right, left_on=..., right_on=..., how="left")]: the left
    order is kept; a left row comes once per matching right row, and once
    with null right columns when nothing matches. *)
Definition merge_left {L R} (left_on : L -> option string)
    (right_on : R -> option string) (left : list L) (right : list R)
  : list (L * option R) :=
  flat_map
    (fun l =>
       match filter (fun r => key_eqb (left_on l) (right_on r)) right with
       | [] => [(l, None)]
       | matches => map (fun r => (l, Some r)) matches
       end)
    left.

(** A column of the right table in a merged row. *)
Definition right_col {R V} (col : R -> option V) (r : option R) : option V :=
  match r with
  | Some x => col x
  | None => None
  end.

(** [a.combine_first(b)] on one element. *)
Definition combine_first {V} (a b : option V) : option V :=
  match a with
  | Some v => Some v
  | None => b
  end.

Definition as_merged_row (p : mortalidad_norm * option divipola_sel)
  : merged_row :=
  {| m_left := fst p;
     NOMBRE_DEPARTAMENTO := right_col sel_NOMBRE_DEPARTAMENTO (snd p);
     NOMBRE_MUNICIPIO := right_col sel_NOMBRE_MUNICIPIO (snd p);
     COD_DEPARTAMENTO_DIVI := right_col sel_COD_DEPARTAMENTO (snd p) |}.

(** Lines 169 to 179: the renaming, the resolution of the department
    code and the drop of the [_DIVI] column. *)
Definition resolve_departamento (m : merged_row) : located_row :=
  {| loc_base := m_left m;
     loc_COD_DEPARTAMENTO :=
       combine_first (COD_DEPARTAMENTO_DIVI m)
                     (n_COD_DEPARTAMENTO (m_left m));
     loc_DEPARTAMENTO := NOMBRE_DEPARTAMENTO m;
     loc_MUNICIPIO := NOMBRE_MUNICIPIO m |}.

(** The same lines on the column names. *)
Definition merge_columns (left right : list string) (on suffix : string)
  : list string :=
  left ++ map (fun c => if existsb (String.eqb c) left then c ++ suffix else c)
              (filter (fun c => negb (c =? on)%string) right).

Definition drop_DIVI (columns : list string) : list string :=
  filter (fun col => negb (endswith col "_DIVI")) columns.

Section Parsers.

(** Two parsers of the Python libraries are taken as they are:
    [int(s)] on text ([None] when it raises [ValueError]) and the
    number [pd.to_numeric] reads in a text cell under
    [errors="coerce"] ([NaN] when the text is not a number). *)
Variable int_of_text : string -> option Z.
Variable numeric_of_text : string -> pyfloat.

(** [int(code)] *)
Definition py_int (code : pyobj) : result Z :=
  match code with
  | PInt z => Ok z
  | PFloat (Finite q) => Ok (truncate q)
  | PFloat (Infinite _) => Raise OverflowError
  | PFloat NaN => Raise ValueError
  | PStr s =>
      match int_of_text s with
      | Some z => Ok z
      | None => Raise ValueError
      end
  | PNone | POther => Raise TypeError
  end.

Definition _map_categoria_edad (code : pyobj) : result string :=
  if isna code then Ok DEFAULT_AGE_CATEGORY
  else
    match py_int code with
    | Raise TypeError | Raise ValueError => Ok DEFAULT_AGE_CATEGORY
    | Raise e => Raise e
    | Ok int_code =>
        Ok (dict_get int_code AGE_CATEGORY_LABELS DEFAULT_AGE_CATEGORY)
    end.

(** [pd.to_numeric(series, errors="coerce")] on one element. *)
Definition to_numeric_coerce (x : pyobj) : pyfloat :=
  match x with
  | PNone | POther => NaN
  | PInt z => Finite (inject_Z z)
  | PFloat f => f
  | PStr s => numeric_of_text s
  end.

(** One element of [_normalize_numeric_code]. *)
Definition normalize_value (width : option Z) (x : pyobj)
  : result (option string) :=
  i <- astype_Int64 (to_numeric_coerce x) ;;
  let normalized := astype_string i in
  let normalized := option_map replace_trailing_dot0 normalized in
  let normalized :=
    if width_given width
    then option_map (zfill (fillna 0 width)) normalized
    else normalized in
  Ok normalized.

(** The series operations are taken element by element, each number kept
    exact, and the cast fails for the whole series as soon as one element
    fails.  pandas holds a column of integers as 64-bit integers, and a
    column that also has a null, a float or a text cell as 64-bit floats,
    where an integer cell is rounded to the nearest float: that changes
    nothing up to 2^53 in magnitude.  So the element-wise reading is what
    the code computes on a column of integers and on a column with no
    integer beyond 2^53 in magnitude, and the theorems on columns of
    several cells are stated there.  When several cells fail, the
    exception is that of the first one here; the theorems that name the
    exception take columns whose failing cells all raise the same. *)
Definition _normalize_numeric_code (series : list pyobj) (width : option Z)
  : result (list (option string)) :=
  mapM (normalize_value width) series.

(** Lines 135 to 144 on one record.  The code normalises the table column
    by column; taken record by record the normalised table is the same,
    under the reading of the columns above. *)
Definition normalize_mortalidad (m : mortalidad_row)
  : result mortalidad_norm :=
  dane <- normalize_value (Some 5) (raw_COD_DANE m) ;;
  departamento <- normalize_value (Some 2) (raw_COD_DEPARTAMENTO m) ;;
  municipio <- normalize_value (Some 3) (raw_COD_MUNICIPIO m) ;;
  sexo <- astype_Int64 (to_numeric_coerce (raw_SEXO m)) ;;
  Ok {| n_COD_DANE := dane;
        n_COD_DEPARTAMENTO := departamento;
        n_COD_MUNICIPIO := municipio;
        n_COD_MUERTE := str_upper (_clean_string (raw_COD_MUERTE m));
        n_MANERA_MUERTE := _clean_string (raw_MANERA_MUERTE m);
        n_SEXO := sexo;
        n_GRUPO_EDAD1 := raw_GRUPO_EDAD1 m;
        n_MES := raw_MES m |}.

Definition normalize_divipola (d : divipola_row) : result divipola_sel :=
  dane <- normalize_value (Some 5) (divi_COD_DANE d) ;;
  departamento <- normalize_value (Some 2) (divi_COD_DEPARTAMENTO d) ;;
  _ <- normalize_value (Some 3) (divi_COD_MUNICIPIO d) ;;
  Ok {| sel_COD_DANE := dane;
        sel_NOMBRE_DEPARTAMENTO := divi_DEPARTAMENTO d;
        sel_NOMBRE_MUNICIPIO := divi_MUNICIPIO d;
        sel_COD_DEPARTAMENTO := departamento |}.

(** Lines 198 to 211 on one row of the second merge. *)
Definition enrich (p : located_row * option codigo_row) : result row :=
  let l := fst p in
  let b := loc_base l in
  categoria <- _map_categoria_edad (n_GRUPO_EDAD1 b) ;;
  Ok {| COD_DANE := n_COD_DANE b;
        COD_DEPARTAMENTO := loc_COD_DEPARTAMENTO l;
        COD_MUNICIPIO := n_COD_MUNICIPIO b;
        COD_MUERTE := n_COD_MUERTE b;
        MANERA_MUERTE := n_MANERA_MUERTE b;
        SEXO := n_SEXO b;
        GRUPO_EDAD1 := n_GRUPO_EDAD1 b;
        MES := n_MES b;
        DEPARTAMENTO := str_upper (_clean_string (loc_DEPARTAMENTO l));
        MUNICIPIO := str_upper (_clean_string (loc_MUNICIPIO l));
        DESCRIPCION_COD_MUERTE := right_col descripcion_cuatro (snd p);
        categoria_edad := Some categoria;
        SEXO_DESC :=
          Some (fillna SEXO_DEFAULT (series_map_dict SEXO_MAP (n_SEXO b))) |}.

(** The first merge with the resolution of the department code. *)
Definition locate (mortalidad : list mortalidad_norm)
    (divipola : list divipola_sel) : list located_row :=
  let dataset := merge_left n_COD_DANE sel_COD_DANE mortalidad divipola in
  map (fun p => resolve_departamento (as_merged_row p)) dataset.

(** [build_full_dataset], from the three loaded tables. *)
Definition build_full_dataset (mortalidad_raw : list mortalidad_row)
    (codigos_raw : list codigo_row) (divipola_raw : list divipola_row)
  : result (list row) :=
  let codigos := load_codigos_muerte codigos_raw in
  mortalidad <- mapM normalize_mortalidad mortalidad_raw ;;
  divipola <- mapM normalize_divipola divipola_raw ;;
  let dataset := locate mortalidad divipola in
  let dataset := merge_left (fun l => n_COD_MUERTE (loc_base l))
                            codigo_cuatro dataset codigos in
  mapM enrich dataset.

End Parsers.

End DataLoader.

(** ** [src/transforms.py] *)

Module Transforms.

Import DataLoader.

Definition ALL_VALUE : string := "ALL".
Definition HOMICIDIO_CODE_PREFIX : string := "X95".
Definition AGE_CATEGORY_ORDER : list string :=
  [ "Mortalidad neonatal";
    "Mortalidad infantil";
    "Primera infancia";
    "Niñez";
    "Adolescencia";
    "Juventud";
    "Adultez temprana";
    "Adultez intermedia";
    "Vejez";
    "Longevidad / Centenarios";
    "Edad desconocida" ].

(** [series == value]: a null cell compares false. *)
Definition series_eq (cell : option string) (value : string) : bool :=
  match cell with
  | Some s => String.eqb s value
  | None => false
  end.

(** One block of [_apply_filters]:
    [if value and value != ALL_VALUE: df = df[df[col] == value]]. *)
Definition filter_column (col : row -> option string) (value : option string)
    (df : list row) : list row :=
  match value with
  | Some v =>
      if negb (v =? EmptyString)%string && negb (v =? ALL_VALUE)%string
      then filter (fun r => series_eq (col r) v) df
      else df
  | None => df
  end.

Definition _apply_filters (df : list row)
    (sexo departamento edad : option string) : list row :=
  let filtered := df in
  let filtered := filter_column SEXO_DESC sexo filtered in
  let filtered := filter_column DEPARTAMENTO departamento filtered in
  let filtered := filter_column categoria_edad edad filtered in
  filtered.

Definition _filter_by_manera (df : list row) (manera : option string)
  : list row :=
  match manera with
  | None => df
  | Some m =>
      if (m =? EmptyString)%string || (m =? ALL_VALUE)%string then df
      else filter (fun r => series_eq (str_upper (MANERA_MUERTE r)) (upper m)) df
  end.

Definition homicidio_mask (r : row) : bool :=
  let codigos := upper (fillna EmptyString (COD_MUERTE r)) in
  let maneras := upper (fillna EmptyString (MANERA_MUERTE r)) in
  (maneras =? "HOMICIDIO")%string || startswith codigos HOMICIDIO_CODE_PREFIX.

Definition _filter_homicidios (df : list row) : list row :=
  filter homicidio_mask df.

(** *** Grouping and ranking *)

(** A row of [groupby(...).size().reset_index(name="muertes")]. *)
Record counted (K : Type) := Counted { group : K; muertes : nat }.
Arguments Counted {K} group muertes.
Arguments group {K} c.
Arguments muertes {K} c.

Section GroupBy.

Context {K : Type} (compare : K -> K -> comparison).

(** The groups are kept in the order of their keys. *)
Fixpoint add_to_group (k : K) (groups : list (counted K))
  : list (counted K) :=
  match groups with
  | [] => [Counted k 1]
  | g :: groups' =>
      match compare k (group g) with
      | Eq => Counted (group g) (S (muertes g)) :: groups'
      | Lt => Counted k 1 :: groups
      | Gt => g :: add_to_group k groups'
      end
  end.

(** [groupby(keys, dropna=False).size()] on the column of keys. *)
Definition groupby_size (keys : list K) : list (counted K) :=
  fold_left (fun groups k => add_to_group k groups) keys [].

End GroupBy.

(** With [dropna=True], the default, rows with a null key are left out. *)
Definition dropna {K} (keys : list (option K)) : list K :=
  flat_map (fun k => match k with Some x => [x] | None => [] end) keys.

(** Null keys come last. *)
Definition compare_na {K} (compare : K -> K -> comparison)
    (a b : option K) : comparison :=
  match a, b with
  | Some x, Some y => compare x y
  | Some _, None => Lt
  | None, Some _ => Gt
  | None, None => Eq
  end.

Definition compare_pair {A B} (ca : A -> A -> comparison)
    (cb : B -> B -> comparison) (x y : A * B) : comparison :=
  match ca (fst x) (fst y) with
  | Eq => cb (snd x) (snd y)
  | c => c
  end.

Definition compare_key2 :=
  compare_pair (compare_na String.compare) (compare_na String.compare).

Section Sort.

Context {A : Type} (before : A -> A -> bool).

Fixpoint insert_sorted (x : A) (l : list A) : list A :=
  match l with
  | [] => [x]
  | y :: l' => if before x y then x :: l else y :: insert_sorted x l'
  end.

(** [sort_values]: rows of equal rank keep their order. *)
Definition sort_values (l : list A) : list A :=
  fold_right insert_sorted [] l.

End Sort.

Definition ascending {K} (a b : counted K) : bool :=
  (muertes a <=? muertes b)%nat.
Definition descending {K} (a b : counted K) : bool :=
  (muertes b <=? muertes a)%nat.

Definition head {A} (n : nat) (l : list A) : list A := firstn n l.

Definition map_group {K K'} (f : K -> K') (c : counted K) : counted K' :=
  Counted (f (group c)) (muertes c).

(** *** The views *)

Definition get_mapa_departamentos (df : list row)
    (sexo departamento edad manera_muerte : option string)
  : list (counted (option string * string)) :=
  let filtered := _apply_filters df sexo departamento edad in
  let filtered := _filter_by_manera filtered manera_muerte in
  let grouped :=
    groupby_size compare_key2
      (map (fun r => (COD_DEPARTAMENTO r, DEPARTAMENTO r)) filtered) in
  let grouped :=
    map (map_group (fun k => (fst k, fillna "SIN REGISTRO" (snd k)))) grouped in
  let grouped := filter (fun g => notna (fst (group g))) grouped in
  sort_values descending grouped.

Definition get_series_mensuales (df : list row)
    (sexo departamento edad : option string) : list (counted Z) :=
  let filtered := _apply_filters df sexo departamento edad in
  let grouped := groupby_size Z.compare (dropna (map MES filtered)) in
  sort_values (fun a b => group a <=? group b) grouped.

Definition get_top5_ciudades_violentas (df : list row)
    (sexo departamento edad : option string)
  : list (counted (option string * string)) :=
  let filtered := _apply_filters df sexo departamento edad in
  let violentas := _filter_homicidios filtered in
  let grouped :=
    groupby_size compare_key2
      (map (fun r => (MUNICIPIO r, DEPARTAMENTO r)) violentas) in
  let grouped := filter (fun g => notna (fst (group g))) grouped in
  let grouped :=
    map (map_group (fun k => (fst k, fillna "SIN REGISTRO" (snd k)))) grouped in
  head 5 (sort_values descending grouped).

Definition get_bottom10_ciudades_menos_muertes (df : list row)
    (sexo departamento edad : option string)
  : list (counted (option string * string)) :=
  let filtered := _apply_filters df sexo departamento edad in
  let grouped :=
    groupby_size compare_key2
      (map (fun r => (MUNICIPIO r, DEPARTAMENTO r)) filtered) in
  let grouped :=
    filter (fun g => notna (fst (group g)) && (0 <? muertes g)%nat) grouped in
  let grouped :=
    map (map_group (fun k => (fst k, fillna "SIN REGISTRO" (snd k)))) grouped in
  head 10 (sort_values ascending grouped).

Definition get_top10_causas (df : list row)
    (sexo departamento edad : option string)
  : list (counted (string * string)) :=
  let filtered := _apply_filters df sexo departamento edad in
  let grouped :=
    groupby_size compare_key2
      (map (fun r => (COD_MUERTE r, DESCRIPCION_COD_MUERTE r)) filtered) in
  let grouped :=
    map (map_group (fun k => (fst k, fillna "Descripción no disponible" (snd k))))
        grouped in
  let grouped :=
    map (map_group (fun k => (fillna "Sin código" (fst k), snd k))) grouped in
  head 10 (sort_values descending grouped).

Definition get_barras_apiladas_sexo (df : list row)
    (sexo departamento edad : option string)
  : list (counted (string * string)) :=
  let filtered := _apply_filters df sexo departamento edad in
  let grouped :=
    groupby_size compare_key2
      (map (fun r => (DEPARTAMENTO r, SEXO_DESC r)) filtered) in
  let grouped :=
    map (map_group (fun k => (fillna "SIN REGISTRO" (fst k), snd k))) grouped in
  let grouped :=
    map (map_group (fun k => (fst k, fillna "Sin información" (snd k))))
        grouped in
  sort_values descending grouped.

(** [pd.Categorical(values, categories=AGE_CATEGORY_ORDER, ordered=True)]:
    a value that is null or is not a category becomes null, and a
    category is ranked by its position in the list. *)
Definition as_category (v : option string) : option string :=
  match v with
  | Some s =>
      if existsb (String.eqb s) AGE_CATEGORY_ORDER then Some s else None
  | None => None
  end.

Fixpoint index_of (s : string) (categories : list string) : option nat :=
  match categories with
  | [] => None
  | c :: categories' =>
      if (s =? c)%string then Some O
      else option_map S (index_of s categories')
  end.

Definition category_code (v : option string) : option nat :=
  match v with
  | Some s => index_of s AGE_CATEGORY_ORDER
  | None => None
  end.

(** The order of [sort_values] on the categorical column: by code, the
    null category last. *)
Definition category_before (a b : counted (option string)) : bool :=
  match category_code (group a), category_code (group b) with
  | Some i, Some j => (i <=? j)%nat
  | Some _, None => true
  | None, Some _ => false
  | None, None => true
  end.

Definition get_histograma_categorias_edad (df : list row)
    (sexo departamento edad : option string)
  : list (counted (option string)) :=
  let filtered := _apply_filters df sexo departamento edad in
  let grouped :=
    groupby_size (compare_na String.compare) (map categoria_edad filtered) in
  let grouped := map (map_group as_category) grouped in
  sort_values category_before grouped.

End Transforms.

Import DataLoader Transforms.

(** ** [app.py] *)

Module App.

(** [[cat for cat in AGE_CATEGORY_ORDER
      if cat in DF_FULL["categoria_edad"].unique()]] *)
Definition categoria_options (df_full : list row) : list string :=
  filter (fun cat =>
            existsb (fun v => key_eqb v (Some cat)) (map categoria_edad df_full))
         AGE_CATEGORY_ORDER.

End App.

(** ** Vocabulary of the specification *)

Module Spec.

(** Two characters are the same letter when they are equal or one is the
    capital of the other. *)
Definition capital_of (c d : ascii) : Prop :=
  is_lower c = true /\ d = ascii_of_N (N_of_ascii c - 32).

Definition same_letter (c d : ascii) : Prop :=
  c = d \/ capital_of c d \/ capital_of d c.

Inductive equal_ignoring_case : string -> string -> Prop :=
| eic_empty : equal_ignoring_case EmptyString EmptyString
| eic_letter c d s t :
    same_letter c d ->
    equal_ignoring_case s t ->
    equal_ignoring_case (String c s) (String d t).

Definition starts_with_ignoring_case (s p : string) : Prop :=
  exists a b, s = a ++ b /\ equal_ignoring_case a p.

(** [s.isascii()]: every character of the text is below 128. *)
Fixpoint is_ascii (s : string) : bool :=
  match s with
  | EmptyString => true
  | String c s' => (N_of_ascii c <? 128)%N && is_ascii s'
  end.

(** A cell that is null or an ASCII text. *)
Definition ascii_cell (v : option string) : bool :=
  match v with
  | Some s => is_ascii s
  | None => true
  end.

(** The manner of death and the cause code of the row are ASCII text. *)
Definition ascii_row (r : row) : Prop :=
  ascii_cell (MANERA_MUERTE r) = true /\ ascii_cell (COD_MUERTE r) = true.

(** A text with no letter from a to z. *)
Fixpoint no_lower (s : string) : bool :=
  match s with
  | EmptyString => true
  | String c s' => negb (is_lower c) && no_lower s'
  end.

(** "its manner-of-death equals HOMICIDIO (case-insensitive) OR its
    death-cause code starts with the prefix X95 (case-insensitive)" *)
Definition is_homicide (r : row) : Prop :=
  (exists m, MANERA_MUERTE r = Some m /\ equal_ignoring_case m "HOMICIDIO")
  \/ (exists c, COD_MUERTE r = Some c /\ starts_with_ignoring_case c "X95").

(** A filter argument that stands for "no filter". *)
Definition no_filter (value : option string) : Prop :=
  value = None \/ value = Some EmptyString \/ value = Some ALL_VALUE.

(** A filter argument lets a row through: the sentinel lets every row
    through, a real value only the rows whose field is exactly it. *)
Definition passes (col : row -> option string) (value : option string)
    (r : row) : Prop :=
  no_filter value \/ col r = value.

(** The same as a test. *)
Definition lets_through (col : row -> option string) (value : option string)
    (r : row) : bool :=
  match value with
  | Some v =>
      if (v =? EmptyString)%string || (v =? ALL_VALUE)%string then true
      else series_eq (col r) v
  | None => true
  end.

Definition total_muertes {K} (l : list (counted K)) : nat :=
  fold_right (fun g acc => (muertes g + acc)%nat) 0%nat l.

Section Catalogue.

Variable numeric_of_text : string -> pyfloat.
Variable mortalidad : list mortalidad_row.
Variable divipola : list divipola_row.

(** The cell [x] holds the division code [k], of 5 digits, or the
    department code [k], of 2 digits. *)
Definition division_code (x : pyobj) (k : option string) : Prop :=
  normalize_value numeric_of_text (Some 5) x = Ok k.

Definition department_code (x : pyobj) (k : option string) : Prop :=
  normalize_value numeric_of_text (Some 2) x = Ok k.

(** The catalogue has an entry for the division [dane], with the
    department code [v]. *)
Definition catalogue_value (dane v : option string) : Prop :=
  exists d, In d divipola
            /\ division_code (divi_COD_DANE d) dane
            /\ department_code (divi_COD_DEPARTAMENTO d) v.

Definition uncatalogued (dane : option string) : Prop :=
  forall d k, In d divipola -> division_code (divi_COD_DANE d) k -> k <> dane.

(** "the division-catalog value wins if present, else the raw value is
    kept" *)
Definition coalesce_left (r : row) : Prop :=
  exists m original,
    In m mortalidad
    /\ division_code (raw_COD_DANE m) (COD_DANE r)
    /\ department_code (raw_COD_DEPARTAMENTO m) original
    /\ ((exists v, catalogue_value (COD_DANE r) (Some v)
                   /\ COD_DEPARTAMENTO r = Some v)
        \/ ((uncatalogued (COD_DANE r) \/ catalogue_value (COD_DANE r) None)
            /\ COD_DEPARTAMENTO r = original)).

(** The municipality is the one of a catalogue entry whose division code
    is the one of a mortality record. *)
Definition municipality_with_deaths (municipio : option string) : Prop :=
  exists m d k,
    In m mortalidad /\ In d divipola
    /\ division_code (raw_COD_DANE m) k
    /\ division_code (divi_COD_DANE d) k
    /\ municipio = str_upper (_clean_string (divi_MUNICIPIO d)).

End Catalogue.

(** The text [s] is numeric and denotes the integer [z]. *)
Definition reads_as (numeric_of_text : string -> pyfloat) (s : string)
    (z : Z) : Prop :=
  exists q, numeric_of_text s = Finite q /\ (q == inject_Z z)%Q.

(** A float with a trailing [.0]: its value is the integer [z]. *)
Definition float_of_integer (q : Q) (z : Z) : Prop := (q == inject_Z z)%Q.


(** *** Orders and counts *)

(** A three-way comparison that is an order on the keys. *)
Record comparison_order {K} (compare : K -> K -> comparison) : Prop := {
  compare_eq : forall a b, compare a b = Eq <-> a = b;
  compare_opp : forall a b, compare a b = CompOpp (compare b a);
  compare_lt_trans :
    forall a b c, compare a b = Lt -> compare b c = Lt -> compare a c = Lt
}.

Definition same_key {K} (compare : K -> K -> comparison) (a b : K) : bool :=
  match compare a b with
  | Eq => true
  | _ => false
  end.

(** How many keys of the column are the key [k]. *)
Definition occurrences {K} (compare : K -> K -> comparison) (k : K)
    (keys : list K) : nat :=
  List.length (filter (same_key compare k) keys).

(** The deaths the groups give to the key [k]. *)
Fixpoint deaths_of {K} (compare : K -> K -> comparison) (k : K)
    (groups : list (counted K)) : nat :=
  match groups with
  | [] => 0
  | g :: groups' =>
      ((if same_key compare k (group g) then muertes g else 0)
       + deaths_of compare k groups')%nat
  end.

(** How many rows satisfy a test. *)
Definition count_rows (test : row -> bool) (df : list row) : nat :=
  List.length (filter test df).

(** The two key columns of a row are the pair [k], null matching null. *)
Definition has_key2 (col1 col2 : row -> option string)
    (k : option string * option string) (r : row) : bool :=
  key_eqb (col1 r) (fst k) && key_eqb (col2 r) (snd k).

Definition month_is (m : Z) (r : row) : bool :=
  match MES r with
  | Some x => x =? m
  | None => false
  end.

(** The manner of death of the row is the value, up to letter case. *)
Definition manner_is (manera : string) (r : row) : Prop :=
  exists x, MANERA_MUERTE r = Some x /\ equal_ignoring_case x manera.

(** Up to this magnitude every integer is a 64-bit float. *)
Definition FLOAT64_EXACT : Z := 2 ^ 53.

(** The value is null or an integer that a 64-bit float holds exactly. *)
Definition exact_or_null (f : pyfloat) : Prop :=
  match f with
  | NaN => True
  | Infinite _ => False
  | Finite q =>
      is_integral q = true
      /\ - FLOAT64_EXACT <= Qfloor q <= FLOAT64_EXACT
  end.



(** A text with no white space at either end. *)
Definition trimmed (s : string) : Prop :=
  match s with
  | EmptyString => True
  | String c _ =>
      is_space c = false
      /\ exists s' d, s = s' ++ String d EmptyString /\ is_space d = false
  end.

Fixpoint all_space (s : string) : bool :=
  match s with
  | EmptyString => true
  | String c s' => is_space c && all_space s'
  end.

(** An ASCII text with no white space at either end, which cleaning
    leaves as it is. *)
Definition clean_text (s : string) : Prop :=
  is_ascii s = true /\ trimmed s /\ strip s = s.

(** A clean text in capitals: it has no letter from a to z, and
    capitalising leaves it as it is. *)
Definition clean_capitals (s : string) : Prop :=
  clean_text s /\ no_lower s = true /\ upper s = s.

(** The division codes of the catalogue, normalised. *)
Definition division_codes (numeric_of_text : string -> pyfloat)
    (divipola : list divipola_row) : result (list (option string)) :=
  mapM (fun d => normalize_value numeric_of_text (Some 5) (divi_COD_DANE d))
       divipola.

(** The number a code cell holds is of the given kind. *)
Definition code_is (kind : pyfloat -> Prop)
    (numeric_of_text : string -> pyfloat) (x : pyobj) : Prop :=
  kind (to_numeric_coerce numeric_of_text x).





Definition is_digit (c : ascii) : bool :=
  let n := N_of_ascii c in ((48 <=? n) && (n <=? 57))%N.

Fixpoint all_digits (s : string) : bool :=
  match s with
  | EmptyString => true
  | String c s' => is_digit c && all_digits s'
  end.

End Spec.

Import Spec.

(** ** Sample data *)

Module Sample.

(** A row with null fields, and the same with a manner and a cause. *)
Definition blank : row :=
  {| COD_DANE := None; COD_DEPARTAMENTO := None; COD_MUNICIPIO := None;
     COD_MUERTE := None; MANERA_MUERTE := None; SEXO := None;
     GRUPO_EDAD1 := PNone; MES := None; DEPARTAMENTO := None;
     MUNICIPIO := None; DESCRIPCION_COD_MUERTE := None;
     categoria_edad := None; SEXO_DESC := None |}.

Definition with_manner_cause (r : row) (manner cause : string) : row :=
  {| COD_DANE := COD_DANE r; COD_DEPARTAMENTO := COD_DEPARTAMENTO r;
     COD_MUNICIPIO := COD_MUNICIPIO r;
     COD_MUERTE := Some cause; MANERA_MUERTE := Some manner;
     SEXO := SEXO r; GRUPO_EDAD1 := GRUPO_EDAD1 r; MES := MES r;
     DEPARTAMENTO := DEPARTAMENTO r; MUNICIPIO := MUNICIPIO r;
     DESCRIPCION_COD_MUERTE := DESCRIPCION_COD_MUERTE r;
     categoria_edad := categoria_edad r; SEXO_DESC := SEXO_DESC r |}.

(** Text made of an optional minus sign and decimal digits. *)
Definition int_of_decimal (s : string) : option Z :=
  option_map Z.of_int (NilZero.int_of_string s).

Definition numeric_of_decimal (s : string) : pyfloat :=
  match int_of_decimal s with
  | Some z => Finite (inject_Z z)
  | None => NaN
  end.

Definition with_sexo (r : row) (sexo : string) : row :=
  {| COD_DANE := COD_DANE r; COD_DEPARTAMENTO := COD_DEPARTAMENTO r;
     COD_MUNICIPIO := COD_MUNICIPIO r;
     COD_MUERTE := COD_MUERTE r; MANERA_MUERTE := MANERA_MUERTE r;
     SEXO := SEXO r; GRUPO_EDAD1 := GRUPO_EDAD1 r; MES := MES r;
     DEPARTAMENTO := DEPARTAMENTO r; MUNICIPIO := MUNICIPIO r;
     DESCRIPCION_COD_MUERTE := DESCRIPCION_COD_MUERTE r;
     categoria_edad := categoria_edad r; SEXO_DESC := Some sexo |}.

(** Three deaths: two in catalogued municipalities, one whose division
    code is not in the catalogue. *)
Definition mortalidad : list mortalidad_row :=
  [ {| raw_COD_DANE := PInt 5001; raw_COD_DEPARTAMENTO := PInt 5;
       raw_COD_MUNICIPIO := PInt 1; raw_COD_MUERTE := Some " x954 ";
       raw_MANERA_MUERTE := Some "Homicidio "; raw_SEXO := PInt 1;
       raw_GRUPO_EDAD1 := PInt 12; raw_MES := Some 3 |};
    {| raw_COD_DANE := PFloat (Finite (11001 # 1));
       raw_COD_DEPARTAMENTO := PStr "11";
       raw_COD_MUNICIPIO := PInt 1; raw_COD_MUERTE := Some "I219";
       raw_MANERA_MUERTE := Some "Natural"; raw_SEXO := PFloat (Finite (2 # 1));
       raw_GRUPO_EDAD1 := PFloat (Finite (22 # 1)); raw_MES := Some 11 |};
    {| raw_COD_DANE := PInt 99999; raw_COD_DEPARTAMENTO := PInt 99;
       raw_COD_MUNICIPIO := PInt 999; raw_COD_MUERTE := None;
       raw_MANERA_MUERTE := None; raw_SEXO := PNone;
       raw_GRUPO_EDAD1 := PStr "sin dato"; raw_MES := None |} ].

(** Three catalogued municipalities, the last with no death. *)
Definition divipola : list divipola_row :=
  [ {| divi_COD_DANE := PStr "05001"; divi_COD_DEPARTAMENTO := PInt 5;
       divi_COD_MUNICIPIO := PInt 1; divi_DEPARTAMENTO := Some "Antioquia";
       divi_MUNICIPIO := Some "Medellin" |};
    {| divi_COD_DANE := PInt 11001; divi_COD_DEPARTAMENTO := PNone;
       divi_COD_MUNICIPIO := PInt 1; divi_DEPARTAMENTO := Some "Bogota, D.C.";
       divi_MUNICIPIO := Some " Bogota, D.C." |};
    {| divi_COD_DANE := PInt 8001; divi_COD_DEPARTAMENTO := PInt 8;
       divi_COD_MUNICIPIO := PInt 1; divi_DEPARTAMENTO := Some "Atlantico";
       divi_MUNICIPIO := Some "Barranquilla" |} ].

Definition codigos : list codigo_row :=
  [ {| codigo_cuatro := None; descripcion_cuatro := Some "Agresiones" |};
    {| codigo_cuatro := Some "x954";
       descripcion_cuatro := Some "Agresion con disparo" |};
    {| codigo_cuatro := Some "I219";
       descripcion_cuatro := Some "Infarto agudo del miocardio" |} ].

(** The enriched dataset of the sample tables. *)
Definition dataset : list row :=
  match build_full_dataset int_of_decimal numeric_of_decimal
          mortalidad codigos divipola with
  | Ok ds => ds
  | Raise _ => []
  end.

End Sample.

(** ** Text *)

Section UpperFacts.

Lemma upper_char_not_lower c : is_lower (upper_char c) = false.
Proof.
  destruct c as [[] [] [] [] [] [] [] []]; reflexivity.
Qed.

Lemma upper_char_fixed c : is_lower c = false -> upper_char c = c.
Proof. unfold upper_char; intros ->; reflexivity. Qed.

Lemma upper_char_capital c :
  is_lower c = true -> upper_char c = ascii_of_N (N_of_ascii c - 32).
Proof. unfold upper_char; intros ->; reflexivity. Qed.

Lemma capital_code c :
  is_lower c = true ->
  N_of_ascii (ascii_of_N (N_of_ascii c - 32)) = (N_of_ascii c - 32)%N.
Proof.
  intros _. apply N_ascii_embedding.
  pose proof (N_ascii_bounded c). lia.
Qed.

Lemma capital_injective c d :
  is_lower c = true -> is_lower d = true ->
  ascii_of_N (N_of_ascii c - 32) = ascii_of_N (N_of_ascii d - 32) -> c = d.
Proof.
  intros Hc Hd E.
  apply (f_equal N_of_ascii) in E.
  rewrite !capital_code in E by assumption.
  unfold is_lower in Hc, Hd.
  apply andb_prop in Hc as [Hc _]. apply andb_prop in Hd as [Hd _].
  apply N.leb_le in Hc, Hd.
  assert (N_of_ascii c = N_of_ascii d) as E' by lia.
  apply (f_equal ascii_of_N) in E'.
  now rewrite !ascii_N_embedding in E'.
Qed.

Lemma capital_of_upper c d : capital_of c d -> upper_char c = upper_char d.
Proof.
  intros [Hc ->].
  rewrite (upper_char_capital c Hc).
  symmetry. apply upper_char_fixed.
  rewrite <- (upper_char_capital c Hc). apply upper_char_not_lower.
Qed.

Lemma same_letter_upper c d : same_letter c d <-> upper_char c = upper_char d.
Proof.
  split.
  - intros [-> | [H | H]]; [reflexivity | | symmetry]; now apply capital_of_upper.
  - intros E. unfold same_letter, capital_of.
    destruct (is_lower c) eqn:Hc, (is_lower d) eqn:Hd.
    + left. apply capital_injective; trivial.
      now rewrite <- !upper_char_capital.
    + right; left. split; trivial.
      now rewrite <- upper_char_capital, E, upper_char_fixed.
    + right; right. split; trivial.
      now rewrite <- upper_char_capital, <- E, upper_char_fixed.
    + left. now rewrite <- (upper_char_fixed c), <- (upper_char_fixed d).
Qed.

Lemma equal_ignoring_case_upper s t :
  equal_ignoring_case s t <-> upper s = upper t.
Proof.
  split.
  - induction 1 as [| c d s t Hcd _ IH]; simpl; [reflexivity |].
    apply same_letter_upper in Hcd. now rewrite Hcd, IH.
  - revert t. induction s as [| c s IH]; intros [| d t]; simpl;
      try discriminate; intros E; [constructor |].
    injection E as Hc Hs.
    constructor; [now apply same_letter_upper | now apply IH].
Qed.

Lemma upper_app a b : upper (a ++ b) = upper a ++ upper b.
Proof. induction a as [| c a IH]; simpl; [reflexivity | now rewrite IH]. Qed.

Lemma prefix_app p b : String.prefix p (p ++ b) = true.
Proof.
  induction p as [| c p IH]; simpl; [now destruct b |].
  destruct (ascii_dec c c); [assumption | contradiction].
Qed.

Lemma prefix_upper_split p s :
  String.prefix p (upper s) = true ->
  exists a b, s = a ++ b /\ upper a = p.
Proof.
  revert s. induction p as [| c p IH]; intros s H.
  - exists EmptyString, s. split; reflexivity.
  - destruct s as [| d s]; simpl in H; [discriminate |].
    destruct (ascii_dec c (upper_char d)) as [-> | ]; [| discriminate].
    destruct (IH s H) as (a & b & -> & <-).
    exists (String d a), b. split; reflexivity.
Qed.

Lemma startswith_upper_iff s p :
  upper p = p ->
  startswith (upper s) p = true <-> starts_with_ignoring_case s p.
Proof.
  intros Hp. unfold startswith, starts_with_ignoring_case. split.
  - intros H. destruct (prefix_upper_split _ _ H) as (a & b & -> & Ha).
    exists a, b. split; [reflexivity |].
    apply equal_ignoring_case_upper. congruence.
  - intros (a & b & -> & Ha).
    apply equal_ignoring_case_upper in Ha.
    rewrite upper_app, Ha, Hp. apply prefix_app.
Qed.

End UpperFacts.

(** ** Homicide classification *)

(** On the ASCII reading of [upper]. *)
Lemma homicidio_mask_spec (r : row) :
  homicidio_mask r = true <-> is_homicide r.
Proof.
  unfold homicidio_mask, is_homicide, HOMICIDIO_CODE_PREFIX.
  rewrite orb_true_iff, String.eqb_eq.
  rewrite (startswith_upper_iff _ "X95" eq_refl).
  change "HOMICIDIO" with (upper "HOMICIDIO") at 1.
  rewrite <- equal_ignoring_case_upper.
  split; intros [H | H].
  - left. destruct (MANERA_MUERTE r) as [m |]; simpl in H.
    + now exists m.
    + inversion H.
  - right. destruct (COD_MUERTE r) as [c |]; simpl in H.
    + now exists c.
    + destruct H as (a & b & E & Ha).
      destruct a; [inversion Ha | discriminate].
  - left. destruct H as (m & -> & H). exact H.
  - right. destruct H as (c & -> & H). exact H.
Qed.

(** ** Filters *)

Section FilterFacts.

Variable col : row -> option string.

Lemma filter_column_no_filter value df :
  no_filter value -> filter_column col value df = df.
Proof. intros [-> | [-> | ->]]; reflexivity. Qed.

Lemma filter_column_real v df :
  v <> EmptyString -> v <> ALL_VALUE ->
  filter_column col (Some v) df = filter (fun r => series_eq (col r) v) df.
Proof.
  intros H1 H2. unfold filter_column.
  apply String.eqb_neq in H1, H2. now rewrite H1, H2.
Qed.

Lemma no_filter_dec value :
  no_filter value \/
  exists v, value = Some v /\ v <> EmptyString /\ v <> ALL_VALUE.
Proof.
  unfold no_filter. destruct value as [v |]; [| now left; left].
  destruct (string_dec v EmptyString) as [-> | H1]; [now left; right; left |].
  destruct (string_dec v ALL_VALUE) as [-> | H2]; [now left; right; right |].
  right. now exists v.
Qed.

Lemma series_eq_true cell v : series_eq cell v = true <-> cell = Some v.
Proof.
  destruct cell as [s |]; simpl; [| split; discriminate].
  rewrite String.eqb_eq. split; congruence.
Qed.

Lemma lets_through_passes value r :
  lets_through col value r = true <-> passes col value r.
Proof.
  unfold lets_through, passes.
  destruct (no_filter_dec value) as [H | (v & -> & H1 & H2)].
  - destruct H as [-> | [-> | ->]]; simpl; split; trivial;
      intros _; left; unfold no_filter; auto.
  - pose proof H1 as E1. pose proof H2 as E2.
    apply String.eqb_neq in E1, E2. rewrite E1, E2; simpl.
    rewrite series_eq_true. split; [now right |].
    intros [[H | [H | H]] | H]; congruence.
Qed.

Lemma filter_column_lets_through value df :
  filter_column col value df = filter (lets_through col value) df.
Proof.
  unfold filter_column, lets_through.
  destruct value as [v |].
  - destruct (v =? EmptyString)%string, (v =? ALL_VALUE)%string; simpl;
      try reflexivity;
      (induction df as [| r df IH]; simpl; [reflexivity | now rewrite <- IH]).
  - induction df as [| r df IH]; simpl; [reflexivity | now rewrite <- IH].
Qed.

End FilterFacts.

Lemma filter_filter_andb {A} (f g : A -> bool) l :
  filter g (filter f l) = filter (fun x => f x && g x) l.
Proof.
  induction l as [| x l IH]; simpl; [reflexivity |].
  destruct (f x); simpl; [destruct (g x) |]; now rewrite IH.
Qed.

Lemma apply_filters_as_filter df sexo departamento edad :
  _apply_filters df sexo departamento edad =
  filter (fun r => lets_through SEXO_DESC sexo r
                   && lets_through DEPARTAMENTO departamento r
                   && lets_through categoria_edad edad r) df.
Proof.
  unfold _apply_filters; cbv zeta.
  rewrite !filter_column_lets_through, !filter_filter_andb.
  apply filter_ext. intros r. now rewrite andb_assoc.
Qed.

(** C6. With the three filters at the sentinel the rows come back
    unchanged; with a real sex value every row of the result has exactly
    that sex description, letter case included; and the three filters
    compose by conjunction: the result is the rows, in their order, that
    pass the three of them. *)
Theorem C6_filter_composability :
  (forall df,
      _apply_filters df (Some ALL_VALUE) (Some ALL_VALUE) (Some ALL_VALUE) = df)
  /\ (forall df sexo departamento edad r,
        sexo <> EmptyString -> sexo <> ALL_VALUE ->
        In r (_apply_filters df (Some sexo) departamento edad) ->
        SEXO_DESC r = Some sexo)
  /\ (forall df sexo departamento edad,
        _apply_filters df sexo departamento edad =
        filter (fun r => lets_through SEXO_DESC sexo r
                         && lets_through DEPARTAMENTO departamento r
                         && lets_through categoria_edad edad r) df)
  /\ (forall df sexo departamento edad r,
        In r (_apply_filters df sexo departamento edad) <->
        In r df /\ passes SEXO_DESC sexo r
        /\ passes DEPARTAMENTO departamento r
        /\ passes categoria_edad edad r)
  /\ _apply_filters [Sample.with_sexo Sample.blank "Femenino"]
       (Some "femenino") None None = [].
Proof.
  split; [reflexivity |].
  split; [| split; [exact apply_filters_as_filter | split; [| reflexivity]]].
  - intros df sexo departamento edad r H1 H2 Hin.
    rewrite apply_filters_as_filter in Hin.
    apply filter_In in Hin as [_ Hp].
    apply andb_prop in Hp as [Hp _]. apply andb_prop in Hp as [Hp _].
    apply lets_through_passes in Hp as [[H | [H | H]] | H]; congruence.
  - intros df sexo departamento edad r.
    rewrite apply_filters_as_filter, filter_In, !andb_true_iff,
      !lets_through_passes.
    tauto.
Qed.

Lemma C6_filter_composability_witness :
  SEXO_DESC (Sample.with_sexo Sample.blank "Femenino") = Some "Femenino".
Proof.
  apply (proj1 (proj2 C6_filter_composability)
           [ Sample.with_sexo Sample.blank "Masculino";
             Sample.with_sexo Sample.blank "Femenino" ]
           "Femenino" None (Some ALL_VALUE)).
  - discriminate.
  - discriminate.
  - simpl. left. reflexivity.
Defined.

(** C10. A filter argument that is [None] or the empty text is skipped,
    as the sentinel is: in each of the three positions of [_apply_filters]
    and in the manner-of-death filter, which then returns the rows
    unchanged. *)
Theorem C10_none_and_empty_are_no_filter :
  (forall df departamento edad,
      _apply_filters df None departamento edad =
      _apply_filters df (Some ALL_VALUE) departamento edad
      /\ _apply_filters df (Some EmptyString) departamento edad =
         _apply_filters df (Some ALL_VALUE) departamento edad)
  /\ (forall df sexo edad,
        _apply_filters df sexo None edad =
        _apply_filters df sexo (Some ALL_VALUE) edad
        /\ _apply_filters df sexo (Some EmptyString) edad =
           _apply_filters df sexo (Some ALL_VALUE) edad)
  /\ (forall df sexo departamento,
        _apply_filters df sexo departamento None =
        _apply_filters df sexo departamento (Some ALL_VALUE)
        /\ _apply_filters df sexo departamento (Some EmptyString) =
           _apply_filters df sexo departamento (Some ALL_VALUE))
  /\ (forall df,
        _apply_filters df None None None = df
        /\ _apply_filters df (Some EmptyString) (Some EmptyString)
             (Some EmptyString) = df
        /\ _apply_filters df (Some ALL_VALUE) (Some ALL_VALUE)
             (Some ALL_VALUE) = df)
  /\ (forall df,
        _filter_by_manera df None = df
        /\ _filter_by_manera df (Some EmptyString) = df
        /\ _filter_by_manera df (Some ALL_VALUE) = df).
Proof.
  repeat split; reflexivity.
Qed.

(** ** Grouping *)

Section GroupByFacts.

Context {K : Type} (compare : K -> K -> comparison).

Lemma total_add_to_group k groups :
  total_muertes (add_to_group compare k groups) = S (total_muertes groups).
Proof.
  induction groups as [| g groups IH]; simpl; [reflexivity |].
  destruct (compare k (group g)); simpl; [reflexivity .. |].
  rewrite IH. lia.
Qed.

Lemma total_fold_add keys groups :
  total_muertes
    (fold_left (fun groups k => add_to_group compare k groups) keys groups) =
  (List.length keys + total_muertes groups)%nat.
Proof.
  revert groups. induction keys as [| k keys IH]; intros groups; simpl;
    [reflexivity |].
  rewrite IH, total_add_to_group. lia.
Qed.

Lemma total_groupby_size keys :
  total_muertes (groupby_size compare keys) = List.length keys.
Proof. unfold groupby_size. rewrite total_fold_add. simpl. lia. Qed.

(** A property of the groups that holds of a fresh group and is kept
    when a group grows holds of every group. *)
Variable P : counted K -> Prop.

Lemma add_to_group_inv k groups :
  P (Counted k 1) ->
  (forall g, P g -> P (Counted (group g) (S (muertes g)))) ->
  Forall P groups -> Forall P (add_to_group compare k groups).
Proof.
  intros Hnew Hgrow. induction 1 as [| g groups Hg Hgs IH]; simpl.
  - now constructor.
  - destruct (compare k (group g)).
    + constructor; [now apply Hgrow | assumption].
    + constructor; [assumption | now constructor].
    + now constructor.
Qed.

Lemma groupby_size_inv keys :
  (forall k, In k keys -> P (Counted k 1)) ->
  (forall g, P g -> P (Counted (group g) (S (muertes g)))) ->
  Forall P (groupby_size compare keys).
Proof.
  intros Hnew Hgrow. unfold groupby_size.
  assert (forall groups, Forall P groups ->
            Forall P (fold_left (fun groups k => add_to_group compare k groups)
                                keys groups)) as H.
  { induction keys as [| k keys IH]; intros groups Hgs; simpl; [assumption |].
    apply IH.
    - intros k' Hk'. apply Hnew. now right.
    - apply add_to_group_inv; trivial. apply Hnew. now left. }
  apply H. constructor.
Qed.

End GroupByFacts.

Lemma groupby_size_counts_rows {K} (compare : K -> K -> comparison) keys :
  Forall (fun g => (0 < muertes g)%nat /\ In (group g) keys)
         (groupby_size compare keys).
Proof.
  apply groupby_size_inv.
  - intros k Hk. simpl. split; [lia | assumption].
  - intros g [H1 H2]. simpl. split; [lia | assumption].
Qed.

Lemma length_dropna {A V} (col : A -> option V) (df : list A) :
  List.length (dropna (map col df)) = List.length (filter (fun r => notna (col r)) df).
Proof.
  induction df as [| r df IH]; simpl; [reflexivity |].
  destruct (col r); simpl; now rewrite IH.
Qed.

(** ** Ranking *)

Section SortFacts.

Context {A : Type} (before : A -> A -> bool).

Lemma insert_sorted_In x l y :
  In y (insert_sorted before x l) <-> y = x \/ In y l.
Proof.
  induction l as [| z l IH]; simpl.
  - intuition congruence.
  - destruct (before x z); simpl; rewrite ?IH; intuition congruence.
Qed.

Lemma sort_values_In l y : In y (sort_values before l) <-> In y l.
Proof.
  induction l as [| x l IH]; simpl; [reflexivity |].
  rewrite insert_sorted_In, IH. intuition congruence.
Qed.

Lemma sort_values_Forall (P : A -> Prop) l :
  Forall P l -> Forall P (sort_values before l).
Proof.
  rewrite !Forall_forall. intros H y Hy. apply H. now apply sort_values_In.
Qed.

Lemma length_insert_sorted x l :
  List.length (insert_sorted before x l) = S (List.length l).
Proof.
  induction l as [| z l IH]; simpl; [reflexivity |].
  destruct (before x z); simpl; [reflexivity | now rewrite IH].
Qed.

Hypothesis before_total : forall a b, before a b = false -> before b a = true.
Hypothesis before_trans :
  forall a b c, before a b = true -> before b c = true -> before a c = true.

Let ranked (a b : A) : Prop := before a b = true.

Lemma insert_sorted_sorted x l :
  StronglySorted ranked l -> StronglySorted ranked (insert_sorted before x l).
Proof.
  induction 1 as [| z l Hl IH Hz]; simpl.
  - constructor; constructor.
  - destruct (before x z) eqn:E.
    + constructor; [now constructor |].
      constructor; [exact E |].
      rewrite Forall_forall in *. intros y Hy.
      apply before_trans with z; [exact E | now apply Hz].
    + constructor; [assumption |].
      rewrite Forall_forall in *. intros y Hy.
      apply insert_sorted_In in Hy as [-> | Hy].
      * now apply before_total.
      * now apply Hz.
Qed.

Lemma sort_values_sorted l : StronglySorted ranked (sort_values before l).
Proof.
  induction l as [| x l IH]; simpl; [constructor |].
  now apply insert_sorted_sorted.
Qed.

End SortFacts.

Lemma total_insert_sorted {K} (before : counted K -> counted K -> bool) x l :
  total_muertes (insert_sorted before x l) = (muertes x + total_muertes l)%nat.
Proof.
  induction l as [| z l IH]; simpl; [reflexivity |].
  destruct (before x z); simpl; [reflexivity |]. rewrite IH. lia.
Qed.

Lemma total_sort_values {K} (before : counted K -> counted K -> bool) l :
  total_muertes (sort_values before l) = total_muertes l.
Proof.
  induction l as [| x l IH]; simpl; [reflexivity |].
  now rewrite total_insert_sorted, IH.
Qed.

Lemma StronglySorted_head {A} (R : A -> A -> Prop) n l :
  StronglySorted R l -> StronglySorted R (head n l).
Proof.
  unfold head. intros H. revert n.
  induction H as [| x l Hl IH Hx]; intros [| n]; simpl; try constructor.
  - apply IH.
  - rewrite Forall_forall in *. intros y Hy. apply Hx.
    rewrite <- (firstn_skipn n l). apply in_or_app. now left.
Qed.

Lemma Forall_head {A} (P : A -> Prop) n l : Forall P l -> Forall P (head n l).
Proof.
  unfold head. rewrite !Forall_forall. intros H y Hy. apply H.
  rewrite <- (firstn_skipn n l). apply in_or_app. now left.
Qed.

Lemma StronglySorted_weaken {A} (R R' : A -> A -> Prop) l :
  (forall a b, R a b -> R' a b) ->
  StronglySorted R l -> StronglySorted R' l.
Proof.
  intros HR. induction 1 as [| x l Hl IH Hx]; constructor; [assumption |].
  eapply Forall_impl; [| exact Hx]. intros y. apply HR.
Qed.

Lemma sorted_descending {K} (l : list (counted K)) :
  StronglySorted (fun a b => (muertes b <= muertes a)%nat)
                 (sort_values descending l).
Proof.
  eapply StronglySorted_weaken;
    [| apply (sort_values_sorted (@descending K))].
  - intros a b H. now apply Nat.leb_le in H.
  - unfold descending. intros a b H. apply Nat.leb_gt in H.
    apply Nat.leb_le. lia.
  - unfold descending. intros a b c H1 H2.
    apply Nat.leb_le in H1, H2. apply Nat.leb_le. lia.
Qed.

Lemma sorted_ascending {K} (l : list (counted K)) :
  StronglySorted (fun a b => (muertes a <= muertes b)%nat)
                 (sort_values ascending l).
Proof.
  eapply StronglySorted_weaken;
    [| apply (sort_values_sorted (@ascending K))].
  - intros a b H. now apply Nat.leb_le in H.
  - unfold ascending. intros a b H. apply Nat.leb_gt in H.
    apply Nat.leb_le. lia.
  - unfold ascending. intros a b c H1 H2.
    apply Nat.leb_le in H1, H2. apply Nat.leb_le. lia.
Qed.

Lemma StronglySorted_nth_error {A} (R : A -> A -> Prop) l :
  StronglySorted R l ->
  forall i j a b, (i < j)%nat ->
    nth_error l i = Some a -> nth_error l j = Some b -> R a b.
Proof.
  induction 1 as [| x l Hl IH Hx]; intros i j a b Hij Hi Hj.
  - destruct i; discriminate.
  - destruct j as [| j]; [lia |]. simpl in Hj.
    destruct i as [| i]; simpl in Hi.
    + injection Hi as <-. rewrite Forall_forall in Hx.
      apply Hx. eapply nth_error_In; eassumption.
    + apply (IH i j); [lia | assumption ..].
Qed.

(** ** The views *)

(** C7. Whatever the rows and the filters, the top-10-causes view has at
    most 10 rows and they come by count, largest first: no row has a count
    smaller than the count of a row after it. *)
Theorem C7_top10_causas_capped_and_ranked :
  forall df sexo departamento edad,
    let out := get_top10_causas df sexo departamento edad in
    (List.length out <= 10)%nat
    /\ StronglySorted (fun a b => (muertes b <= muertes a)%nat) out
    /\ (forall i j a b, (i < j)%nat ->
          nth_error out i = Some a -> nth_error out j = Some b ->
          (muertes b <= muertes a)%nat).
Proof.
  intros df sexo departamento edad out.
  assert (StronglySorted (fun a b => (muertes b <= muertes a)%nat) out) as Hs.
  { unfold out, get_top10_causas; cbv zeta.
    apply StronglySorted_head, sorted_descending. }
  split; [apply firstn_le_length |].
  split; [exact Hs |].
  exact (StronglySorted_nth_error _ _ Hs).
Qed.

Lemma C7_top10_causas_capped_and_ranked_witness :
  (muertes (Counted ("X954", "Agresion con disparo") 1)
   <= muertes (Counted ("I219", "Infarto agudo del miocardio") 1))%nat.
Proof.
  apply (proj2 (proj2 (C7_top10_causas_capped_and_ranked
                         Sample.dataset None None None)) 0%nat 1%nat).
  - lia.
  - reflexivity.
  - reflexivity.
Defined.

Lemma series_total df sexo departamento edad :
  total_muertes (get_series_mensuales df sexo departamento edad) =
  List.length (filter (fun r => notna (MES r))
                 (_apply_filters df sexo departamento edad)).
Proof.
  unfold get_series_mensuales; cbv zeta.
  now rewrite total_sort_values, total_groupby_size, length_dropna.
Qed.

(** C5 as stated fails: the monthly series groups by month with the
    default [dropna], which leaves the rows with a null month out.  In the
    dataset built from the sample tables the third death has no month: the
    series counts 2 deaths and the dataset has 3 rows. *)
Lemma C5_counterexample :
  total_muertes (get_series_mensuales Sample.dataset None None None) = 2%nat
  /\ List.length Sample.dataset = 3%nat
  /\ total_muertes (get_series_mensuales Sample.dataset None None None)
     <> List.length Sample.dataset.
Proof.
  split; [reflexivity |]. split; [reflexivity |].
  vm_compute. discriminate.
Qed.

(** C5, amended. The counts of the monthly series add up to the number of
    rows that pass the filters and have a month; with no filter, to the
    number of rows of the dataset that have a month, which is the number of
    its rows when no month is null. *)
Theorem C5_monthly_total_counts_rows_with_month :
  (forall df sexo departamento edad,
      total_muertes (get_series_mensuales df sexo departamento edad) =
      List.length (filter (fun r => notna (MES r))
                     (_apply_filters df sexo departamento edad)))
  /\ (forall df,
        total_muertes (get_series_mensuales df None None None) =
        List.length (filter (fun r => notna (MES r)) df)
        /\ total_muertes
             (get_series_mensuales df (Some ALL_VALUE) (Some ALL_VALUE)
                (Some ALL_VALUE)) =
           List.length (filter (fun r => notna (MES r)) df))
  /\ (forall df,
        Forall (fun r => MES r <> None) df ->
        total_muertes (get_series_mensuales df None None None) =
        List.length df).
Proof.
  split; [exact series_total |].
  split.
  - intros df. split; apply series_total.
  - intros df Hdf. rewrite series_total.
    change (_apply_filters df None None None) with df.
    induction Hdf as [| r df Hr _ IH]; simpl; [reflexivity |].
    destruct (MES r); [simpl; now rewrite IH | contradiction].
Qed.

Lemma C5_monthly_total_counts_rows_with_month_witness :
  total_muertes
    (get_series_mensuales (firstn 2 Sample.dataset) None None None) =
  List.length (firstn 2 Sample.dataset).
Proof.
  apply (proj2 (proj2 C5_monthly_total_counts_rows_with_month)).
  vm_compute. repeat constructor; discriminate.
Defined.

(** ** The dataset build *)

Lemma bind_Ok {A B} (m : result A) (k : A -> result B) b :
  Py.bind m k = Ok b -> exists a, m = Ok a /\ k a = Ok b.
Proof. destruct m as [a | e]; simpl; [now exists a | discriminate]. Qed.

Lemma mapM_In {A B} (f : A -> result B) l l' b :
  mapM f l = Ok l' -> In b l' -> exists a, In a l /\ f a = Ok b.
Proof.
  revert l'. induction l as [| a l IH]; simpl; intros l' H Hb.
  - injection H as <-. contradiction.
  - apply bind_Ok in H as (b0 & Hb0 & H).
    apply bind_Ok in H as (bs & Hbs & H).
    injection H as <-. destruct Hb as [<- | Hb].
    + exists a. now split; [left |].
    + destruct (IH bs Hbs Hb) as (a' & Ha' & Hf).
      exists a'. now split; [right |].
Qed.

Lemma key_eqb_eq a b : key_eqb a b = true <-> a = b.
Proof.
  destruct a as [x |], b as [y |]; simpl;
    try (split; [discriminate | congruence]); [| now split].
  rewrite String.eqb_eq. split; congruence.
Qed.

Lemma merge_left_In {L R} (left_on : L -> option string)
    (right_on : R -> option string) left right l o :
  In (l, o) (merge_left left_on right_on left right) ->
  In l left
  /\ match o with
     | Some r => In r right /\ left_on l = right_on r
     | None => forall r, In r right -> left_on l <> right_on r
     end.
Proof.
  unfold merge_left. rewrite in_flat_map. intros (l0 & Hl0 & H).
  destruct (filter (fun r => key_eqb (left_on l0) (right_on r)) right)
    as [| r0 matches] eqn:E.
  - destruct H as [H | []]. injection H as <- <-. split; [assumption |].
    intros r Hr Hk. apply key_eqb_eq in Hk.
    assert (In r []) as []. rewrite <- E. apply filter_In. now split.
  - rewrite <- E in H. apply in_map_iff in H as (r & H & Hr).
    injection H as <- <-. split; [assumption |].
    apply filter_In in Hr as [Hr Hk]. now apply key_eqb_eq in Hk.
Qed.

Section BuildFacts.

Variable int_of_text : string -> option Z.
Variable numeric_of_text : string -> pyfloat.

Lemma normalize_mortalidad_Ok m n :
  normalize_mortalidad numeric_of_text m = Ok n ->
  normalize_value numeric_of_text (Some 5) (raw_COD_DANE m) = Ok (n_COD_DANE n)
  /\ normalize_value numeric_of_text (Some 2) (raw_COD_DEPARTAMENTO m) =
     Ok (n_COD_DEPARTAMENTO n).
Proof.
  unfold normalize_mortalidad. intros H.
  apply bind_Ok in H as (dane & Hdane & H).
  apply bind_Ok in H as (departamento & Hdep & H).
  apply bind_Ok in H as (municipio & _ & H).
  apply bind_Ok in H as (sexo & _ & H).
  injection H as <-. now split.
Qed.

Lemma normalize_divipola_Ok d c :
  normalize_divipola numeric_of_text d = Ok c ->
  normalize_value numeric_of_text (Some 5) (divi_COD_DANE d) =
    Ok (sel_COD_DANE c)
  /\ normalize_value numeric_of_text (Some 2) (divi_COD_DEPARTAMENTO d) =
     Ok (sel_COD_DEPARTAMENTO c)
  /\ sel_NOMBRE_MUNICIPIO c = divi_MUNICIPIO d
  /\ sel_NOMBRE_DEPARTAMENTO c = divi_DEPARTAMENTO d.
Proof.
  unfold normalize_divipola. intros H.
  apply bind_Ok in H as (dane & Hdane & H).
  apply bind_Ok in H as (departamento & Hdep & H).
  apply bind_Ok in H as (municipio & _ & H).
  injection H as <-. now repeat split.
Qed.

Lemma enrich_Ok l oc r :
  enrich int_of_text (l, oc) = Ok r ->
  COD_DANE r = n_COD_DANE (loc_base l)
  /\ COD_DEPARTAMENTO r = loc_COD_DEPARTAMENTO l
  /\ MUNICIPIO r = str_upper (_clean_string (loc_MUNICIPIO l))
  /\ DEPARTAMENTO r = str_upper (_clean_string (loc_DEPARTAMENTO l)).
Proof.
  unfold enrich. intros H.
  apply bind_Ok in H as (categoria & _ & H).
  injection H as <-. now repeat split.
Qed.

(** Where a row of the dataset comes from: a mortality record, the
    catalogue entry the first merge gave it, if any, and the cause the
    second merge gave it, if any. *)
Lemma build_full_dataset_row mortalidad_raw codigos_raw divipola_raw ds r :
  build_full_dataset int_of_text numeric_of_text
    mortalidad_raw codigos_raw divipola_raw = Ok ds ->
  In r ds ->
  exists mortalidad divipola m od oc,
    mapM (normalize_mortalidad numeric_of_text) mortalidad_raw = Ok mortalidad
    /\ mapM (normalize_divipola numeric_of_text) divipola_raw = Ok divipola
    /\ In (m, od) (merge_left n_COD_DANE sel_COD_DANE mortalidad divipola)
    /\ enrich int_of_text (resolve_departamento (as_merged_row (m, od)), oc) =
       Ok r.
Proof.
  unfold build_full_dataset. intros H Hr.
  apply bind_Ok in H as (mortalidad & Hm & H).
  apply bind_Ok in H as (divipola & Hd & H).
  destruct (mapM_In _ _ _ _ H Hr) as ([l oc] & Hl & He).
  apply merge_left_In in Hl as [Hl _].
  unfold locate in Hl. apply in_map_iff in Hl as ([m od] & <- & Hp).
  now exists mortalidad, divipola, m, od, oc.
Qed.

End BuildFacts.

Lemma mapM_In_source {A B} (f : A -> result B) l l' a :
  mapM f l = Ok l' -> In a l -> exists b, In b l' /\ f a = Ok b.
Proof.
  revert l'. induction l as [| a0 l IH]; simpl; intros l' H Ha; [contradiction |].
  apply bind_Ok in H as (b0 & Hb0 & H).
  apply bind_Ok in H as (bs & Hbs & H).
  injection H as <-. destruct Ha as [-> | Ha].
  - exists b0. now split; [left |].
  - destruct (IH bs Hbs Ha) as (b & Hb & Hf).
    exists b. now split; [right |].
Qed.

Lemma apply_filters_incl df sexo departamento edad r :
  In r (_apply_filters df sexo departamento edad) -> In r df.
Proof. rewrite apply_filters_as_filter, filter_In. tauto. Qed.

Lemma bottom10_groups df sexo departamento edad :
  Forall (fun g =>
            (0 < muertes g)%nat
            /\ fst (group g) <> None
            /\ exists r, In r (_apply_filters df sexo departamento edad)
                         /\ MUNICIPIO r = fst (group g))
         (get_bottom10_ciudades_menos_muertes df sexo departamento edad).
Proof.
  unfold get_bottom10_ciudades_menos_muertes; cbv zeta.
  apply Forall_head, sort_values_Forall, Forall_forall.
  intros g Hg. apply in_map_iff in Hg as (g0 & <- & Hg0).
  apply filter_In in Hg0 as [Hg0 Hq].
  apply andb_prop in Hq as [Hq _].
  pose proof (groupby_size_counts_rows compare_key2
    (map (fun r => (MUNICIPIO r, DEPARTAMENTO r))
         (_apply_filters df sexo departamento edad))) as H.
  rewrite Forall_forall in H. destruct (H g0 Hg0) as [Hpos Hkey].
  apply in_map_iff in Hkey as (r & Hr & Hin).
  simpl. split; [assumption |]. split.
  - destruct (fst (group g0)); [discriminate | discriminate].
  - exists r. split; [assumption |]. now rewrite <- Hr.
Qed.

Lemma top5_groups df sexo departamento edad :
  Forall (fun g =>
            exists r, In r (_apply_filters df sexo departamento edad)
                      /\ is_homicide r
                      /\ MUNICIPIO r = fst (group g))
         (get_top5_ciudades_violentas df sexo departamento edad).
Proof.
  unfold get_top5_ciudades_violentas; cbv zeta.
  apply Forall_head, sort_values_Forall, Forall_forall.
  intros g Hg. apply in_map_iff in Hg as (g0 & <- & Hg0).
  apply filter_In in Hg0 as [Hg0 _].
  pose proof (groupby_size_counts_rows compare_key2
    (map (fun r => (MUNICIPIO r, DEPARTAMENTO r))
         (_filter_homicidios
            (_apply_filters df sexo departamento edad)))) as H.
  rewrite Forall_forall in H. destruct (H g0 Hg0) as [_ Hkey].
  apply in_map_iff in Hkey as (r & Hr & Hin).
  unfold _filter_homicidios in Hin. apply filter_In in Hin as [Hin Hmask].
  exists r. split; [assumption |]. split.
  - now apply homicidio_mask_spec.
  - simpl. now rewrite <- Hr.
Qed.

(** C1. For every row, the row is kept by the homicide filter exactly
    when its manner of death, in capitals, is "HOMICIDIO" or its cause
    code, in capitals, starts with "X95", a null counting as the empty
    text.  For every row whose manner of death and cause code are ASCII
    text or null, that is exactly when its manner of death equals
    "HOMICIDIO" up to case or its cause code starts with "X95" up to case,
    letter by letter; on a dataset of such rows the
    top-5-violent-cities view counts such rows only; and of three rows
    with (HOMICIDIO, Y09), (OTRO, X95X) and (OTRO, W00), the first two are
    kept and the third is not. *)
Theorem C1_homicide_classification :
  (forall r,
      homicidio_mask r = true <->
      upper (fillna EmptyString (MANERA_MUERTE r)) = "HOMICIDIO"
      \/ startswith (upper (fillna EmptyString (COD_MUERTE r))) "X95" = true)
  /\ (forall r, ascii_row r -> (homicidio_mask r = true <-> is_homicide r))
  /\ (forall df r,
        ascii_row r ->
        (In r (_filter_homicidios df) <-> In r df /\ is_homicide r))
  /\ (forall df sexo departamento edad,
        Forall ascii_row df ->
        Forall (fun g =>
                  exists r, In r (_apply_filters df sexo departamento edad)
                            /\ is_homicide r
                            /\ MUNICIPIO r = fst (group g))
               (get_top5_ciudades_violentas df sexo departamento edad))
  /\ (forall r1 r2 r3,
        _filter_homicidios
          [ Sample.with_manner_cause r1 "HOMICIDIO" "Y09";
            Sample.with_manner_cause r2 "OTRO" "X95X";
            Sample.with_manner_cause r3 "OTRO" "W00" ] =
          [ Sample.with_manner_cause r1 "HOMICIDIO" "Y09";
            Sample.with_manner_cause r2 "OTRO" "X95X" ])
  /\ (forall r,
        _filter_homicidios
          [ Sample.with_manner_cause r "Homicidio" "Y09";
            Sample.with_manner_cause r "otro" "x954" ] =
          [ Sample.with_manner_cause r "Homicidio" "Y09";
            Sample.with_manner_cause r "otro" "x954" ]).
Proof.
  split.
  { intros r. unfold homicidio_mask, HOMICIDIO_CODE_PREFIX.
    now rewrite orb_true_iff, String.eqb_eq. }
  split; [intros r _; apply homicidio_mask_spec |].
  split; [| split; [intros df sexo departamento edad _; apply top5_groups
                   | split; reflexivity]].
  intros df r _. unfold _filter_homicidios.
  rewrite filter_In, homicidio_mask_spec. reflexivity.
Qed.

Lemma C1_homicide_classification_witness :
  is_homicide (Sample.with_manner_cause Sample.blank "otro" "x954").
Proof.
  assert (ascii_row (Sample.with_manner_cause Sample.blank "otro" "x954"))
    as Hascii by (split; reflexivity).
  apply (proj1 (proj1 (proj2 C1_homicide_classification) _ Hascii)).
  reflexivity.
Defined.

(** C8. Whatever the rows and the filters, every row of the
    bottom-10-low-mortality-cities view has a count above zero and a
    municipality that is not null and is the one of a row that passed the
    filters; the view has at most 10 rows, by count, smallest first.  On
    the dataset the build returns, the municipality of every row of the
    view is the one of a catalogue entry whose division code is the one
    of a mortality record: an entry with no death does not come out. *)
Theorem C8_bottom10_has_no_empty_group :
  (forall df sexo departamento edad,
      let out := get_bottom10_ciudades_menos_muertes df sexo departamento edad in
      Forall (fun g =>
                (0 < muertes g)%nat
                /\ fst (group g) <> None
                /\ exists r, In r (_apply_filters df sexo departamento edad)
                             /\ MUNICIPIO r = fst (group g)) out
      /\ (List.length out <= 10)%nat
      /\ StronglySorted (fun a b => (muertes a <= muertes b)%nat) out)
  /\ (forall int_of_text numeric_of_text mortalidad codigos divipola ds
             sexo departamento edad g,
        build_full_dataset int_of_text numeric_of_text
          mortalidad codigos divipola = Ok ds ->
        In g (get_bottom10_ciudades_menos_muertes ds sexo departamento edad) ->
        municipality_with_deaths numeric_of_text mortalidad divipola
          (fst (group g))).
Proof.
  split.
  - intros df sexo departamento edad out.
    split; [apply bottom10_groups |].
    split; [apply firstn_le_length |].
    unfold out, get_bottom10_ciudades_menos_muertes; cbv zeta.
    apply StronglySorted_head, sorted_ascending.
  - intros int_of_text numeric_of_text mortalidad codigos divipola ds
      sexo departamento edad g Hbuild Hg.
    pose proof (bottom10_groups ds sexo departamento edad) as H.
    rewrite Forall_forall in H.
    destruct (H g Hg) as (_ & Hmun & r & Hr & Hrg).
    apply apply_filters_incl in Hr.
    destruct (build_full_dataset_row _ _ _ _ _ _ _ Hbuild Hr)
      as (mortalidad_n & divipola_n & m & od & oc & Hm & Hd & Hmerge & He).
    apply enrich_Ok in He as (_ & _ & Hmunicipio & _).
    simpl in Hmunicipio. rewrite Hrg in Hmunicipio.
    apply merge_left_In in Hmerge as [Hmn Hod].
    destruct od as [c |]; simpl in Hmunicipio; [| contradiction].
    destruct Hod as [Hc Hkey].
    destruct (mapM_In _ _ _ _ Hm Hmn) as (m0 & Hm0 & Hnm).
    destruct (mapM_In _ _ _ _ Hd Hc) as (d0 & Hd0 & Hnd).
    apply normalize_mortalidad_Ok in Hnm as [Hnm _].
    apply normalize_divipola_Ok in Hnd as (Hnd & _ & Hname & _).
    exists m0, d0, (n_COD_DANE m).
    unfold division_code.
    repeat split; try assumption.
    + now rewrite Hkey.
    + now rewrite <- Hname.
Qed.

Lemma C8_bottom10_has_no_empty_group_witness :
  municipality_with_deaths Sample.numeric_of_decimal
    Sample.mortalidad Sample.divipola (Some "MEDELLIN").
Proof.
  apply (proj2 C8_bottom10_has_no_empty_group
           Sample.int_of_decimal Sample.numeric_of_decimal
           Sample.mortalidad Sample.codigos Sample.divipola Sample.dataset
           None None None (Counted (Some "MEDELLIN", "ANTIOQUIA") 1)).
  - reflexivity.
  - vm_compute. right. left. reflexivity.
Defined.

Lemma endswith_drop_DIVI columns :
  Forall (fun col => endswith col "_DIVI" = false) (drop_DIVI columns).
Proof.
  unfold drop_DIVI. apply Forall_forall. intros col Hcol.
  apply filter_In in Hcol as [_ Hcol]. now apply negb_true_iff in Hcol.
Qed.

Lemma merge_columns_suffix left right on suffix c :
  In c left -> In c right -> c <> on ->
  In (c ++ suffix) (merge_columns left right on suffix).
Proof.
  intros Hl Hr Hon. unfold merge_columns. apply in_or_app. right.
  apply in_map_iff. exists c. split.
  - assert (existsb (String.eqb c) left = true) as ->; [| reflexivity].
    apply existsb_exists. exists c. split; [assumption | apply String.eqb_refl].
  - apply filter_In. split; [assumption |].
    apply negb_true_iff. now apply String.eqb_neq.
Qed.

(** C9. The department code of a row of the first merge is the one of the
    catalogue when it is there and the one of the mortality record
    otherwise; so is the department code of every row of the dataset the
    build returns, where the record's own code stays when no catalogue
    entry has its division code or the entry has no department code.  The
    column the merge added under the suffix [_DIVI] is in the merged
    columns and in none of the columns after the drop. *)
Theorem C9_department_code_coalesce :
  (forall m : merged_row,
      loc_COD_DEPARTAMENTO (resolve_departamento m) =
      match COD_DEPARTAMENTO_DIVI m with
      | Some v => Some v
      | None => n_COD_DEPARTAMENTO (m_left m)
      end)
  /\ (forall int_of_text numeric_of_text mortalidad codigos divipola ds r,
        build_full_dataset int_of_text numeric_of_text
          mortalidad codigos divipola = Ok ds ->
        In r ds ->
        coalesce_left numeric_of_text mortalidad divipola r)
  /\ (forall left right,
        In "COD_DEPARTAMENTO" left -> In "COD_DEPARTAMENTO" right ->
        let merged := merge_columns left right "COD_DANE" "_DIVI" in
        In "COD_DEPARTAMENTO_DIVI" merged
        /\ ~ In "COD_DEPARTAMENTO_DIVI" (drop_DIVI merged)
        /\ In "COD_DEPARTAMENTO" (drop_DIVI merged)
        /\ Forall (fun col => endswith col "_DIVI" = false) (drop_DIVI merged)).
Proof.
  split; [reflexivity |]. split.
  - intros int_of_text numeric_of_text mortalidad codigos divipola ds r
      Hbuild Hr.
    destruct (build_full_dataset_row _ _ _ _ _ _ _ Hbuild Hr)
      as (mortalidad_n & divipola_n & m & od & oc & Hm & Hd & Hmerge & He).
    apply enrich_Ok in He as (Hdane & Hdep & _). simpl in Hdane, Hdep.
    apply merge_left_In in Hmerge as [Hmn Hod].
    destruct (mapM_In _ _ _ _ Hm Hmn) as (m0 & Hm0 & Hnm).
    apply normalize_mortalidad_Ok in Hnm as [Hnm1 Hnm2].
    exists m0, (n_COD_DEPARTAMENTO m). unfold division_code, department_code.
    rewrite Hdane. repeat split; try assumption.
    destruct od as [c |]; simpl in Hdep.
    + destruct Hod as [Hc Hkey].
      destruct (mapM_In _ _ _ _ Hd Hc) as (d0 & Hd0 & Hnd).
      apply normalize_divipola_Ok in Hnd as (Hnd1 & Hnd2 & _).
      assert (catalogue_value numeric_of_text divipola (n_COD_DANE m)
                (sel_COD_DEPARTAMENTO c)) as Hcat.
      { exists d0. unfold division_code, department_code.
        rewrite Hkey. now repeat split. }
      destruct (sel_COD_DEPARTAMENTO c) as [v |]; simpl in Hdep.
      * left. exists v. now split.
      * right. split; [now right | assumption].
    + right. split; [left | assumption].
      intros d k Hdin Hk Heq.
      destruct (mapM_In_source _ _ _ _ Hd Hdin) as (c & Hc & Hnd).
      apply normalize_divipola_Ok in Hnd as (Hnd1 & _).
      apply (Hod c Hc). unfold division_code in Hk.
      rewrite <- Heq. congruence.
  - intros left right Hl Hr merged.
    assert (In "COD_DEPARTAMENTO_DIVI" merged) as Hin.
    { apply (merge_columns_suffix left right "COD_DANE" "_DIVI"
               "COD_DEPARTAMENTO"); [assumption .. | discriminate]. }
    pose proof (endswith_drop_DIVI merged) as Hdrop.
    split; [exact Hin |]. split; [| split; [| exact Hdrop]].
    + intros H. rewrite Forall_forall in Hdrop.
      apply Hdrop in H. discriminate.
    + unfold drop_DIVI. apply filter_In. split; [| reflexivity].
      unfold merged, merge_columns. apply in_or_app. now left.
Qed.

Lemma C9_department_code_coalesce_witness :
  coalesce_left Sample.numeric_of_decimal Sample.mortalidad Sample.divipola
    (nth 1 Sample.dataset Sample.blank).
Proof.
  apply (proj1 (proj2 C9_department_code_coalesce)
           Sample.int_of_decimal Sample.numeric_of_decimal
           Sample.mortalidad Sample.codigos Sample.divipola Sample.dataset).
  - reflexivity.
  - vm_compute. right. left. reflexivity.
Defined.

(** ** Age brackets *)


Lemma dict_get_value {V} k (d : list (Z * V)) default :
  dict_get k d default = default \/ In (dict_get k d default) (map snd d).
Proof.
  revert default. induction d as [| [k' v] d IH]; intros default; simpl;
    [now left |].
  destruct (IH (if k =? k' then v else default)) as [-> | H].
  - destruct (k =? k'); [right; now left | now left].
  - right. now right.
Qed.

Lemma age_labels_in_order :
  Forall (fun kv => In (snd kv) AGE_CATEGORY_ORDER) AGE_CATEGORY_LABELS.
Proof.
  assert (forallb (fun kv => existsb (String.eqb (snd kv)) AGE_CATEGORY_ORDER)
                  AGE_CATEGORY_LABELS = true) as H by reflexivity.
  rewrite forallb_forall in H. apply Forall_forall. intros kv Hkv.
  apply H in Hkv. apply existsb_exists in Hkv as (label & Hl & E).
  apply String.eqb_eq in E. now rewrite E.
Qed.



Section AgeFacts.

Variable int_of_text : string -> option Z.

Let classify := _map_categoria_edad int_of_text.



Lemma map_categoria_edad_label code label :
  classify code = Ok label -> In label AGE_CATEGORY_ORDER.
Proof.
  assert (In DEFAULT_AGE_CATEGORY AGE_CATEGORY_ORDER) as Hd
    by (simpl; tauto).
  unfold classify, _map_categoria_edad.
  destruct (isna code); [intros H; injection H as <-; exact Hd |].
  destruct (py_int int_of_text code) as [z | []];
    [| intros H; injection H as <-; exact Hd | intros H; injection H as <-;
       exact Hd | discriminate].
  pose proof (dict_get_value z AGE_CATEGORY_LABELS DEFAULT_AGE_CATEGORY) as Hv.
  remember (dict_get z AGE_CATEGORY_LABELS DEFAULT_AGE_CATEGORY) as found.
  intros H. injection H as <-.
  destruct Hv as [-> | Hv]; [exact Hd |].
  apply in_map_iff in Hv as (kv & <- & Hkv).
  pose proof age_labels_in_order as Ha. rewrite Forall_forall in Ha.
  now apply Ha.
Qed.

(** A float that is infinite is neither null nor caught: the conversion
    raises [OverflowError]. *)
Remark map_categoria_edad_infinite negative :
  classify (PFloat (Infinite negative)) = Raise OverflowError.
Proof. reflexivity. Qed.

End AgeFacts.



(** ** Numeric codes *)

Lemma is_integral_integer q z : (q == inject_Z z)%Q -> is_integral q = true.
Proof.
  unfold Qeq, is_integral. simpl. intros H.
  apply Z.eqb_eq. rewrite Z.mul_1_r in H. rewrite H.
  apply Z_mod_mult.
Qed.

Lemma astype_Int64_integer q z :
  (q == inject_Z z)%Q ->
  astype_Int64 (Finite q) = astype_Int64 (Finite (inject_Z z)).
Proof.
  intros H. unfold astype_Int64.
  rewrite (is_integral_integer q z H).
  rewrite (is_integral_integer (inject_Z z) z (Qeq_refl _)).
  now rewrite (Qfloor_comp _ _ H).
Qed.

Section NormalizeFacts.

Variable numeric_of_text : string -> pyfloat.

Let normalize := normalize_value numeric_of_text.

(** A cell that is null or is text that is not a number becomes null. *)
Lemma normalize_value_coerced width x :
  to_numeric_coerce numeric_of_text x = NaN -> normalize width x = Ok None.
Proof.
  unfold normalize, normalize_value. intros ->. simpl.
  now destruct (width_given width).
Qed.

(** An integer of 64 bits becomes its decimal text, padded. *)
Lemma normalize_value_int width z :
  INT64_MIN <= z <= INT64_MAX ->
  exists code, normalize width (PInt z) = Ok (Some code).
Proof.
  intros Hz. unfold normalize, normalize_value.
  change (to_numeric_coerce numeric_of_text (PInt z))
    with (Finite (inject_Z z)).
  unfold astype_Int64.
  rewrite (is_integral_integer (inject_Z z) z (Qeq_refl _)), Qfloor_Z.
  assert ((INT64_MIN <=? z) = true) as -> by (apply Z.leb_le; lia).
  assert ((z <=? INT64_MAX) = true) as -> by (apply Z.leb_le; lia).
  simpl. destruct (width_given width); eexists; reflexivity.
Qed.

Lemma normalize_value_float width q z :
  float_of_integer q z ->
  normalize width (PFloat (Finite q)) = normalize width (PInt z).
Proof.
  intros H. unfold normalize, normalize_value.
  change (to_numeric_coerce numeric_of_text (PFloat (Finite q)))
    with (Finite q).
  change (to_numeric_coerce numeric_of_text (PInt z))
    with (Finite (inject_Z z)).
  now rewrite (astype_Int64_integer q z H).
Qed.

Lemma normalize_value_text width s z :
  reads_as numeric_of_text s z ->
  normalize width (PStr s) = normalize width (PInt z).
Proof.
  intros (q & Hs & Hq). unfold normalize, normalize_value.
  change (to_numeric_coerce numeric_of_text (PStr s))
    with (numeric_of_text s).
  change (to_numeric_coerce numeric_of_text (PInt z))
    with (Finite (inject_Z z)).
  now rewrite Hs, (astype_Int64_integer q z Hq).
Qed.

(** A number with a fraction makes the cast of the whole series raise. *)
Lemma normalize_value_fraction width q :
  is_integral q = false -> normalize width (PFloat (Finite q)) = Raise TypeError.
Proof.
  intros H. unfold normalize, normalize_value. simpl. now rewrite H.
Qed.

End NormalizeFacts.

(** C3, on the code: the normaliser raises on a numeric value that is not
    an integer.  A series that holds 12.5, alone or after a well-formed
    code and before a null, makes the cast to the nullable integers raise
    [TypeError], with or without a width. *)
Theorem C3_normalizer_raises_on_fraction :
  forall numeric_of_text width,
    _normalize_numeric_code numeric_of_text [PFloat (Finite (25 # 2))] width =
    Raise TypeError
    /\ _normalize_numeric_code numeric_of_text
         [PInt 12; PFloat (Finite (25 # 2)); PNone] width = Raise TypeError.
Proof.
  intros numeric_of_text width.
  unfold _normalize_numeric_code, normalize_value.
  split; destruct width as [w |]; try destruct (w =? 0) eqn:E;
    simpl; try rewrite E; reflexivity.
Qed.

(** C4. With width 5 the normaliser maps the integer 12, the float 12.0
    and the numeric text "12" to "00012", and the text "abc", which is not
    a number, to null; and whatever the width, an integer, the float of
    that integer and a text that denotes it have the same outcome. *)
Theorem C4_normalizer_representation_independent :
  forall numeric_of_text,
    reads_as numeric_of_text "12" 12 ->
    numeric_of_text "abc" = NaN ->
    _normalize_numeric_code numeric_of_text [PInt 12] (Some 5) =
      Ok [Some "00012"]
    /\ _normalize_numeric_code numeric_of_text [PFloat (Finite (12 # 1))]
         (Some 5) = Ok [Some "00012"]
    /\ _normalize_numeric_code numeric_of_text [PStr "12"] (Some 5) =
       Ok [Some "00012"]
    /\ _normalize_numeric_code numeric_of_text [PStr "abc"] (Some 5) =
       Ok [None]
    /\ (forall width z q s,
          float_of_integer q z ->
          reads_as numeric_of_text s z ->
          _normalize_numeric_code numeric_of_text [PFloat (Finite q)] width =
            _normalize_numeric_code numeric_of_text [PInt z] width
          /\ _normalize_numeric_code numeric_of_text [PStr s] width =
             _normalize_numeric_code numeric_of_text [PInt z] width).
Proof.
  intros numeric_of_text H12 Habc.
  assert (forall width z q s,
             float_of_integer q z ->
             reads_as numeric_of_text s z ->
             _normalize_numeric_code numeric_of_text [PFloat (Finite q)] width =
               _normalize_numeric_code numeric_of_text [PInt z] width
             /\ _normalize_numeric_code numeric_of_text [PStr s] width =
                _normalize_numeric_code numeric_of_text [PInt z] width) as Hsame.
  { intros width z q s Hq Hs. unfold _normalize_numeric_code. simpl.
    now rewrite (normalize_value_float numeric_of_text width q z Hq),
      (normalize_value_text numeric_of_text width s z Hs). }
  split; [reflexivity |]. split; [reflexivity |]. split.
  - destruct (Hsame (Some 5) 12 (12 # 1) "12" (Qeq_refl _) H12) as [_ ->].
    reflexivity.
  - split; [| exact Hsame].
    unfold _normalize_numeric_code. simpl.
    now rewrite (normalize_value_coerced numeric_of_text (Some 5) (PStr "abc")).
Qed.

Lemma C4_normalizer_representation_independent_witness :
  _normalize_numeric_code Sample.numeric_of_decimal
    [PStr "12"] (Some 5) = Ok [Some "00012"].
Proof.
  apply (C4_normalizer_representation_independent Sample.numeric_of_decimal).
  - exists (inject_Z 12). split; reflexivity.
  - reflexivity.
Defined.

(** ** Orders on the keys *)

Lemma Z_compare_order : comparison_order Z.compare.
Proof.
  split.
  - intros a b. apply Z.compare_eq_iff.
  - intros a b. apply Z.compare_antisym.
  - intros a b c. rewrite !Z.compare_lt_iff. lia.
Qed.

Lemma ascii_compare_lt_trans a b c :
  Ascii.compare a b = Lt -> Ascii.compare b c = Lt -> Ascii.compare a c = Lt.
Proof. unfold Ascii.compare. rewrite !N.compare_lt_iff. lia. Qed.

Lemma ascii_compare_refl a : Ascii.compare a a = Eq.
Proof. unfold Ascii.compare. apply N.compare_refl. Qed.

Lemma string_compare_refl s : String.compare s s = Eq.
Proof.
  induction s as [| c s IH]; simpl; [reflexivity |].
  now rewrite ascii_compare_refl.
Qed.

Lemma string_compare_lt_trans a b c :
  String.compare a b = Lt -> String.compare b c = Lt -> String.compare a c = Lt.
Proof.
  revert b c. induction a as [| x a IH]; intros [| y b] [| z c]; simpl;
    try discriminate; try reflexivity.
  destruct (Ascii.compare x y) eqn:Hxy; try discriminate;
    destruct (Ascii.compare y z) eqn:Hyz; try discriminate; intros H1 H2.
  - apply Ascii.compare_eq_iff in Hxy, Hyz. subst.
    rewrite ascii_compare_refl. now apply IH with b.
  - apply Ascii.compare_eq_iff in Hxy. subst. now rewrite Hyz.
  - apply Ascii.compare_eq_iff in Hyz. subst. now rewrite Hxy.
  - now rewrite (ascii_compare_lt_trans x y z).
Qed.

Lemma string_compare_order : comparison_order String.compare.
Proof.
  split.
  - intros a b. split; [apply String.compare_eq_iff |].
    intros ->. apply string_compare_refl.
  - apply String.compare_antisym.
  - apply string_compare_lt_trans.
Qed.

Lemma compare_na_order {K} (compare : K -> K -> comparison) :
  comparison_order compare -> comparison_order (compare_na compare).
Proof.
  intros [Heq Hopp Htrans]. split.
  - intros [a |] [b |]; simpl; try (split; [discriminate | congruence]);
      [| split; reflexivity].
    rewrite Heq. split; congruence.
  - intros [a |] [b |]; simpl; try reflexivity. apply Hopp.
  - intros [a |] [b |] [c |]; simpl; try discriminate; try reflexivity.
    apply Htrans.
Qed.

Lemma compare_pair_order {A B} (ca : A -> A -> comparison)
    (cb : B -> B -> comparison) :
  comparison_order ca -> comparison_order cb ->
  comparison_order (compare_pair ca cb).
Proof.
  intros [Haeq Haopp Hatrans] [Hbeq Hbopp Hbtrans]. split.
  - intros [a1 b1] [a2 b2]. unfold compare_pair. simpl.
    destruct (ca a1 a2) eqn:Ha.
    + apply Haeq in Ha. subst. rewrite Hbeq. split; congruence.
    + split; [discriminate |]. intros E. injection E as -> _.
      assert (ca a2 a2 = Eq) by now apply Haeq. congruence.
    + split; [discriminate |]. intros E. injection E as -> _.
      assert (ca a2 a2 = Eq) by now apply Haeq. congruence.
  - intros [a1 b1] [a2 b2]. unfold compare_pair. simpl.
    rewrite (Haopp a1 a2). destruct (ca a2 a1); simpl; try reflexivity.
    apply Hbopp.
  - intros [a1 b1] [a2 b2] [a3 b3]. unfold compare_pair. simpl.
    destruct (ca a1 a2) eqn:H12; try discriminate;
      destruct (ca a2 a3) eqn:H23; try discriminate; intros H1 H2.
    + apply Haeq in H12, H23. subst.
      assert (ca a3 a3 = Eq) as -> by now apply Haeq.
      now apply Hbtrans with b2.
    + apply Haeq in H12. subst. now rewrite H23.
    + apply Haeq in H23. subst. now rewrite H12.
    + now rewrite (Hatrans a1 a2 a3).
Qed.

Lemma compare_key2_order : comparison_order compare_key2.
Proof.
  apply compare_pair_order; apply compare_na_order, string_compare_order.
Qed.

Lemma same_key_eq {K} (compare : K -> K -> comparison) a b :
  comparison_order compare -> same_key compare a b = true <-> a = b.
Proof.
  intros [Heq _ _]. unfold same_key. rewrite <- Heq.
  destruct (compare a b); split; congruence.
Qed.

Lemma same_key_key2 col1 col2 k r :
  same_key compare_key2 k (col1 r, col2 r) = has_key2 col1 col2 k r.
Proof.
  unfold has_key2.
  destruct (same_key compare_key2 k (col1 r, col2 r)) eqn:E.
  - apply (same_key_eq _ _ _ compare_key2_order) in E. subst k. simpl.
    symmetry. apply andb_true_iff. split; now apply key_eqb_eq.
  - symmetry. apply not_true_is_false. intros H.
    apply andb_true_iff in H as [H1 H2]. apply key_eqb_eq in H1, H2.
    assert (k = (col1 r, col2 r)) as Hk by (destruct k; simpl in *; congruence).
    apply (same_key_eq _ _ _ compare_key2_order) in Hk. congruence.
Qed.

(** ** Exact counts of the groups *)

Section GroupByExact.

Context {K : Type} (compare : K -> K -> comparison).
Hypothesis order : comparison_order compare.

Let key_lt (g h : counted K) : Prop := compare (group g) (group h) = Lt.

Lemma same_key_refl k : same_key compare k k = true.
Proof. now apply same_key_eq. Qed.

Lemma same_key_Lt a b : compare a b = Lt -> same_key compare a b = false.
Proof. unfold same_key. now intros ->. Qed.

Lemma same_key_Gt a b : compare a b = Gt -> same_key compare a b = false.
Proof. unfold same_key. now intros ->. Qed.

Lemma deaths_of_add k k' groups :
  deaths_of compare k (add_to_group compare k' groups) =
  ((if same_key compare k k' then 1 else 0) + deaths_of compare k groups)%nat.
Proof.
  induction groups as [| g groups IH]; simpl; [lia |].
  destruct (compare k' (group g)) eqn:E; simpl.
  - apply (compare_eq compare order) in E. subst k'.
    destruct (same_key compare k (group g)); lia.
  - lia.
  - rewrite IH. lia.
Qed.

Lemma deaths_of_groupby k keys :
  deaths_of compare k (groupby_size compare keys) = occurrences compare k keys.
Proof.
  unfold groupby_size, occurrences.
  assert (forall groups,
             deaths_of compare k (fold_left (fun groups k => add_to_group compare k groups)
                                    keys groups) =
             (List.length (filter (same_key compare k) keys)
              + deaths_of compare k groups)%nat) as H.
  { induction keys as [| k' keys IH]; intros groups; simpl; [reflexivity |].
    rewrite IH, deaths_of_add.
    destruct (same_key compare k k'); simpl; lia. }
  rewrite H. simpl. lia.
Qed.

Lemma add_to_group_sorted k groups :
  StronglySorted key_lt groups ->
  StronglySorted key_lt (add_to_group compare k groups).
Proof.
  induction 1 as [| g groups Hs IH Hg]; simpl.
  - constructor; constructor.
  - destruct (compare k (group g)) eqn:E.
    + constructor; [assumption |]. exact Hg.
    + constructor; [now constructor |].
      constructor; [exact E |].
      eapply Forall_impl; [| exact Hg]. intros h Hh.
      unfold key_lt in *. simpl.
      now apply (compare_lt_trans compare order) with (group g).
    + constructor; [assumption |].
      apply Forall_forall. intros h Hh.
      assert (Forall (fun h => key_lt g h) (add_to_group compare k groups)) as F.
      { apply add_to_group_inv.
        - unfold key_lt. simpl.
          rewrite (compare_opp compare order), E. reflexivity.
        - intros h0 H0. exact H0.
        - exact Hg. }
      rewrite Forall_forall in F. now apply F.
Qed.

Lemma groupby_size_sorted keys :
  StronglySorted key_lt (groupby_size compare keys).
Proof.
  unfold groupby_size.
  assert (forall groups, StronglySorted key_lt groups ->
            StronglySorted key_lt
              (fold_left (fun groups k => add_to_group compare k groups)
                         keys groups)) as H.
  { induction keys as [| k keys IH]; intros groups Hg; simpl; [assumption |].
    apply IH. now apply add_to_group_sorted. }
  apply H. constructor.
Qed.

Lemma deaths_of_sorted groups :
  StronglySorted key_lt groups ->
  forall g, In g groups -> deaths_of compare (group g) groups = muertes g.
Proof.
  induction 1 as [| h groups Hs IH Hh]; intros g Hg; [contradiction |].
  simpl. rewrite Forall_forall in Hh. destruct Hg as [-> | Hg].
  - rewrite same_key_refl.
    assert (deaths_of compare (group g) groups = 0%nat) as ->; [| lia].
    clear IH Hs. induction groups as [| h groups IH]; simpl; [reflexivity |].
    rewrite same_key_Lt by (apply Hh; now left).
    rewrite IH; [reflexivity |]. intros x Hx. apply Hh. now right.
  - rewrite same_key_Gt.
    + now rewrite IH.
    + rewrite (compare_opp compare order).
      specialize (Hh g Hg). unfold key_lt in Hh. now rewrite Hh.
Qed.

(** Each group counts the keys of the column that are its key. *)
Lemma groupby_size_exact keys g :
  In g (groupby_size compare keys) ->
  muertes g = occurrences compare (group g) keys.
Proof.
  intros Hg. rewrite <- deaths_of_groupby.
  symmetry. apply deaths_of_sorted; [apply groupby_size_sorted | assumption].
Qed.

Lemma deaths_of_positive k groups :
  (0 < deaths_of compare k groups)%nat ->
  exists g, In g groups /\ group g = k.
Proof.
  induction groups as [| g groups IH]; simpl; [lia |].
  destruct (same_key compare k (group g)) eqn:E.
  - intros _. exists g. split; [now left |].
    symmetry. now apply (same_key_eq compare).
  - intros H. destruct IH as (h & Hh & Hk); [lia |].
    exists h. split; [now right | assumption].
Qed.

(** Each key of the column has its group. *)
Lemma groupby_size_complete keys k :
  In k keys -> exists g, In g (groupby_size compare keys) /\ group g = k.
Proof.
  intros Hk. apply deaths_of_positive. rewrite deaths_of_groupby.
  unfold occurrences.
  assert (In k (filter (same_key compare k) keys)) as H.
  { apply filter_In. split; [assumption | apply same_key_refl]. }
  destruct (filter (same_key compare k) keys); [contradiction | simpl; lia].
Qed.

End GroupByExact.

Lemma occurrences_map {K} (compare : K -> K -> comparison)
    (key : row -> K) k df :
  occurrences compare k (map key df) =
  count_rows (fun r => same_key compare k (key r)) df.
Proof.
  unfold occurrences, count_rows.
  induction df as [| r df IH]; simpl; [reflexivity |].
  destruct (same_key compare k (key r)); simpl; now rewrite IH.
Qed.

Lemma count_rows_ext f g df :
  (forall r, f r = g r) -> count_rows f df = count_rows g df.
Proof.
  intros H. unfold count_rows. now rewrite (filter_ext f g H).
Qed.

(** ** Ranked views *)

Lemma StronglySorted_app_rel {A} (R : A -> A -> Prop) l1 l2 :
  StronglySorted R (l1 ++ l2) ->
  forall a b, In a l1 -> In b l2 -> R a b.
Proof.
  induction l1 as [| x l1 IH]; simpl; intros H a b Ha Hb; [contradiction |].
  apply StronglySorted_inv in H as [Hs Hx].
  destruct Ha as [<- | Ha].
  - rewrite Forall_forall in Hx. apply Hx. apply in_or_app. now right.
  - now apply IH.
Qed.

(** A row of a ranked list is in its head, or the head is full and every
    row of the head is ranked before it. *)
Lemma head_or_outranked {A} (R : A -> A -> Prop) n l x :
  StronglySorted R l -> In x l ->
  In x (head n l)
  \/ (List.length (head n l) = n /\ forall a, In a (head n l) -> R a x).
Proof.
  unfold head. intros Hs Hx.
  rewrite <- (firstn_skipn n l) in Hx, Hs.
  apply in_app_or in Hx as [Hx | Hx]; [now left | right].
  split.
  - apply firstn_length_le.
    destruct (Nat.le_gt_cases n (List.length l)) as [H | H]; [assumption |].
    rewrite skipn_all2 in Hx by lia. contradiction.
  - intros a Ha. now apply (StronglySorted_app_rel R _ _ Hs).
Qed.

Lemma sort_values_sorted_id {A} (before : A -> A -> bool) l :
  StronglySorted (fun a b => before a b = true) l -> sort_values before l = l.
Proof.
  induction 1 as [| x l Hs IH Hx]; simpl; [reflexivity |].
  rewrite IH. destruct l as [| y l]; simpl; [reflexivity |].
  apply Forall_inv in Hx. now rewrite Hx.
Qed.

Lemma In_map_group {K K'} (f : K -> K') g (groups : list (counted K)) :
  In g (map (map_group f) groups) <->
  exists g0, In g0 groups /\ group g = f (group g0) /\ muertes g = muertes g0.
Proof.
  rewrite in_map_iff. split.
  - intros (g0 & <- & H). now exists g0.
  - intros (g0 & H & Hk & Hm). exists g0. split; [| assumption].
    destruct g as [k m]. simpl in *. subst. reflexivity.
Qed.

Lemma total_map_group {K K'} (f : K -> K') (groups : list (counted K)) :
  total_muertes (map (map_group f) groups) = total_muertes groups.
Proof.
  induction groups as [| g groups IH]; simpl; [reflexivity | now rewrite IH].
Qed.

(** *** The monthly series *)

Lemma occurrences_months m (df : list row) :
  occurrences Z.compare m (dropna (map MES df)) = count_rows (month_is m) df.
Proof.
  unfold occurrences, count_rows, month_is.
  induction df as [| r df IH]; simpl; [reflexivity |].
  destruct (MES r) as [x |]; simpl; [| assumption].
  unfold same_key at 1. rewrite Z.eqb_sym.
  destruct (Z.eqb_spec m x) as [-> | Hne].
  - rewrite Z.compare_refl. simpl. now rewrite IH.
  - destruct (m ?= x) eqn:E; try assumption.
    apply Z.compare_eq_iff in E. contradiction.
Qed.

Lemma In_dropna {V} (v : V) (keys : list (option V)) :
  In v (dropna keys) <-> In (Some v) keys.
Proof.
  unfold dropna. rewrite in_flat_map. split.
  - intros ([x |] & Hin & Hx); simpl in Hx; [| contradiction].
    destruct Hx as [<- | []]. assumption.
  - intros H. exists (Some v). split; [assumption | now left].
Qed.

Lemma series_mensuales_groups df sexo departamento edad :
  get_series_mensuales df sexo departamento edad =
  groupby_size Z.compare
    (dropna (map MES (_apply_filters df sexo departamento edad))).
Proof.
  unfold get_series_mensuales; cbv zeta.
  apply sort_values_sorted_id.
  eapply StronglySorted_weaken;
    [| apply (groupby_size_sorted Z.compare Z_compare_order)].
  intros a b H. simpl in H. apply Z.leb_le.
  apply Z.lt_le_incl. exact H.
Qed.

(** X1. In the monthly series the months come in strictly increasing
    order, each once; the count of a month is the number of rows that pass
    the filters and have that month, never zero; and every month of such a
    row has its row in the series. *)
Theorem X1_series_mensuales_exact :
  forall df sexo departamento edad,
    let filtered := _apply_filters df sexo departamento edad in
    let out := get_series_mensuales df sexo departamento edad in
    StronglySorted (fun a b => group a < group b) out
    /\ (forall g, In g out ->
          muertes g = count_rows (month_is (group g)) filtered
          /\ (0 < muertes g)%nat)
    /\ (forall r m, In r filtered -> MES r = Some m ->
          exists g, In g out /\ group g = m).
Proof.
  intros df sexo departamento edad filtered out.
  unfold out. rewrite series_mensuales_groups. fold filtered.
  split; [| split].
  - eapply StronglySorted_weaken;
      [| apply (groupby_size_sorted Z.compare Z_compare_order)].
    intros a b H. exact H.
  - intros g Hg. split.
    + rewrite (groupby_size_exact Z.compare Z_compare_order _ _ Hg).
      apply occurrences_months.
    + pose proof (groupby_size_counts_rows Z.compare
                    (dropna (map MES filtered))) as H.
      rewrite Forall_forall in H. now apply H.
  - intros r m Hr Hm.
    apply (groupby_size_complete Z.compare Z_compare_order).
    apply In_dropna. rewrite <- Hm. now apply in_map.
Qed.

(** *** Views grouped by two columns *)

Lemma In_head {A} n (l : list A) x : In x (head n l) -> In x l.
Proof.
  unfold head. intros H. rewrite <- (firstn_skipn n l).
  apply in_or_app. now left.
Qed.

Section Key2.

Variables col1 col2 : row -> option string.
Variable df : list row.

Let keys := map (fun r => (col1 r, col2 r)) df.

Lemma groupby_key2_exact g :
  In g (groupby_size compare_key2 keys) ->
  muertes g = count_rows (has_key2 col1 col2 (group g)) df
  /\ (0 < muertes g)%nat.
Proof.
  intros Hg. split.
  - rewrite (groupby_size_exact compare_key2 compare_key2_order _ _ Hg).
    unfold keys. rewrite occurrences_map.
    apply count_rows_ext. intros r. apply same_key_key2.
  - pose proof (groupby_size_counts_rows compare_key2 keys) as H.
    rewrite Forall_forall in H. now apply H.
Qed.

Lemma groupby_key2_complete r :
  In r df ->
  exists g, In g (groupby_size compare_key2 keys)
            /\ group g = (col1 r, col2 r).
Proof.
  intros Hr. apply (groupby_size_complete compare_key2 compare_key2_order).
  unfold keys. apply in_map_iff. now exists r.
Qed.

End Key2.

(** X2. Each row of the top-10-causes view stands for one pair of cause
    code and description, nulls replaced by their captions, and its count
    is the number of rows that pass the filters and have that pair, never
    zero.  The view keeps the largest counts: the pair of any row that
    passes the filters is in the view with its count, or the view has 10
    rows and none of them has a smaller count. *)
Theorem X2_top10_causas_exact :
  forall df sexo departamento edad,
    let filtered := _apply_filters df sexo departamento edad in
    let out := get_top10_causas df sexo departamento edad in
    let caption k :=
      (fillna "Sin código" (fst k),
       fillna "Descripción no disponible" (snd k)) in
    let deaths k :=
      count_rows (has_key2 COD_MUERTE DESCRIPCION_COD_MUERTE k) filtered in
    (forall g, In g out ->
       exists k, group g = caption k /\ muertes g = deaths k
                 /\ (0 < muertes g)%nat)
    /\ (forall r, In r filtered ->
          let k := (COD_MUERTE r, DESCRIPCION_COD_MUERTE r) in
          (exists g, In g out /\ group g = caption k /\ muertes g = deaths k)
          \/ (List.length out = 10%nat
              /\ forall g, In g out -> (deaths k <= muertes g)%nat)).
Proof.
  intros df sexo departamento edad filtered out caption deaths.
  unfold out, get_top10_causas; cbv zeta. fold filtered.
  set (groups := groupby_size compare_key2
                   (map (fun r => (COD_MUERTE r, DESCRIPCION_COD_MUERTE r))
                        filtered)).
  set (ranked := sort_values descending _).
  assert (forall g, In g ranked <->
            exists g0, In g0 groups /\ group g = caption (group g0)
                       /\ muertes g = muertes g0) as Hranked.
  { intros g. unfold ranked. rewrite sort_values_In, In_map_group. split.
    - intros (g1 & Hg1 & Hk & Hm).
      apply In_map_group in Hg1 as (g0 & Hg0 & Hk0 & Hm0).
      exists g0. split; [assumption |]. split; [| congruence].
      rewrite Hk, Hk0. reflexivity.
    - intros (g0 & Hg0 & Hk & Hm).
      exists (map_group
                (fun k => (fst k, fillna "Descripción no disponible" (snd k)))
                g0).
      split; [now apply in_map |]. split; [exact Hk | exact Hm]. }
  split.
  - intros g Hg. apply In_head, Hranked in Hg as (g0 & Hg0 & Hk & Hm).
    destruct (groupby_key2_exact _ _ _ _ Hg0) as [Hc Hp].
    exists (group g0). unfold deaths. rewrite Hm. now repeat split.
  - intros r Hr. set (k := (COD_MUERTE r, DESCRIPCION_COD_MUERTE r)).
    destruct (groupby_key2_complete COD_MUERTE DESCRIPCION_COD_MUERTE
                filtered r Hr) as (g0 & Hg0 & Hk0).
    destruct (groupby_key2_exact _ _ _ _ Hg0) as [Hc _].
    fold groups in Hg0. rewrite Hk0 in Hc. fold k in Hc, Hk0.
    set (x := Counted (caption k) (muertes g0)).
    assert (In x ranked) as Hx.
    { apply Hranked. exists g0. simpl. rewrite Hk0. now repeat split. }
    destruct (head_or_outranked _ 10 ranked x (sorted_descending _) Hx)
      as [H | [Hlen Hall]].
    + left. exists x. simpl. now repeat split.
    + right. split; [exact Hlen |].
      intros g Hg. unfold deaths. rewrite <- Hc. now apply (Hall g).
Qed.

Lemma filter_map_group {K K'} (f : K -> K') (q : counted K' -> bool)
    (groups : list (counted K)) :
  filter q (map (map_group f) groups) =
  map (map_group f) (filter (fun g => q (map_group f g)) groups).
Proof.
  induction groups as [| g groups IH]; simpl; [reflexivity |].
  destruct (q (map_group f g)); simpl; now rewrite IH.
Qed.

Section TotalOfFilteredGroups.

Context {K : Type} (compare : K -> K -> comparison).
Hypothesis order : comparison_order compare.
Variable p : K -> bool.

Lemma total_filter_add k groups :
  total_muertes (filter (fun g => p (group g)) (add_to_group compare k groups)) =
  ((if p k then 1 else 0)
   + total_muertes (filter (fun g => p (group g)) groups))%nat.
Proof.
  induction groups as [| g groups IH]; simpl.
  - destruct (p k); reflexivity.
  - destruct (compare k (group g)) eqn:E; simpl.
    + apply (compare_eq compare order) in E. subst k.
      destruct (p (group g)); simpl; lia.
    + destruct (p k), (p (group g)); simpl; lia.
    + destruct (p (group g)); simpl; rewrite IH; lia.
Qed.

Lemma total_filter_groupby keys :
  total_muertes (filter (fun g => p (group g)) (groupby_size compare keys)) =
  List.length (filter p keys).
Proof.
  unfold groupby_size.
  assert (forall groups,
             total_muertes
               (filter (fun g => p (group g))
                  (fold_left (fun groups k => add_to_group compare k groups)
                             keys groups)) =
             (List.length (filter p keys)
              + total_muertes (filter (fun g => p (group g)) groups))%nat) as H.
  { induction keys as [| k keys IH]; intros groups; simpl; [reflexivity |].
    rewrite IH, total_filter_add. destruct (p k); simpl; lia. }
  rewrite H. simpl. lia.
Qed.

End TotalOfFilteredGroups.

(** *** Views by municipality *)

Section LocationViews.

Variable src : list row.

Let groups :=
  groupby_size compare_key2 (map (fun r => (MUNICIPIO r, DEPARTAMENTO r)) src).
Let caption (k : option string * option string) :=
  (fst k, fillna "SIN REGISTRO" (snd k)).
Let deaths k := count_rows (has_key2 MUNICIPIO DEPARTAMENTO k) src.

Variable q : counted (option string * option string) -> bool.
Hypothesis q_spec :
  forall g, In g groups -> q g = notna (fst (group g)).

Let listed := map (map_group caption) (filter q groups).

Lemma location_listed g :
  In g listed ->
  exists k, fst k <> None /\ group g = caption k
            /\ muertes g = deaths k /\ (0 < muertes g)%nat.
Proof.
  unfold listed. rewrite In_map_group. intros (g0 & Hg0 & Hk & Hm).
  apply filter_In in Hg0 as [Hg0 Hq]. rewrite (q_spec g0 Hg0) in Hq.
  destruct (groupby_key2_exact MUNICIPIO DEPARTAMENTO src g0 Hg0) as [Hc Hp].
  exists (group g0). unfold deaths. rewrite Hm.
  repeat split; try assumption.
  destruct (fst (group g0)); [discriminate | discriminate].
Qed.

Lemma location_listed_complete r :
  In r src -> MUNICIPIO r <> None ->
  In (Counted (caption (MUNICIPIO r, DEPARTAMENTO r))
              (deaths (MUNICIPIO r, DEPARTAMENTO r))) listed.
Proof.
  intros Hr Hmun.
  destruct (groupby_key2_complete MUNICIPIO DEPARTAMENTO src r Hr)
    as (g0 & Hg0 & Hk0).
  destruct (groupby_key2_exact MUNICIPIO DEPARTAMENTO src g0 Hg0) as [Hc _].
  rewrite Hk0 in Hc.
  unfold listed. apply In_map_group. exists g0. simpl.
  split; [| split; [now rewrite Hk0 | unfold deaths; now rewrite Hc]].
  apply filter_In. split; [assumption |].
  rewrite (q_spec g0 Hg0), Hk0. simpl.
  destruct (MUNICIPIO r); [reflexivity | contradiction].
Qed.

(** What holds of the first [n] rows in the order [before]. *)
Lemma location_head (before : counted (option string * string) ->
                              counted (option string * string) -> bool)
    (R : counted (option string * string) ->
         counted (option string * string) -> Prop) n :
  (forall l, StronglySorted R (sort_values before l)) ->
  let out := head n (sort_values before listed) in
  (forall g, In g out ->
     exists k, fst k <> None /\ group g = caption k
               /\ muertes g = deaths k /\ (0 < muertes g)%nat)
  /\ (List.length out <= n)%nat
  /\ StronglySorted R out
  /\ (forall r, In r src -> MUNICIPIO r <> None ->
        let x := Counted (caption (MUNICIPIO r, DEPARTAMENTO r))
                         (deaths (MUNICIPIO r, DEPARTAMENTO r)) in
        In x out
        \/ (List.length out = n /\ forall g, In g out -> R g x)).
Proof.
  intros Hsorted out. split; [| split; [| split]].
  - intros g Hg. apply In_head, sort_values_In in Hg.
    now apply location_listed.
  - apply firstn_le_length.
  - apply StronglySorted_head, Hsorted.
  - intros r Hr Hmun x.
    apply head_or_outranked; [apply Hsorted |].
    apply sort_values_In. now apply location_listed_complete.
Qed.

End LocationViews.

(** X3. Each row of the top-5-violent-cities view stands for one pair of
    municipality and department, the municipality not null, and its count
    is the number of homicide rows that pass the filters and have that
    pair.  The view has at most 5 rows, largest count first, and keeps the
    largest counts: the pair of a homicide row with a municipality is in
    the view with its count, or the view has 5 rows and none of them has a
    smaller count. *)
Theorem X3_top5_ciudades_violentas_exact :
  forall df sexo departamento edad,
    let violentas :=
      _filter_homicidios (_apply_filters df sexo departamento edad) in
    let out := get_top5_ciudades_violentas df sexo departamento edad in
    let caption (k : option string * option string) :=
      (fst k, fillna "SIN REGISTRO" (snd k)) in
    let deaths k := count_rows (has_key2 MUNICIPIO DEPARTAMENTO k) violentas in
    (forall g, In g out ->
       exists k, fst k <> None /\ group g = caption k
                 /\ muertes g = deaths k /\ (0 < muertes g)%nat)
    /\ (List.length out <= 5)%nat
    /\ StronglySorted (fun a b => (muertes b <= muertes a)%nat) out
    /\ (forall r, In r violentas -> MUNICIPIO r <> None ->
          let k := (MUNICIPIO r, DEPARTAMENTO r) in
          In (Counted (caption k) (deaths k)) out
          \/ (List.length out = 5%nat
              /\ forall g, In g out -> (deaths k <= muertes g)%nat)).
Proof.
  intros df sexo departamento edad violentas out caption deaths.
  apply (location_head violentas (fun g => notna (fst (group g)))
           (fun g _ => eq_refl) descending
           (fun a b => (muertes b <= muertes a)%nat) 5).
  intros l. apply sorted_descending.
Qed.

(** X4. Each row of the bottom-10-low-mortality-cities view stands for one
    pair of municipality and department and its count is the number of
    rows that pass the filters and have that pair.  The view keeps the
    smallest counts: the pair of a row with a municipality is in the view
    with its count, or the view has 10 rows and none of them has a larger
    count. *)
Theorem X4_bottom10_ciudades_exact :
  forall df sexo departamento edad,
    let filtered := _apply_filters df sexo departamento edad in
    let out := get_bottom10_ciudades_menos_muertes df sexo departamento edad in
    let caption (k : option string * option string) :=
      (fst k, fillna "SIN REGISTRO" (snd k)) in
    let deaths k := count_rows (has_key2 MUNICIPIO DEPARTAMENTO k) filtered in
    (forall g, In g out ->
       exists k, fst k <> None /\ group g = caption k
                 /\ muertes g = deaths k /\ (0 < muertes g)%nat)
    /\ (List.length out <= 10)%nat
    /\ StronglySorted (fun a b => (muertes a <= muertes b)%nat) out
    /\ (forall r, In r filtered -> MUNICIPIO r <> None ->
          let k := (MUNICIPIO r, DEPARTAMENTO r) in
          In (Counted (caption k) (deaths k)) out
          \/ (List.length out = 10%nat
              /\ forall g, In g out -> (muertes g <= deaths k)%nat)).
Proof.
  intros df sexo departamento edad filtered out caption deaths.
  apply (location_head filtered
           (fun g => notna (fst (group g)) && (0 <? muertes g)%nat)).
  - intros g Hg.
    destruct (groupby_key2_exact MUNICIPIO DEPARTAMENTO filtered g Hg)
      as [_ Hp].
    apply Nat.ltb_lt in Hp. rewrite Hp. apply andb_true_r.
  - intros l. apply sorted_ascending.
Qed.

(** *** Views by department *)

(** X5. Each row of the stacked-bars-by-sex view stands for one pair of
    department and sex description, nulls replaced by their captions,
    and its count is the number of rows that pass the filters and have that
    pair; every such pair has its row; the counts add up to the number of
    rows that pass the filters; and the rows come largest count first. *)
Theorem X5_barras_apiladas_sexo_exact :
  forall df sexo departamento edad,
    let filtered := _apply_filters df sexo departamento edad in
    let out := get_barras_apiladas_sexo df sexo departamento edad in
    let caption k :=
      (fillna "SIN REGISTRO" (fst k), fillna "Sin información" (snd k)) in
    let deaths k := count_rows (has_key2 DEPARTAMENTO SEXO_DESC k) filtered in
    (forall g, In g out ->
       exists k, group g = caption k /\ muertes g = deaths k
                 /\ (0 < muertes g)%nat)
    /\ (forall r, In r filtered ->
          let k := (DEPARTAMENTO r, SEXO_DESC r) in
          In (Counted (caption k) (deaths k)) out)
    /\ total_muertes out = List.length filtered
    /\ StronglySorted (fun a b => (muertes b <= muertes a)%nat) out.
Proof.
  intros df sexo departamento edad filtered out caption deaths.
  unfold out, get_barras_apiladas_sexo; cbv zeta. fold filtered.
  set (groups := groupby_size compare_key2
                   (map (fun r => (DEPARTAMENTO r, SEXO_DESC r)) filtered)).
  assert (forall g,
            In g (map (map_group
                         (fun k => (fst k, fillna "Sin información" (snd k))))
                    (map (map_group
                            (fun k => (fillna "SIN REGISTRO" (fst k), snd k)))
                         groups)) <->
            exists g0, In g0 groups /\ group g = caption (group g0)
                       /\ muertes g = muertes g0) as Hlisted.
  { intros g. rewrite In_map_group. split.
    - intros (g1 & Hg1 & Hk & Hm).
      apply In_map_group in Hg1 as (g0 & Hg0 & Hk0 & Hm0).
      exists g0. split; [assumption |]. split; [| congruence].
      rewrite Hk, Hk0. reflexivity.
    - intros (g0 & Hg0 & Hk & Hm).
      exists (map_group (fun k => (fillna "SIN REGISTRO" (fst k), snd k)) g0).
      split; [now apply in_map |]. split; [exact Hk | exact Hm]. }
  split; [| split; [| split]].
  - intros g Hg. apply sort_values_In, Hlisted in Hg as (g0 & Hg0 & Hk & Hm).
    destruct (groupby_key2_exact _ _ _ _ Hg0) as [Hc Hp].
    exists (group g0). unfold deaths. rewrite Hm. now repeat split.
  - intros r Hr. set (k := (DEPARTAMENTO r, SEXO_DESC r)).
    destruct (groupby_key2_complete DEPARTAMENTO SEXO_DESC filtered r Hr)
      as (g0 & Hg0 & Hk0).
    destruct (groupby_key2_exact _ _ _ _ Hg0) as [Hc _].
    rewrite Hk0 in Hc. fold k in Hc, Hk0.
    apply sort_values_In, Hlisted. exists g0. simpl.
    rewrite Hk0. now repeat split.
  - rewrite total_sort_values, !total_map_group.
    unfold groups. rewrite total_groupby_size. apply length_map.
  - apply sorted_descending.
Qed.

(** X7. Each row of the map-by-department view stands for one pair of
    department code and name, the code not null, and its count is the
    number of rows that pass the filters, the manner-of-death filter
    included, and have that pair; every such pair with a code has its row;
    the counts add up to the number of those rows that have a department
    code; and the rows come largest count first. *)
Theorem X7_mapa_departamentos_exact :
  forall df sexo departamento edad manera,
    let selected :=
      _filter_by_manera (_apply_filters df sexo departamento edad) manera in
    let out := get_mapa_departamentos df sexo departamento edad manera in
    let caption (k : option string * option string) :=
      (fst k, fillna "SIN REGISTRO" (snd k)) in
    let deaths k :=
      count_rows (has_key2 COD_DEPARTAMENTO DEPARTAMENTO k) selected in
    (forall g, In g out ->
       exists k, fst k <> None /\ group g = caption k
                 /\ muertes g = deaths k /\ (0 < muertes g)%nat)
    /\ (forall r, In r selected -> COD_DEPARTAMENTO r <> None ->
          let k := (COD_DEPARTAMENTO r, DEPARTAMENTO r) in
          In (Counted (caption k) (deaths k)) out)
    /\ total_muertes out =
       count_rows (fun r => notna (COD_DEPARTAMENTO r)) selected
    /\ StronglySorted (fun a b => (muertes b <= muertes a)%nat) out.
Proof.
  intros df sexo departamento edad manera selected out caption deaths.
  unfold out, get_mapa_departamentos; cbv zeta. fold selected.
  set (groups := groupby_size compare_key2
                   (map (fun r => (COD_DEPARTAMENTO r, DEPARTAMENTO r))
                        selected)).
  rewrite filter_map_group. simpl.
  split; [| split; [| split]].
  - intros g Hg. apply sort_values_In, In_map_group in Hg
      as (g0 & Hg0 & Hk & Hm).
    apply filter_In in Hg0 as [Hg0 Hq].
    destruct (groupby_key2_exact _ _ _ _ Hg0) as [Hc Hp].
    exists (group g0). unfold deaths. rewrite Hm.
    repeat split; try assumption.
    destruct (fst (group g0)); [discriminate | discriminate].
  - intros r Hr Hcode. set (k := (COD_DEPARTAMENTO r, DEPARTAMENTO r)).
    destruct (groupby_key2_complete COD_DEPARTAMENTO DEPARTAMENTO selected
                r Hr) as (g0 & Hg0 & Hk0).
    destruct (groupby_key2_exact _ _ _ _ Hg0) as [Hc _].
    rewrite Hk0 in Hc. fold k in Hc, Hk0.
    apply sort_values_In, In_map_group. exists g0. simpl.
    split; [| split; [now rewrite Hk0 | symmetry; exact Hc]].
    apply filter_In. split; [assumption |]. rewrite Hk0. simpl.
    destruct (COD_DEPARTAMENTO r); [reflexivity | contradiction].
  - rewrite total_sort_values, total_map_group.
    unfold groups.
    rewrite (total_filter_groupby compare_key2 compare_key2_order
               (fun k => notna (fst k))).
    unfold count_rows. clear.
    induction selected as [| r l IH]; simpl; [reflexivity |].
    destruct (COD_DEPARTAMENTO r); simpl; now rewrite IH.
  - apply sorted_descending.
Qed.

(** *** The age histogram *)

Lemma same_key_na k v :
  same_key (compare_na String.compare) k v = key_eqb v k.
Proof.
  pose proof (same_key_eq (compare_na String.compare) k v
                (compare_na_order _ string_compare_order)) as H.
  pose proof (key_eqb_eq v k) as H'.
  destruct (same_key (compare_na String.compare) k v), (key_eqb v k);
    try reflexivity.
  - assert (v = k) as E by (symmetry; now apply H). apply H' in E. discriminate.
  - assert (k = v) as E by (symmetry; now apply H'). apply H in E. discriminate.
Qed.

Lemma category_before_total a b :
  category_before a b = false -> category_before b a = true.
Proof.
  unfold category_before.
  destruct (category_code (group a)), (category_code (group b));
    try reflexivity; try discriminate.
  intros H. apply Nat.leb_gt in H. apply Nat.leb_le. lia.
Qed.

Lemma category_before_trans a b c :
  category_before a b = true -> category_before b c = true ->
  category_before a c = true.
Proof.
  unfold category_before.
  destruct (category_code (group a)), (category_code (group b)),
    (category_code (group c)); try reflexivity; try discriminate.
  intros H1 H2. apply Nat.leb_le in H1, H2. apply Nat.leb_le. lia.
Qed.

Lemma index_of_In s l :
  In s l -> exists i, index_of s l = Some i.
Proof.
  induction l as [| c l IH]; simpl; [contradiction |].
  destruct (String.eqb_spec s c) as [-> | Hne]; [now exists O |].
  intros [-> | H]; [contradiction |].
  destruct (IH H) as (i & ->). now exists (S i).
Qed.

Lemma index_of_bound s l i : index_of s l = Some i -> (i < List.length l)%nat.
Proof.
  revert i. induction l as [| c l IH]; simpl; intros i; [discriminate |].
  destruct (s =? c)%string.
  - intros H. injection H as <-. lia.
  - destruct (index_of s l) as [j |]; simpl; [| discriminate].
    intros H. injection H as <-. specialize (IH j eq_refl). lia.
Qed.

Lemma index_of_inj s t l i :
  index_of s l = Some i -> index_of t l = Some i -> s = t.
Proof.
  revert i. induction l as [| c l IH]; simpl; intros i; [discriminate |].
  destruct (String.eqb_spec s c) as [-> | Hs],
           (String.eqb_spec t c) as [-> | Ht].
  - reflexivity.
  - intros H. injection H as <-.
    destruct (index_of t l); simpl; discriminate.
  - destruct (index_of s l); simpl; [| discriminate].
    intros H1 H2. injection H2 as <-. discriminate.
  - destruct (index_of s l) as [j |]; simpl; [| discriminate].
    destruct (index_of t l) as [j' |]; simpl; [| discriminate].
    intros H1 H2. injection H1 as <-. injection H2 as E.
    apply (IH j); [reflexivity | now rewrite E].
Qed.

Lemma as_category_label label :
  In label AGE_CATEGORY_ORDER -> as_category (Some label) = Some label.
Proof.
  intros H. unfold as_category.
  assert (existsb (String.eqb label) AGE_CATEGORY_ORDER = true) as ->;
    [| reflexivity].
  apply existsb_exists. exists label. split; [assumption |].
  apply String.eqb_refl.
Qed.

Section SortKeepsDistinct.

Context {A B : Type} (before : A -> A -> bool) (f : A -> B).

Lemma In_map_insert_sorted x l y :
  In y (map f (insert_sorted before x l)) <-> y = f x \/ In y (map f l).
Proof.
  rewrite !in_map_iff. split.
  - intros (a & <- & Ha). apply insert_sorted_In in Ha as [-> | Ha];
      [now left | right; now exists a].
  - intros [-> | (a & <- & Ha)].
    + exists x. split; [reflexivity |]. apply insert_sorted_In. now left.
    + exists a. split; [reflexivity |]. apply insert_sorted_In. now right.
Qed.

Lemma NoDup_map_insert_sorted x l :
  ~ In (f x) (map f l) -> NoDup (map f l) ->
  NoDup (map f (insert_sorted before x l)).
Proof.
  induction l as [| y l IH]; simpl; intros Hx Hl.
  - constructor; [easy | constructor].
  - destruct (before x y); simpl.
    + constructor; assumption.
    + apply NoDup_cons_iff in Hl as [Hy Hl]. constructor.
      * rewrite In_map_insert_sorted. intros [E | H]; [| contradiction].
        apply Hx. left. now symmetry.
      * apply IH; [| assumption]. intros H. apply Hx. now right.
Qed.

Lemma NoDup_map_sort_values l :
  NoDup (map f l) -> NoDup (map f (sort_values before l)).
Proof.
  induction l as [| x l IH]; simpl; [trivial |].
  intros H. apply NoDup_cons_iff in H as [Hx Hl].
  apply NoDup_map_insert_sorted; [| now apply IH].
  intros H. apply Hx. apply in_map_iff in H as (a & E & Ha).
  apply in_map_iff. exists a. split; [assumption |].
  now apply sort_values_In in Ha.
Qed.

End SortKeepsDistinct.

Lemma StronglySorted_NoDup {A} (R : A -> A -> Prop) l :
  (forall a, ~ R a a) -> StronglySorted R l -> NoDup l.
Proof.
  intros Hirr. induction 1 as [| x l Hs IH Hx]; constructor; [| assumption].
  intros Hin. rewrite Forall_forall in Hx. apply (Hirr x). now apply Hx.
Qed.

Lemma StronglySorted_strict {A B} (f : A -> B) (R R' : A -> A -> Prop) l :
  (forall a b, In a l -> In b l -> R a b -> f a <> f b -> R' a b) ->
  NoDup (map f l) -> StronglySorted R l -> StronglySorted R' l.
Proof.
  intros H Hnd Hs. induction Hs as [| x l Hs IH Hx]; constructor.
  - simpl in Hnd. apply NoDup_cons_iff in Hnd as [_ Hnd].
    apply IH; [| assumption].
    intros a b Ha Hb. apply H; now right.
  - simpl in Hnd. apply NoDup_cons_iff in Hnd as [Hnx _].
    rewrite Forall_forall in *. intros y Hy.
    apply H; [now left | now right | now apply Hx |].
    intros E. apply Hnx. rewrite E. now apply in_map.
Qed.

Lemma StronglySorted_map {A B} (f : A -> B) (R : B -> B -> Prop) l :
  StronglySorted (fun a b => R (f a) (f b)) l -> StronglySorted R (map f l).
Proof.
  induction 1 as [| x l Hs IH Hx]; simpl; constructor; [assumption |].
  rewrite Forall_forall in *. intros y Hy.
  apply in_map_iff in Hy as (a & <- & Ha). now apply Hx.
Qed.

Lemma increasing_length_from (l : list nat) :
  StronglySorted lt l ->
  forall m n, Forall (fun i => (m <= i < n)%nat) l ->
              (List.length l <= n - m)%nat.
Proof.
  induction 1 as [| x l Hs IH Hx]; intros m n Hn; simpl; [lia |].
  apply Forall_cons_iff in Hn as [Hxn Hn].
  assert (List.length l <= n - S x)%nat as H; [| lia].
  apply IH. rewrite Forall_forall in *. intros y Hy.
  specialize (Hx y Hy). specialize (Hn y Hy). lia.
Qed.

Lemma increasing_length (l : list nat) n :
  StronglySorted lt l -> Forall (fun i => (i < n)%nat) l ->
  (List.length l <= n)%nat.
Proof.
  intros Hs Hn.
  pose proof (increasing_length_from l Hs 0%nat n) as H.
  rewrite Nat.sub_0_r in H. apply H.
  eapply Forall_impl; [| exact Hn]. simpl. intros i Hi. lia.
Qed.

Lemma histograma_groups df sexo departamento edad g :
  In g (get_histograma_categorias_edad df sexo departamento edad) <->
  exists g0,
    In g0 (groupby_size (compare_na String.compare)
             (map categoria_edad (_apply_filters df sexo departamento edad)))
    /\ group g = as_category (group g0) /\ muertes g = muertes g0.
Proof.
  unfold get_histograma_categorias_edad; cbv zeta.
  now rewrite sort_values_In, In_map_group.
Qed.

Lemma groupby_categoria_exact (df : list row) g0 :
  In g0 (groupby_size (compare_na String.compare) (map categoria_edad df)) ->
  muertes g0 = count_rows (fun r => key_eqb (categoria_edad r) (group g0)) df
  /\ (0 < muertes g0)%nat
  /\ exists r, In r df /\ categoria_edad r = group g0.
Proof.
  intros Hg0.
  pose proof (groupby_size_counts_rows (compare_na String.compare)
                (map categoria_edad df)) as H.
  rewrite Forall_forall in H. destruct (H g0 Hg0) as [Hp Hin].
  split; [| split; [assumption |]].
  - rewrite (groupby_size_exact _ (compare_na_order _ string_compare_order)
               _ _ Hg0).
    rewrite occurrences_map. apply count_rows_ext.
    intros r. apply same_key_na.
  - apply in_map_iff in Hin as (r & Hr & Hin). now exists r.
Qed.

(** X6. The counts of the age histogram add up to the number of rows that
    pass the filters; each of its rows stands for one value of the bracket
    column, made null when it is not one of the 11 brackets, and counts the
    rows that pass the filters and have that value; and the rows come in
    the order of the brackets, the null bracket last. *)
Theorem X6_histograma_total_and_order :
  forall df sexo departamento edad,
    let filtered := _apply_filters df sexo departamento edad in
    let out := get_histograma_categorias_edad df sexo departamento edad in
    total_muertes out = List.length filtered
    /\ (forall g, In g out ->
          exists k, group g = as_category k
                    /\ muertes g =
                       count_rows (fun r => key_eqb (categoria_edad r) k)
                                  filtered
                    /\ (0 < muertes g)%nat)
    /\ StronglySorted (fun a b => category_before a b = true) out.
Proof.
  intros df sexo departamento edad filtered out. split; [| split].
  - unfold out, get_histograma_categorias_edad; cbv zeta.
    rewrite total_sort_values, total_map_group, total_groupby_size.
    apply length_map.
  - intros g Hg. apply histograma_groups in Hg as (g0 & Hg0 & Hk & Hm).
    destruct (groupby_categoria_exact _ _ Hg0) as (Hc & Hp & _).
    exists (group g0). rewrite Hm. now repeat split.
  - unfold out, get_histograma_categorias_edad; cbv zeta.
    apply sort_values_sorted.
    + apply category_before_total.
    + apply category_before_trans.
Qed.

Lemma NoDup_map_eq {A B} (f : A -> B) l a b :
  NoDup (map f l) -> In a l -> In b l -> f a = f b -> a = b.
Proof.
  induction l as [| x l IH]; simpl; intros Hnd Ha Hb E; [contradiction |].
  apply NoDup_cons_iff in Hnd as [Hx Hnd].
  destruct Ha as [-> | Ha], Hb as [-> | Hb]; trivial.
  - exfalso. apply Hx. rewrite E. now apply in_map.
  - exfalso. apply Hx. rewrite <- E. now apply in_map.
  - now apply IH.
Qed.

(** X8. When the bracket of every row is one of the 11 brackets, as it
    is in a dataset the build returns, the age histogram has one row for
    each bracket that some row passing the filters has, with the number of
    those rows, in the strict order of the brackets; so it has at most 11
    rows and none with a null bracket. *)
Theorem X8_histograma_brackets :
  forall df sexo departamento edad,
    Forall (fun r => exists label, categoria_edad r = Some label
                                   /\ In label AGE_CATEGORY_ORDER) df ->
    let filtered := _apply_filters df sexo departamento edad in
    let out := get_histograma_categorias_edad df sexo departamento edad in
    (forall g, In g out ->
       exists label,
         group g = Some label /\ In label AGE_CATEGORY_ORDER
         /\ muertes g =
            count_rows (fun r => key_eqb (categoria_edad r) (Some label))
                       filtered)
    /\ (forall r, In r filtered ->
          exists g, In g out /\ group g = categoria_edad r)
    /\ StronglySorted
         (fun a b => exists i j, category_code (group a) = Some i
                                 /\ category_code (group b) = Some j
                                 /\ (i < j)%nat) out
    /\ (List.length out <= 11)%nat.
Proof.
  intros df sexo departamento edad Hdf filtered out.
  set (groups := groupby_size (compare_na String.compare)
                   (map categoria_edad filtered)).
  assert (forall g0, In g0 groups ->
            exists label, group g0 = Some label
                          /\ In label AGE_CATEGORY_ORDER) as Hlabel.
  { intros g0 Hg0.
    destruct (groupby_categoria_exact _ _ Hg0) as (_ & _ & r & Hr & <-).
    rewrite Forall_forall in Hdf. apply Hdf.
    now apply apply_filters_incl in Hr. }
  assert (forall g, In g out ->
            exists label i,
              group g = Some label /\ In label AGE_CATEGORY_ORDER
              /\ category_code (group g) = Some i /\ (i < 11)%nat
              /\ muertes g =
                 count_rows (fun r => key_eqb (categoria_edad r) (Some label))
                            filtered) as Hout.
  { intros g Hg. apply histograma_groups in Hg as (g0 & Hg0 & Hk & Hm).
    destruct (Hlabel g0 Hg0) as (label & Hkey & Hin).
    destruct (groupby_categoria_exact _ _ Hg0) as (Hc & _).
    destruct (index_of_In label AGE_CATEGORY_ORDER Hin) as (i & Hi).
    exists label, i. rewrite Hk, Hkey, (as_category_label label Hin).
    rewrite Hm, Hc, Hkey. simpl. repeat split; try assumption.
    now apply index_of_bound in Hi. }
  assert (NoDup (map (fun g => category_code (group g)) out)) as Hnodup.
  { unfold out, get_histograma_categorias_edad; cbv zeta.
    apply NoDup_map_sort_values. rewrite map_map.
    apply NoDup_map_NoDup_ForallPairs.
    - intros a b Ha Hb E.
      change (category_code (as_category (group a)) =
              category_code (as_category (group b))) in E.
      destruct (Hlabel a Ha) as (la & Hka & Hla).
      destruct (Hlabel b Hb) as (lb & Hkb & Hlb).
      rewrite Hka, Hkb, !as_category_label in E by assumption.
      change (index_of la AGE_CATEGORY_ORDER = index_of lb AGE_CATEGORY_ORDER)
        in E.
      destruct (index_of_In la AGE_CATEGORY_ORDER Hla) as (i & Hi).
      rewrite Hi in E. symmetry in E.
      assert (la = lb) by (eapply index_of_inj; eassumption). subst lb.
      pose proof (groupby_size_sorted _
                    (compare_na_order _ string_compare_order)
                    (map categoria_edad filtered)) as Hs.
      fold groups in Hs.
      assert (NoDup (map group groups)) as Hnd.
      { apply (StronglySorted_NoDup
                 (fun x y => compare_na String.compare x y = Lt)).
        - intros k Hk.
          assert (compare_na String.compare k k = Eq) as E'
            by now apply (compare_eq _
                            (compare_na_order _ string_compare_order)).
          congruence.
        - apply (StronglySorted_map group
                   (fun x y => compare_na String.compare x y = Lt)).
          exact Hs. }
      apply (NoDup_map_eq group groups); trivial. congruence.
    - eapply StronglySorted_NoDup;
        [| apply (groupby_size_sorted _
                    (compare_na_order _ string_compare_order))].
      intros g Hg.
      assert (compare_na String.compare (group g) (group g) = Eq) as E'
        by now apply (compare_eq _ (compare_na_order _ string_compare_order)).
      congruence. }
  assert (StronglySorted
            (fun a b => exists i j, category_code (group a) = Some i
                                    /\ category_code (group b) = Some j
                                    /\ (i < j)%nat) out) as Hstrict.
  { apply (StronglySorted_strict (fun g => category_code (group g))
             (fun a b => category_before a b = true)); [| exact Hnodup |].
    - intros a b Ha Hb Hab Hne.
      destruct (Hout a Ha) as (_ & i & _ & _ & Hi & _).
      destruct (Hout b Hb) as (_ & j & _ & _ & Hj & _).
      exists i, j. repeat split; try assumption.
      unfold category_before in Hab. rewrite Hi, Hj in Hab.
      apply Nat.leb_le in Hab.
      assert (i <> j) by (intros ->; apply Hne; congruence). lia.
    - unfold out, get_histograma_categorias_edad; cbv zeta.
      apply sort_values_sorted;
        [apply category_before_total | apply category_before_trans]. }
  split; [| split; [| split; [exact Hstrict |]]].
  - intros g Hg. destruct (Hout g Hg) as (label & i & H1 & H2 & _ & _ & H3).
    now exists label.
  - intros r Hr.
    destruct (groupby_size_complete _
                (compare_na_order _ string_compare_order)
                (map categoria_edad filtered) (categoria_edad r))
      as (g0 & Hg0 & Hk0); [now apply in_map |].
    destruct (Hlabel g0 Hg0) as (label & Hkey & Hin).
    exists (map_group as_category g0). split.
    + apply histograma_groups. exists g0. now repeat split.
    + simpl. rewrite <- Hk0, Hkey. now apply as_category_label.
  - set (code g := match category_code (@group (option string) g) with
                   | Some i => i
                   | None => 0%nat
                   end).
    rewrite <- (length_map code out).
    apply increasing_length.
    + apply StronglySorted_map.
      eapply StronglySorted_weaken; [| exact Hstrict].
      intros a b (i & j & Hi & Hj & Hij). unfold code. now rewrite Hi, Hj.
    + apply Forall_forall. intros n Hn.
      apply in_map_iff in Hn as (g & <- & Hg).
      destruct (Hout g Hg) as (_ & i & _ & _ & Hi & Hlt & _).
      unfold code. now rewrite Hi.
Qed.

Lemma X8_histograma_brackets_witness :
  (List.length
     (get_histograma_categorias_edad Sample.dataset None None None) <= 11)%nat.
Proof.
  apply (X8_histograma_brackets Sample.dataset None None None).
  vm_compute. repeat constructor; eexists; (split; [reflexivity |]);
    simpl; tauto.
Defined.

(** ** Filters, continued *)

Lemma series_eq_upper_manner cell m :
  series_eq (str_upper cell) (upper m) = true <->
  exists x, cell = Some x /\ equal_ignoring_case x m.
Proof.
  destruct cell as [x |]; simpl.
  - rewrite String.eqb_eq, <- equal_ignoring_case_upper. split.
    + intros H. now exists x.
    + intros (y & E & H). injection E as ->. exact H.
  - split; [discriminate |]. intros (y & E & _). discriminate.
Qed.

(** X9. On rows whose manner of death is ASCII text or null, and with a
    real manner of death, an ASCII text that is neither empty nor the
    sentinel, the manner filter keeps, in their order, the rows whose
    manner equals it up to letter case, and those only; a row with a null
    manner is dropped; filtering again changes nothing; and another
    spelling of the manner, in other letter case and not the sentinel,
    gives the same rows. *)
Theorem X9_filter_by_manera_real :
  forall df manera,
    manera <> EmptyString -> manera <> ALL_VALUE ->
    is_ascii manera = true ->
    Forall (fun r => ascii_cell (MANERA_MUERTE r) = true) df ->
    let out := _filter_by_manera df (Some manera) in
    (forall r, In r out <-> In r df /\ manner_is manera r)
    /\ (exists keep, out = filter keep df)
    /\ (forall r, In r out -> MANERA_MUERTE r <> None)
    /\ _filter_by_manera out (Some manera) = out
    /\ (forall other,
          equal_ignoring_case manera other -> other <> ALL_VALUE ->
          _filter_by_manera df (Some other) = out).
Proof.
  intros df manera H1 H2 _ _ out.
  assert (forall m, m <> EmptyString -> m <> ALL_VALUE ->
            _filter_by_manera df (Some m) =
            filter (fun r => series_eq (str_upper (MANERA_MUERTE r)) (upper m))
                   df) as Hreal.
  { intros m Hm1 Hm2. unfold _filter_by_manera.
    apply String.eqb_neq in Hm1, Hm2. now rewrite Hm1, Hm2. }
  pose proof (Hreal manera H1 H2) as Hout. fold out in Hout.
  assert (forall r, In r out <-> In r df /\ manner_is manera r) as Hin.
  { intros r. rewrite Hout, filter_In, series_eq_upper_manner. reflexivity. }
  split; [exact Hin |]. split; [eexists; exact Hout |].
  split; [| split].
  - intros r Hr. apply Hin in Hr as [_ (x & -> & _)]. discriminate.
  - unfold _filter_by_manera at 1.
    apply String.eqb_neq in H1, H2. rewrite H1, H2. simpl.
    rewrite Hout, filter_filter_andb.
    apply filter_ext. intros r. apply andb_diag.
  - intros other Hother Hne.
    assert (other <> EmptyString) as Hne'.
    { intros ->. inversion Hother. subst. contradiction. }
    rewrite (Hreal other Hne' Hne), Hout.
    apply equal_ignoring_case_upper in Hother. now rewrite Hother.
Qed.

Lemma Forall_forallb {A} (f : A -> bool) l :
  forallb f l = true -> Forall (fun x => f x = true) l.
Proof. intros H. apply Forall_forall. now apply forallb_forall. Qed.

Lemma X9_filter_by_manera_real_witness :
  _filter_by_manera Sample.dataset (Some "HOMICIDIO") =
  _filter_by_manera Sample.dataset (Some "homicidio").
Proof.
  assert ("homicidio" <> EmptyString) as H1 by discriminate.
  assert ("homicidio" <> ALL_VALUE) as H2 by discriminate.
  assert (is_ascii "homicidio" = true) as H3 by reflexivity.
  assert (Forall (fun r => ascii_cell (MANERA_MUERTE r) = true)
                 Sample.dataset) as H4
    by (apply Forall_forallb; reflexivity).
  apply (proj2 (proj2 (proj2 (proj2
           (X9_filter_by_manera_real Sample.dataset "homicidio"
              H1 H2 H3 H4))))).
  - apply equal_ignoring_case_upper. reflexivity.
  - discriminate.
Defined.

Lemma filter_length_le {A} (f : A -> bool) l :
  (List.length (filter f l) <= List.length l)%nat.
Proof.
  induction l as [| x l IH]; simpl; [lia |]. destruct (f x); simpl; lia.
Qed.

(** X10. Filtering is idempotent and can be done in steps: the rows
    filtered by sex and then, in a second call, by department and age
    bracket are the rows filtered by the three at once, and the order of
    the steps does not matter.  The result never has more rows than the
    input. *)
Theorem X10_apply_filters_compose :
  forall df sexo departamento edad,
    _apply_filters (_apply_filters df sexo departamento edad)
      sexo departamento edad = _apply_filters df sexo departamento edad
    /\ _apply_filters (_apply_filters df sexo None None)
         None departamento edad = _apply_filters df sexo departamento edad
    /\ _apply_filters (_apply_filters df None departamento edad)
         sexo None None = _apply_filters df sexo departamento edad
    /\ (List.length (_apply_filters df sexo departamento edad)
        <= List.length df)%nat.
Proof.
  intros df sexo departamento edad.
  rewrite !apply_filters_as_filter, !filter_filter_andb.
  repeat split.
  - apply filter_ext. intros r. apply andb_diag.
  - apply filter_ext. intros r. simpl.
    now rewrite !andb_true_r, !andb_assoc.
  - apply filter_ext. intros r. simpl. rewrite !andb_true_r.
    destruct (lets_through SEXO_DESC sexo r),
      (lets_through DEPARTAMENTO departamento r),
      (lets_through categoria_edad edad r); reflexivity.
  - apply filter_length_le.
Qed.

(** X11. A real sex value that no row has is no error: the filtered
    row-set is empty and each of the seven views is empty. *)
Theorem X11_unmatched_filter_gives_empty_views :
  forall df sexo departamento edad manera,
    sexo <> EmptyString -> sexo <> ALL_VALUE ->
    (forall r, In r df -> SEXO_DESC r <> Some sexo) ->
    _apply_filters df (Some sexo) departamento edad = []
    /\ get_mapa_departamentos df (Some sexo) departamento edad manera = []
    /\ get_series_mensuales df (Some sexo) departamento edad = []
    /\ get_top5_ciudades_violentas df (Some sexo) departamento edad = []
    /\ get_bottom10_ciudades_menos_muertes df (Some sexo) departamento edad
       = []
    /\ get_top10_causas df (Some sexo) departamento edad = []
    /\ get_barras_apiladas_sexo df (Some sexo) departamento edad = []
    /\ get_histograma_categorias_edad df (Some sexo) departamento edad = [].
Proof.
  intros df sexo departamento edad manera H1 H2 Hnone.
  assert (_apply_filters df (Some sexo) departamento edad = []) as Hempty.
  { destruct (_apply_filters df (Some sexo) departamento edad)
      as [| r l] eqn:E; [reflexivity |].
    assert (In r (_apply_filters df (Some sexo) departamento edad)) as Hr
      by (rewrite E; now left).
    pose proof (apply_filters_incl _ _ _ _ _ Hr) as Hdf.
    rewrite apply_filters_as_filter in Hr. apply filter_In in Hr as [_ Hr].
    apply andb_prop in Hr as [Hr _]. apply andb_prop in Hr as [Hr _].
    apply lets_through_passes in Hr as [[H | [H | H]] | H];
      try congruence.
    exfalso. now apply (Hnone r). }
  split; [exact Hempty |].
  unfold get_mapa_departamentos, get_series_mensuales,
    get_top5_ciudades_violentas, get_bottom10_ciudades_menos_muertes,
    get_top10_causas, get_barras_apiladas_sexo,
    get_histograma_categorias_edad.
  rewrite Hempty.
  repeat split; try reflexivity.
  unfold _filter_by_manera.
  destruct manera as [m |]; [| reflexivity].
  destruct ((m =? EmptyString)%string || (m =? ALL_VALUE)%string); reflexivity.
Qed.

Lemma X11_unmatched_filter_gives_empty_views_witness :
  get_top10_causas Sample.dataset (Some "Indeterminado") None None = [].
Proof.
  assert ("Indeterminado" <> EmptyString) as H1 by discriminate.
  assert ("Indeterminado" <> ALL_VALUE) as H2 by discriminate.
  apply (X11_unmatched_filter_gives_empty_views Sample.dataset
           "Indeterminado" None None None H1 H2).
  vm_compute. intros r [<- | [<- | [<- | []]]]; discriminate.
Defined.

(** ** Cleaning of text *)

Lemma lstrip_split s :
  exists a, s = a ++ lstrip s /\ all_space a = true.
Proof.
  induction s as [| c s (a & Ha & Hs)]; simpl.
  - exists EmptyString. now split.
  - destruct (is_space c) eqn:E.
    + exists (String c a). simpl. rewrite E, Hs. split; [congruence | reflexivity].
    + exists EmptyString. now split.
Qed.

Lemma lstrip_head s :
  match lstrip s with
  | EmptyString => True
  | String c _ => is_space c = false
  end.
Proof.
  induction s as [| c s IH]; simpl; [trivial |].
  destruct (is_space c) eqn:E; [exact IH | exact E].
Qed.

Lemma lstrip_fixed c s : is_space c = false -> lstrip (String c s) = String c s.
Proof. simpl. now intros ->. Qed.

Lemma rstrip_split s :
  exists b, s = rstrip s ++ b /\ all_space b = true.
Proof.
  induction s as [| c s (b & Hb & Hs)]; simpl.
  - exists EmptyString. now split.
  - destruct (rstrip s) as [| d r] eqn:E.
    + destruct (is_space c) eqn:Hc.
      * exists (String c b). simpl in *. rewrite Hc, Hs.
        split; [congruence | reflexivity].
      * exists b. simpl in *. split; [congruence | assumption].
    + exists b. simpl in *. split; [congruence | assumption].
Qed.

Lemma rstrip_head c s :
  is_space c = false -> exists r, rstrip (String c s) = String c r.
Proof.
  intros Hc. simpl. destruct (rstrip s) as [| d r].
  - rewrite Hc. now exists EmptyString.
  - now exists (String d r).
Qed.

Lemma rstrip_last s :
  rstrip s = EmptyString
  \/ exists t d, rstrip s = t ++ String d EmptyString /\ is_space d = false.
Proof.
  induction s as [| c s IH]; simpl; [now left |].
  destruct (rstrip s) as [| e r] eqn:E.
  - destruct (is_space c) eqn:Hc; [now left | right].
    exists EmptyString, c. now split.
  - right. destruct IH as [IH | (t & d & Ht & Hd)]; [discriminate |].
    exists (String c t), d. simpl. now rewrite Ht.
Qed.

Lemma rstrip_fixed t d :
  is_space d = false ->
  rstrip (t ++ String d EmptyString) = t ++ String d EmptyString.
Proof.
  intros Hd. induction t as [| c t IH]; simpl.
  - now rewrite Hd.
  - rewrite IH. destruct t; reflexivity.
Qed.

Lemma strip_trimmed s : trimmed (strip s).
Proof.
  unfold strip. pose proof (lstrip_head s) as Hh.
  destruct (lstrip s) as [| c t]; simpl; [trivial |].
  destruct (rstrip_head c t Hh) as (r & Hr).
  pose proof (rstrip_last (String c t)) as Hl.
  simpl in Hr, Hl. rewrite Hr in *. simpl. split; [assumption |].
  destruct Hl as [Hl | Hl]; [discriminate | exact Hl].
Qed.

Lemma strip_fixed s : trimmed s -> strip s = s.
Proof.
  unfold strip. destruct s as [| c s]; [reflexivity |].
  intros [Hc (t & d & Hs & Hd)].
  rewrite (lstrip_fixed c s Hc), Hs. now apply rstrip_fixed.
Qed.

Lemma append_assoc (a b c : string) : (a ++ b) ++ c = a ++ b ++ c.
Proof. induction a as [| x a IH]; simpl; [reflexivity | now rewrite IH]. Qed.

Lemma is_ascii_lstrip s : is_ascii s = true -> is_ascii (lstrip s) = true.
Proof.
  induction s as [| c s IH]; simpl; [trivial |].
  intros H. destruct (is_space c); [| exact H].
  apply andb_prop in H as [_ H]. now apply IH.
Qed.

Lemma is_ascii_rstrip s : is_ascii s = true -> is_ascii (rstrip s) = true.
Proof.
  induction s as [| c s IH]; simpl; [trivial |].
  intros H. apply andb_prop in H as [Hc H]. specialize (IH H).
  destruct (rstrip s) as [| d r].
  - destruct (is_space c); simpl; [reflexivity | now rewrite Hc].
  - change (is_ascii (String c (String d r)))
      with ((N_of_ascii c <? 128)%N && is_ascii (String d r)).
    now rewrite Hc, IH.
Qed.

Lemma is_ascii_strip s : is_ascii s = true -> is_ascii (strip s) = true.
Proof. intros H. unfold strip. now apply is_ascii_rstrip, is_ascii_lstrip. Qed.

(** X12. Cleaning an ASCII text takes white space off its two ends and
    nothing else: the text is the clean text between two runs of white
    space, the clean text is ASCII and has no white space at either end, a
    text with none is left as it is, and cleaning twice is cleaning once.
    A null stays null. *)
Theorem X12_clean_string_trims :
  (forall s,
      is_ascii s = true ->
      (exists a b, s = a ++ strip s ++ b
                   /\ all_space a = true /\ all_space b = true)
      /\ clean_text (strip s))
  /\ (forall s,
        is_ascii s = true -> trimmed s -> _clean_string (Some s) = Some s)
  /\ (forall v,
        ascii_cell v = true ->
        _clean_string (_clean_string v) = _clean_string v)
  /\ _clean_string None = None.
Proof.
  assert (forall s, strip (strip s) = strip s) as Hidem.
  { intros s. apply strip_fixed, strip_trimmed. }
  split; [| split; [| split; [| reflexivity]]].
  - intros s Hs. split.
    + destruct (lstrip_split s) as (a & Ha & Hsa).
      destruct (rstrip_split (lstrip s)) as (b & Hb & Hsb).
      exists a, b. unfold strip. split; [| now split].
      rewrite Ha at 1. now rewrite Hb at 1.
    + split; [now apply is_ascii_strip |].
      split; [apply strip_trimmed | apply Hidem].
  - intros s _ Hs. simpl. now rewrite strip_fixed.
  - intros [s |] _; simpl; [now rewrite Hidem | reflexivity].
Qed.

Lemma X12_clean_string_trims_witness :
  _clean_string (Some "Antioquia") = Some "Antioquia".
Proof.
  apply (proj1 (proj2 X12_clean_string_trims)); [reflexivity |].
  simpl. split; [reflexivity |].
  exists "Antioqui", "a"%char. split; reflexivity.
Defined.

Lemma is_space_upper_char c : is_space (upper_char c) = is_space c.
Proof. destruct c as [[] [] [] [] [] [] [] []]; reflexivity. Qed.

Lemma upper_char_idem c : upper_char (upper_char c) = upper_char c.
Proof. apply upper_char_fixed, upper_char_not_lower. Qed.

Lemma upper_idem s : upper (upper s) = upper s.
Proof.
  induction s as [| c s IH]; simpl; [reflexivity |].
  now rewrite upper_char_idem, IH.
Qed.

Lemma lstrip_upper s : lstrip (upper s) = upper (lstrip s).
Proof.
  induction s as [| c s IH]; simpl; [reflexivity |].
  rewrite is_space_upper_char. now destruct (is_space c).
Qed.

Lemma rstrip_upper s : rstrip (upper s) = upper (rstrip s).
Proof.
  induction s as [| c s IH]; simpl; [reflexivity |].
  rewrite IH, is_space_upper_char.
  destruct (rstrip s); simpl; [now destruct (is_space c) | reflexivity].
Qed.

Lemma strip_upper s : strip (upper s) = upper (strip s).
Proof. unfold strip. now rewrite lstrip_upper, rstrip_upper. Qed.

Lemma is_ascii_upper s : is_ascii (upper s) = is_ascii s.
Proof.
  induction s as [| c s IH]; simpl; [reflexivity |]. rewrite IH. f_equal.
  destruct c as [[] [] [] [] [] [] [] []]; reflexivity.
Qed.

Lemma no_lower_upper s : no_lower (upper s) = true.
Proof.
  induction s as [| c s IH]; simpl; [reflexivity |].
  now rewrite upper_char_not_lower, IH.
Qed.

Lemma clean_text_strip s : is_ascii s = true -> clean_text (strip s).
Proof.
  intros H. split; [now apply is_ascii_strip |].
  split; [apply strip_trimmed | apply strip_fixed, strip_trimmed].
Qed.

Lemma clean_upper_normal v d :
  ascii_cell v = true ->
  str_upper (_clean_string v) = Some d -> clean_capitals d.
Proof.
  destruct v as [s |]; simpl; [| discriminate].
  intros Hs H. injection H as <-.
  assert (strip (upper (strip s)) = upper (strip s)) as Hfix.
  { rewrite strip_upper. f_equal. apply strip_fixed, strip_trimmed. }
  split; [| split; [apply no_lower_upper | apply upper_idem]].
  split; [| split; [| exact Hfix]].
  - rewrite is_ascii_upper. now apply is_ascii_strip.
  - rewrite <- Hfix. apply strip_trimmed.
Qed.

(** X13. When the names of the catalogue of divisions and the cause codes
    and manners of death of the mortality table are ASCII text or null,
    then in a dataset the build returns the department and municipality
    names and the cause code are ASCII text in capitals with no white
    space at the ends, and the manner of death is ASCII text with no white
    space at the ends: cleaning or capitalising them again changes
    nothing. *)
Theorem X13_dataset_text_is_normal :
  forall int_of_text numeric_of_text mortalidad codigos divipola ds r,
    Forall (fun m => ascii_cell (raw_COD_MUERTE m) = true
                     /\ ascii_cell (raw_MANERA_MUERTE m) = true)
           mortalidad ->
    Forall (fun d => ascii_cell (divi_DEPARTAMENTO d) = true
                     /\ ascii_cell (divi_MUNICIPIO d) = true)
           divipola ->
    build_full_dataset int_of_text numeric_of_text
      mortalidad codigos divipola = Ok ds ->
    In r ds ->
    (forall d, DEPARTAMENTO r = Some d -> clean_capitals d)
    /\ (forall m, MUNICIPIO r = Some m -> clean_capitals m)
    /\ (forall c, COD_MUERTE r = Some c -> clean_capitals c)
    /\ (forall m, MANERA_MUERTE r = Some m -> clean_text m).
Proof.
  intros int_of_text numeric_of_text mortalidad codigos divipola ds r
    Hmortalidad Hdivipola Hbuild Hr.
  destruct (build_full_dataset_row _ _ _ _ _ _ _ Hbuild Hr)
    as (mortalidad_n & divipola_n & m & od & oc & Hm & Hd & Hmerge & He).
  apply merge_left_In in Hmerge as [Hmn Hod].
  destruct (mapM_In _ _ _ _ Hm Hmn) as (m0 & Hm0 & Hnm).
  rewrite Forall_forall in Hmortalidad, Hdivipola.
  destruct (Hmortalidad m0 Hm0) as [Hcode Hmanner].
  assert (ascii_cell (right_col sel_NOMBRE_DEPARTAMENTO od) = true
          /\ ascii_cell (right_col sel_NOMBRE_MUNICIPIO od) = true)
    as [Hdep Hmun].
  { destruct od as [c |]; simpl; [| now split].
    destruct Hod as [Hc _].
    destruct (mapM_In _ _ _ _ Hd Hc) as (d0 & Hd0 & Hnd).
    apply normalize_divipola_Ok in Hnd as (_ & _ & -> & ->).
    now apply Hdivipola. }
  unfold normalize_mortalidad in Hnm.
  apply bind_Ok in Hnm as (dane & _ & Hnm).
  apply bind_Ok in Hnm as (dep & _ & Hnm).
  apply bind_Ok in Hnm as (mun & _ & Hnm).
  apply bind_Ok in Hnm as (sx & _ & Hnm).
  injection Hnm as <-.
  unfold enrich in He. apply bind_Ok in He as (categoria & _ & He).
  injection He as <-. simpl.
  split; [intros d; now apply clean_upper_normal |].
  split; [intros x; now apply clean_upper_normal |].
  split; [intros c; now apply clean_upper_normal |].
  intros x Hx. destruct (raw_MANERA_MUERTE m0) as [s |]; simpl in Hx;
    [| discriminate].
  injection Hx as <-. now apply clean_text_strip.
Qed.

Lemma X13_dataset_text_is_normal_witness :
  clean_capitals "MEDELLIN".
Proof.
  assert (Forall (fun m => ascii_cell (raw_COD_MUERTE m) = true
                           /\ ascii_cell (raw_MANERA_MUERTE m) = true)
                 Sample.mortalidad) as H1
    by (repeat constructor).
  assert (Forall (fun d => ascii_cell (divi_DEPARTAMENTO d) = true
                           /\ ascii_cell (divi_MUNICIPIO d) = true)
                 Sample.divipola) as H2
    by (repeat constructor).
  apply (proj1 (proj2 (X13_dataset_text_is_normal
           Sample.int_of_decimal Sample.numeric_of_decimal
           Sample.mortalidad Sample.codigos Sample.divipola Sample.dataset
           (nth 0 Sample.dataset Sample.blank) H1 H2 eq_refl
           (or_introl eq_refl)))).
  reflexivity.
Defined.

(** ** The dataset build, continued *)

Lemma length_mapM {A B} (f : A -> result B) l l' :
  mapM f l = Ok l' -> List.length l' = List.length l.
Proof.
  revert l'. induction l as [| a l IH]; simpl; intros l' H.
  - now injection H as <-.
  - apply bind_Ok in H as (b & _ & H). apply bind_Ok in H as (bs & Hbs & H).
    injection H as <-. simpl. now rewrite (IH bs Hbs).
Qed.

Lemma mapM_map {A B C} (f : A -> result B) (g : B -> C) (h : A -> result C)
    l l' :
  (forall a b, f a = Ok b -> h a = Ok (g b)) ->
  mapM f l = Ok l' -> mapM h l = Ok (map g l').
Proof.
  intros Hfh. revert l'. induction l as [| a l IH]; simpl; intros l' H.
  - now injection H as <-.
  - apply bind_Ok in H as (b & Hb & H). apply bind_Ok in H as (bs & Hbs & H).
    injection H as <-. rewrite (Hfh a b Hb). simpl.
    now rewrite (IH bs Hbs).
Qed.

Section MergeFacts.

Context {L R : Type} (left_on : L -> option string)
  (right_on : R -> option string).

Lemma merge_left_complete left right l :
  In l left -> exists o, In (l, o) (merge_left left_on right_on left right).
Proof.
  intros Hl. unfold merge_left.
  destruct (filter (fun r => key_eqb (left_on l) (right_on r)) right)
    as [| r0 matches] eqn:E.
  - exists None. apply in_flat_map. exists l. split; [assumption |].
    rewrite E. now left.
  - exists (Some r0). apply in_flat_map. exists l. split; [assumption |].
    rewrite E. now left.
Qed.

Lemma merge_left_length left right :
  (List.length left <= List.length (merge_left left_on right_on left right))%nat.
Proof.
  unfold merge_left.
  set (rows l := match filter (fun r => key_eqb (left_on l) (right_on r)) right
                 with
                 | [] => [(l, @None R)]
                 | matches => map (fun r => (l, Some r)) matches
                 end).
  assert (forall l, (1 <= List.length (rows l))%nat) as Hrows.
  { intros l. unfold rows.
    destruct (filter (fun r => key_eqb (left_on l) (right_on r)) right);
      simpl; lia. }
  induction left as [| l left IH]; [simpl; lia |].
  change (flat_map rows (l :: left))
    with (List.app (rows l) (flat_map rows left)).
  rewrite length_app. specialize (Hrows l). simpl. lia.
Qed.

Lemma unique_key_matches right k :
  NoDup (map right_on right) ->
  (List.length (filter (fun r => key_eqb k (right_on r)) right) <= 1)%nat.
Proof.
  induction right as [| r right IH]; simpl; intros Hnd; [lia |].
  apply NoDup_cons_iff in Hnd as [Hr Hnd]. specialize (IH Hnd).
  destruct (key_eqb k (right_on r)) eqn:E; [| assumption].
  apply key_eqb_eq in E. simpl.
  destruct (filter (fun r => key_eqb k (right_on r)) right) as [| r' l] eqn:F;
    [simpl; lia |].
  exfalso. apply Hr.
  assert (In r' (filter (fun r => key_eqb k (right_on r)) right)) as Hin
    by (rewrite F; now left).
  apply filter_In in Hin as [Hin Hk]. apply key_eqb_eq in Hk.
  rewrite <- E, Hk. now apply in_map.
Qed.

(** With distinct keys on the right, the merge has one row for each left
    row, in the left order. *)
Lemma merge_left_unique left right :
  NoDup (map right_on right) ->
  map fst (merge_left left_on right_on left right) = left.
Proof.
  intros Hnd. unfold merge_left.
  set (rows l := match filter (fun r => key_eqb (left_on l) (right_on r)) right
                 with
                 | [] => [(l, @None R)]
                 | matches => map (fun r => (l, Some r)) matches
                 end).
  assert (forall l, map fst (rows l) = [l]) as Hrows.
  { intros l. unfold rows.
    pose proof (unique_key_matches right (left_on l) Hnd) as H.
    destruct (filter (fun r => key_eqb (left_on l) (right_on r)) right)
      as [| r0 [| r1 matches]]; simpl in *; [reflexivity | reflexivity | lia]. }
  induction left as [| l left IH]; [reflexivity |].
  change (flat_map rows (l :: left))
    with (List.app (rows l) (flat_map rows left)).
  now rewrite map_app, IH, Hrows.
Qed.

End MergeFacts.

Section BuildInvariants.

Variable int_of_text : string -> option Z.
Variable numeric_of_text : string -> pyfloat.
Variable mortalidad : list mortalidad_row.
Variable codigos : list codigo_row.
Variable divipola : list divipola_row.
Variable ds : list row.
Hypothesis built :
  build_full_dataset int_of_text numeric_of_text mortalidad codigos divipola =
  Ok ds.

Lemma sexo_desc_of_map (sexo : option Z) :
  fillna SEXO_DEFAULT (series_map_dict SEXO_MAP sexo) =
  match sexo with
  | Some 1 => "Masculino"
  | Some 2 => "Femenino"
  | _ => "Sin información"
  end.
Proof.
  destruct sexo as [z |]; [| reflexivity]. simpl.
  destruct (Z.eqb_spec z 2) as [-> | H2]; [reflexivity |].
  destruct (Z.eqb_spec z 1) as [-> | H1]; [reflexivity |].
  destruct z as [| [p | [p | p |] |] | p]; try reflexivity; contradiction.
Qed.

Lemma built_row_derived r :
  In r ds ->
  categoria_edad r =
    match _map_categoria_edad int_of_text (GRUPO_EDAD1 r) with
    | Ok label => Some label
    | Raise _ => None
    end
  /\ (exists label, categoria_edad r = Some label
                    /\ In label AGE_CATEGORY_ORDER)
  /\ SEXO_DESC r =
     Some (match SEXO r with
           | Some 1 => "Masculino"
           | Some 2 => "Femenino"
           | _ => "Sin información"
           end).
Proof.
  intros Hr.
  destruct (build_full_dataset_row _ _ _ _ _ _ _ built Hr)
    as (mortalidad_n & divipola_n & m & od & oc & _ & _ & _ & He).
  unfold enrich in He. apply bind_Ok in He as (label & Hlabel & He).
  injection He as <-. simpl in *. rewrite Hlabel.
  split; [reflexivity |]. split.
  - exists label. split; [reflexivity |].
    eapply map_categoria_edad_label. exact Hlabel.
  - f_equal. apply sexo_desc_of_map.
Qed.

Lemma built_row_count :
  (List.length mortalidad <= List.length ds)%nat.
Proof.
  unfold build_full_dataset in built.
  apply bind_Ok in built as (mortalidad_n & Hm & H).
  apply bind_Ok in H as (divipola_n & Hd & H).
  apply length_mapM in H, Hm. rewrite H, <- Hm.
  etransitivity; [| apply merge_left_length].
  unfold locate. rewrite length_map. apply merge_left_length.
Qed.

Lemma built_record_present m :
  In m mortalidad ->
  exists r, In r ds
            /\ MES r = raw_MES m
            /\ GRUPO_EDAD1 r = raw_GRUPO_EDAD1 m
            /\ MANERA_MUERTE r = _clean_string (raw_MANERA_MUERTE m)
            /\ COD_MUERTE r = str_upper (_clean_string (raw_COD_MUERTE m))
            /\ normalize_value numeric_of_text (Some 5) (raw_COD_DANE m) =
               Ok (COD_DANE r).
Proof.
  intros Hm0.
  unfold build_full_dataset in built.
  apply bind_Ok in built as (mortalidad_n & Hm & H).
  apply bind_Ok in H as (divipola_n & Hd & H).
  destruct (mapM_In_source _ _ _ _ Hm Hm0) as (n & Hn & Hnorm).
  destruct (merge_left_complete n_COD_DANE sel_COD_DANE
              mortalidad_n divipola_n n Hn) as (od & Hod).
  set (l := resolve_departamento (as_merged_row (n, od))).
  assert (In l (locate mortalidad_n divipola_n)) as Hl.
  { unfold locate. apply in_map_iff. now exists (n, od). }
  destruct (merge_left_complete (fun l => n_COD_MUERTE (loc_base l))
              codigo_cuatro _ (load_codigos_muerte codigos) l Hl)
    as (oc & Hoc).
  destruct (mapM_In_source _ _ _ _ H Hoc) as (r & Hr & He).
  exists r. split; [assumption |].
  unfold enrich in He. apply bind_Ok in He as (label & _ & He).
  injection He as <-. simpl.
  unfold normalize_mortalidad in Hnorm.
  apply bind_Ok in Hnorm as (dane & Hdane & Hnorm).
  apply bind_Ok in Hnorm as (dep & _ & Hnorm).
  apply bind_Ok in Hnorm as (mun & _ & Hnorm).
  apply bind_Ok in Hnorm as (sx & _ & Hnorm).
  injection Hnorm as <-. simpl. now repeat split.
Qed.

End BuildInvariants.

(** X14. In a dataset the build returns, the age bracket of every row is
    the label the classifier gives to its age-group code, one of the 11
    brackets and never null, and the sex description is "Masculino" for
    sex code 1, "Femenino" for 2 and "Sin información" for any other or
    missing code, never null. *)
Theorem X14_dataset_derived_columns :
  forall int_of_text numeric_of_text mortalidad codigos divipola ds,
    build_full_dataset int_of_text numeric_of_text
      mortalidad codigos divipola = Ok ds ->
    Forall (fun r =>
              categoria_edad r =
                match _map_categoria_edad int_of_text (GRUPO_EDAD1 r) with
                | Ok label => Some label
                | Raise _ => None
                end
              /\ (exists label, categoria_edad r = Some label
                                /\ In label AGE_CATEGORY_ORDER)
              /\ SEXO_DESC r =
                 Some (match SEXO r with
                       | Some 1 => "Masculino"
                       | Some 2 => "Femenino"
                       | _ => "Sin información"
                       end)) ds.
Proof.
  intros int_of_text numeric_of_text mortalidad codigos divipola ds Hbuild.
  apply Forall_forall. intros r Hr.
  exact (built_row_derived _ _ _ _ _ _ Hbuild r Hr).
Qed.

Lemma X14_dataset_derived_columns_witness :
  Forall (fun r =>
            categoria_edad r =
              match _map_categoria_edad Sample.int_of_decimal (GRUPO_EDAD1 r)
              with
              | Ok label => Some label
              | Raise _ => None
              end
            /\ (exists label, categoria_edad r = Some label
                              /\ In label AGE_CATEGORY_ORDER)
            /\ SEXO_DESC r =
               Some (match SEXO r with
                     | Some 1 => "Masculino"
                     | Some 2 => "Femenino"
                     | _ => "Sin información"
                     end)) Sample.dataset.
Proof.
  apply (X14_dataset_derived_columns
           Sample.int_of_decimal Sample.numeric_of_decimal
           Sample.mortalidad Sample.codigos Sample.divipola).
  reflexivity.
Defined.

(** X15. The build loses no death: when it returns a dataset, the dataset
    has at least as many rows as the mortality table, and every mortality
    record has a row with its month, its age-group code, its cleaned
    manner and cause code and its normalised division code. *)
Theorem X15_build_keeps_every_record :
  forall int_of_text numeric_of_text mortalidad codigos divipola ds,
    build_full_dataset int_of_text numeric_of_text
      mortalidad codigos divipola = Ok ds ->
    (List.length mortalidad <= List.length ds)%nat
    /\ (forall m, In m mortalidad ->
          exists r, In r ds
                    /\ MES r = raw_MES m
                    /\ GRUPO_EDAD1 r = raw_GRUPO_EDAD1 m
                    /\ MANERA_MUERTE r = _clean_string (raw_MANERA_MUERTE m)
                    /\ COD_MUERTE r =
                       str_upper (_clean_string (raw_COD_MUERTE m))
                    /\ normalize_value numeric_of_text (Some 5)
                         (raw_COD_DANE m) = Ok (COD_DANE r)).
Proof.
  intros int_of_text numeric_of_text mortalidad codigos divipola ds Hbuild.
  split.
  - exact (built_row_count _ _ _ _ _ _ Hbuild).
  - exact (built_record_present _ _ _ _ _ _ Hbuild).
Qed.

Lemma X15_build_keeps_every_record_witness :
  (List.length Sample.mortalidad <= List.length Sample.dataset)%nat.
Proof.
  apply (X15_build_keeps_every_record
           Sample.int_of_decimal Sample.numeric_of_decimal
           Sample.mortalidad Sample.codigos Sample.divipola).
  reflexivity.
Defined.

Lemma mapM_columns {A B C} (f : A -> result B) (g : B -> C) (h : A -> C)
    l l' :
  (forall a b, f a = Ok b -> g b = h a) ->
  mapM f l = Ok l' -> map g l' = map h l.
Proof.
  intros Hgh. revert l'. induction l as [| a l IH]; simpl; intros l' H.
  - now injection H as <-.
  - apply bind_Ok in H as (b & Hb & H). apply bind_Ok in H as (bs & Hbs & H).
    injection H as <-. simpl. now rewrite (Hgh a b Hb), (IH bs Hbs).
Qed.

(** X16. When the division codes of the catalogue are distinct once
    normalised and the cause codes of the cause catalogue are distinct
    once loaded, the dataset the build returns has exactly one row for each
    mortality record, in the order of the mortality table: the columns of
    months and of age-group codes are those of the table. *)
Theorem X16_build_one_row_per_record :
  forall int_of_text numeric_of_text mortalidad codigos divipola ds codes,
    build_full_dataset int_of_text numeric_of_text
      mortalidad codigos divipola = Ok ds ->
    division_codes numeric_of_text divipola = Ok codes ->
    NoDup codes ->
    NoDup (map codigo_cuatro (load_codigos_muerte codigos)) ->
    List.length ds = List.length mortalidad
    /\ map MES ds = map raw_MES mortalidad
    /\ map GRUPO_EDAD1 ds = map raw_GRUPO_EDAD1 mortalidad
    /\ map MANERA_MUERTE ds =
       map (fun m => _clean_string (raw_MANERA_MUERTE m)) mortalidad.
Proof.
  intros int_of_text numeric_of_text mortalidad codigos divipola ds codes
    Hbuild Hcodes Hnd1 Hnd2.
  unfold build_full_dataset in Hbuild.
  apply bind_Ok in Hbuild as (mortalidad_n & Hm & H).
  apply bind_Ok in H as (divipola_n & Hd & H).
  assert (map sel_COD_DANE divipola_n = codes) as Hkeys.
  { assert (division_codes numeric_of_text divipola =
            Ok (map sel_COD_DANE divipola_n)) as E.
    { unfold division_codes.
      apply (mapM_map (normalize_divipola numeric_of_text)); [| exact Hd].
      intros d c Hc. now apply normalize_divipola_Ok in Hc as [Hc _]. }
    congruence. }
  set (located := locate mortalidad_n divipola_n) in *.
  set (merged := merge_left (fun l => n_COD_MUERTE (loc_base l))
                            codigo_cuatro located
                            (load_codigos_muerte codigos)) in *.
  assert (map fst merged = located) as Hmerged
    by (apply merge_left_unique; exact Hnd2).
  assert (map loc_base located = mortalidad_n) as Hlocated.
  { unfold located, locate. rewrite map_map. simpl.
    rewrite <- (merge_left_unique n_COD_DANE sel_COD_DANE
                  mortalidad_n divipola_n) at 2 by (now rewrite Hkeys).
    reflexivity. }
  assert (forall (V : Type) (col : row -> V) (ncol : mortalidad_norm -> V)
                 (rcol : mortalidad_row -> V),
             (forall p r, enrich int_of_text p = Ok r ->
                          col r = ncol (loc_base (fst p))) ->
             (forall m n, normalize_mortalidad numeric_of_text m = Ok n ->
                          ncol n = rcol m) ->
             map col ds = map rcol mortalidad) as Hcol.
  { intros V col ncol rcol H1 H2.
    rewrite (mapM_columns _ col (fun p => ncol (loc_base (fst p))) _ _ H1 H).
    rewrite <- (map_map fst (fun l => ncol (loc_base l))), Hmerged.
    rewrite <- (map_map loc_base ncol), Hlocated.
    apply (mapM_columns _ ncol rcol _ _ H2 Hm). }
  assert (forall p r, enrich int_of_text p = Ok r ->
            MES r = n_MES (loc_base (fst p))
            /\ GRUPO_EDAD1 r = n_GRUPO_EDAD1 (loc_base (fst p))
            /\ MANERA_MUERTE r = n_MANERA_MUERTE (loc_base (fst p))) as He.
  { intros p r Hr. unfold enrich in Hr.
    apply bind_Ok in Hr as (label & _ & Hr). injection Hr as <-.
    now repeat split. }
  assert (forall m n, normalize_mortalidad numeric_of_text m = Ok n ->
            n_MES n = raw_MES m
            /\ n_GRUPO_EDAD1 n = raw_GRUPO_EDAD1 m
            /\ n_MANERA_MUERTE n = _clean_string (raw_MANERA_MUERTE m)) as Hn.
  { intros m n Hnorm. unfold normalize_mortalidad in Hnorm.
    apply bind_Ok in Hnorm as (dane & _ & Hnorm).
    apply bind_Ok in Hnorm as (dep & _ & Hnorm).
    apply bind_Ok in Hnorm as (mun & _ & Hnorm).
    apply bind_Ok in Hnorm as (sx & _ & Hnorm).
    injection Hnorm as <-. now repeat split. }
  split; [| split; [| split]].
  - rewrite <- (length_map MES ds), <- (length_map raw_MES mortalidad).
    f_equal. apply (Hcol _ MES n_MES raw_MES).
    + intros p r Hr. now apply He.
    + intros m n Hmn. now apply Hn.
  - apply (Hcol _ MES n_MES raw_MES).
    + intros p r Hr. now apply He.
    + intros m n Hmn. now apply Hn.
  - apply (Hcol _ GRUPO_EDAD1 n_GRUPO_EDAD1 raw_GRUPO_EDAD1).
    + intros p r Hr. now apply He.
    + intros m n Hmn. now apply Hn.
  - apply (Hcol _ MANERA_MUERTE n_MANERA_MUERTE
             (fun m => _clean_string (raw_MANERA_MUERTE m))).
    + intros p r Hr. now apply He.
    + intros m n Hmn. now apply Hn.
Qed.

Lemma X16_build_one_row_per_record_witness :
  List.length Sample.dataset = List.length Sample.mortalidad.
Proof.
  apply (X16_build_one_row_per_record
           Sample.int_of_decimal Sample.numeric_of_decimal
           Sample.mortalidad Sample.codigos Sample.divipola Sample.dataset
           [Some "05001"; Some "11001"; Some "08001"]).
  - reflexivity.
  - reflexivity.
  - repeat (constructor;
            [simpl; intros H;
             repeat (destruct H as [H | H]; [discriminate H |]); exact H |]).
    constructor.
  - vm_compute.
    repeat (constructor;
            [simpl; intros H;
             repeat (destruct H as [H | H]; [discriminate H |]); exact H |]).
    constructor.
Defined.

(** ** When the build raises *)








(** The tables when the code cells are exact or of one other kind, which
    makes the cast raise one exception. *)
Section OneKindOfFailure.

Variable int_of_text : string -> option Z.
Variable numeric_of_text : string -> pyfloat.
Variable kind : pyfloat -> Prop.
Variable e : exn.
Hypothesis kind_raises : forall f, kind f -> astype_Int64 f = Raise e.
Hypothesis kind_not_exact : forall f, exact_or_null f -> kind f -> False.

Let exact := code_is exact_or_null numeric_of_text.
Let other := code_is kind numeric_of_text.









End OneKindOfFailure.

Section RaiseFacts.

Variable int_of_text : string -> option Z.
Variable numeric_of_text : string -> pyfloat.





End RaiseFacts.



(** ** Numeric codes, continued *)



Lemma length_zeros n : String.length (zeros n) = n.
Proof. induction n as [| n IH]; simpl; [reflexivity | now rewrite IH]. Qed.

Lemma length_append (a b : string) :
  String.length (a ++ b) = (String.length a + String.length b)%nat.
Proof. induction a as [| c a IH]; simpl; [reflexivity | now rewrite IH]. Qed.

Lemma length_zfill width s :
  Z.of_nat (String.length (zfill width s)) =
  Z.max width (Z.of_nat (String.length s)).
Proof.
  unfold zfill.
  destruct (Z.leb_spec width (Z.of_nat (String.length s))) as [H | H]; [lia |].
  destruct s as [| c s].
  - rewrite length_zeros. simpl in *. lia.
  - destruct (Ascii.eqb c "+" || Ascii.eqb c "-")%bool; simpl String.length;
      rewrite length_append, length_zeros; simpl String.length in *; lia.
Qed.

Lemma all_digits_app a b :
  all_digits (a ++ b) = all_digits a && all_digits b.
Proof.
  induction a as [| c a IH]; simpl; [reflexivity |].
  now rewrite IH, andb_assoc.
Qed.

Lemma all_digits_zeros n : all_digits (zeros n) = true.
Proof. induction n as [| n IH]; simpl; [reflexivity | exact IH]. Qed.

Lemma all_digits_substring s :
  all_digits s = true ->
  forall i m, all_digits (String.substring i m s) = true.
Proof.
  induction s as [| c s IH]; intros H i m.
  - destruct i, m; reflexivity.
  - simpl in H. apply andb_prop in H as [Hc Hs].
    destruct i as [| i]; simpl.
    + destruct m as [| m]; simpl; [reflexivity |].
      now rewrite Hc, (IH Hs).
    + now apply IH.
Qed.

Lemma replace_trailing_dot0_digits s :
  all_digits s = true -> replace_trailing_dot0 s = s.
Proof.
  intros H. unfold replace_trailing_dot0.
  assert (endswith s ".0" = false) as ->; [| reflexivity].
  unfold endswith. apply andb_false_iff. right.
  apply String.eqb_neq. intros E.
  pose proof (all_digits_substring s H
                (String.length s - String.length ".0") (String.length ".0"))
    as Hd.
  rewrite E in Hd. discriminate.
Qed.

Lemma all_digits_uint d : all_digits (NilEmpty.string_of_uint d) = true.
Proof. induction d; simpl; trivial. Qed.

Lemma uint_of_padded k s d :
  NilEmpty.uint_of_string s = Some d ->
  exists d', NilEmpty.uint_of_string (zeros k ++ s) = Some d'
             /\ Z.of_uint d' = Z.of_uint d.
Proof.
  intros H. induction k as [| k (d' & Hd' & E)]; simpl.
  - now exists d.
  - exists (Decimal.D0 d'). rewrite Hd'. simpl. split; [reflexivity |].
    exact E.
Qed.

(** The decimal text of a natural number, padded with zeros, reads back
    as the number. *)
Lemma padded_decimal_reads_back k (d : Decimal.uint) :
  d <> Decimal.Nil ->
  Sample.int_of_decimal (zeros k ++ NilEmpty.string_of_uint d) =
  Some (Z.of_uint d).
Proof.
  intros Hd. unfold Sample.int_of_decimal.
  destruct (uint_of_padded k _ d (NilEmpty.usu d)) as (d' & Hd' & E).
  assert (exists c t, zeros k ++ NilEmpty.string_of_uint d = String c t
                      /\ is_digit c = true) as (c & t & Hs & Hc).
  { destruct k as [| k]; simpl.
    - destruct d; try contradiction; simpl; eexists _, _; split;
        reflexivity.
    - eexists _, _. split; reflexivity. }
  unfold NilZero.int_of_string. rewrite Hs.
  destruct (Ascii.eqb_spec c "-") as [-> | _]; [discriminate |].
  unfold NilZero.uint_of_string. rewrite <- Hs, Hd'. simpl. now rewrite E.
Qed.

Lemma str_of_int_nonneg z :
  0 <= z ->
  exists d, d <> Decimal.Nil
            /\ str_of_int z = NilEmpty.string_of_uint d
            /\ Z.of_uint d = z.
Proof.
  intros Hz. unfold str_of_int. destruct z as [| p | p]; [| | lia].
  - exists (Decimal.D0 Decimal.Nil). now repeat split.
  - exists (Pos.to_uint p).
    pose proof (DecimalPos.Unsigned.to_uint_nonnil p) as Hn.
    split; [assumption |]. split.
    + simpl. unfold NilZero.string_of_uint.
      destruct (Pos.to_uint p); try reflexivity. contradiction.
    + unfold Z.of_uint. now rewrite DecimalPos.Unsigned.of_to.
Qed.

Lemma zfill_digits width s :
  all_digits s = true -> s <> EmptyString ->
  exists k, zfill width s = zeros k ++ s.
Proof.
  intros Hs Hne. unfold zfill.
  destruct (width <=? Z.of_nat (String.length s)); [now exists O |].
  destruct s as [| c s]; [contradiction |].
  simpl in Hs. apply andb_prop in Hs as [Hc _].
  assert ((Ascii.eqb c "+" || Ascii.eqb c "-")%bool = false) as ->.
  { apply orb_false_iff. split; apply Ascii.eqb_neq; intros ->; discriminate. }
  eexists. reflexivity.
Qed.

(** One integer cell from 0 to the largest of 64 bits: zeros are added on
    the left and no digit is lost. *)
Lemma normalize_value_nonneg numeric_of_text width z :
  0 <= z <= INT64_MAX ->
  exists code,
    normalize_value numeric_of_text width (PInt z) = Ok (Some code)
    /\ all_digits code = true
    /\ Sample.int_of_decimal code = Some z
    /\ Z.of_nat (String.length code) =
       Z.max (fillna 0 width) (Z.of_nat (String.length (str_of_int z))).
Proof.
  intros Hz.
  destruct (str_of_int_nonneg z (proj1 Hz)) as (d & Hd & Hstr & Hval).
  assert (all_digits (str_of_int z) = true) as Hdig
    by (rewrite Hstr; apply all_digits_uint).
  assert (str_of_int z <> EmptyString) as Hne
    by (rewrite Hstr; destruct d; try discriminate; contradiction).
  unfold normalize_value.
  change (to_numeric_coerce numeric_of_text (PInt z))
    with (Finite (inject_Z z)).
  unfold astype_Int64.
  rewrite (is_integral_integer (inject_Z z) z (Qeq_refl _)), Qfloor_Z.
  assert ((INT64_MIN <=? z) = true) as ->
    by (apply Z.leb_le; unfold INT64_MIN; lia).
  assert ((z <=? INT64_MAX) = true) as -> by (apply Z.leb_le; lia).
  simpl Py.bind. unfold astype_string. simpl option_map.
  rewrite (replace_trailing_dot0_digits _ Hdig).
  destruct (width_given width) eqn:Hw.
  - destruct width as [w |]; [| discriminate]. simpl fillna.
    destruct (zfill_digits w _ Hdig Hne) as (k & Hk).
    exists (zfill w (str_of_int z)). split; [reflexivity |].
    split; [| split; [| apply length_zfill]].
    + rewrite Hk, all_digits_app, all_digits_zeros. exact Hdig.
    + rewrite Hk, Hstr, (padded_decimal_reads_back k d Hd). now rewrite Hval.
  - exists (str_of_int z). split; [reflexivity |].
    split; [exact Hdig |]. split.
    + rewrite Hstr, <- Hval.
      apply (padded_decimal_reads_back 0 d Hd).
    + destruct width as [w |]; simpl in *; [| lia].
      apply negb_false_iff, Z.eqb_eq in Hw. subst w. lia.
Qed.

Lemma Forall2_In_r {A B} (R : A -> B -> Prop) l l' b :
  Forall2 R l l' -> In b l' -> exists a, In a l /\ R a b.
Proof.
  induction 1 as [| x y l l' Hxy _ IH]; simpl; [contradiction |].
  intros [<- | Hb].
  - exists x. now split; [left |].
  - destruct (IH Hb) as (a & Ha & Hab). exists a. now split; [right |].
Qed.

(** X19. In a column of integers from 0 to the largest of 64 bits every
    code becomes a text of decimal digits that reads back as that integer
    and has the width asked for, or the length of its decimal writing when
    that is longer: zeros are added on the left and no digit is lost, so
    different codes never get the same text.  The same holds of the
    integer cells from 0 in a column that also has null, float or text
    cells, when its numbers are integers up to 2^53 in magnitude. *)
Theorem X19_normalized_code_reads_back :
  forall numeric_of_text width,
    let written z code :=
      all_digits code = true
      /\ Sample.int_of_decimal code = Some z
      /\ Z.of_nat (String.length code) =
         Z.max (fillna 0 width) (Z.of_nat (String.length (str_of_int z))) in
    (forall zs,
        Forall (fun z => 0 <= z <= INT64_MAX) zs ->
        exists codes,
          _normalize_numeric_code numeric_of_text (map PInt zs) width =
            Ok (map Some codes)
          /\ Forall2 written zs codes
          /\ (NoDup zs -> NoDup codes))
    /\ (forall series out,
          Forall (code_is exact_or_null numeric_of_text) series ->
          _normalize_numeric_code numeric_of_text series width = Ok out ->
          Forall2 (fun x k =>
                     forall z, x = PInt z -> 0 <= z ->
                               exists code, k = Some code /\ written z code)
                  series out).
Proof.
  intros numeric_of_text width written. split.
  - intros zs Hzs.
    assert (exists codes,
              _normalize_numeric_code numeric_of_text (map PInt zs) width =
                Ok (map Some codes)
              /\ Forall2 written zs codes) as (codes & Hcodes & Hwritten).
    { unfold _normalize_numeric_code.
      induction Hzs as [| z zs Hz _ (codes & Hcodes & Hwritten)].
      - exists []. split; [reflexivity | constructor].
      - destruct (normalize_value_nonneg numeric_of_text width z Hz)
          as (code & Hcode & Hw).
        exists (code :: codes). split; [| now constructor].
        change (map PInt (z :: zs)) with (PInt z :: map PInt zs).
        change (mapM (normalize_value numeric_of_text width)
                     (PInt z :: map PInt zs))
          with (Py.bind (normalize_value numeric_of_text width (PInt z))
                  (fun b =>
                     Py.bind (mapM (normalize_value numeric_of_text width)
                                   (map PInt zs))
                       (fun bs => Ok (b :: bs)))).
        rewrite Hcode, Hcodes. reflexivity. }
    exists codes. split; [assumption |]. split; [assumption |].
    clear Hcodes Hzs. induction Hwritten as [| z code zs codes Hw Hrest IH].
    + constructor.
    + intros Hnd. apply NoDup_cons_iff in Hnd as [Hz Hnd].
      constructor; [| now apply IH].
      intros Hin.
      destruct (Forall2_In_r _ _ _ _ Hrest Hin) as (z' & Hz' & _ & Hread & _).
      destruct Hw as (_ & Hread' & _).
      rewrite Hread' in Hread. injection Hread as ->. contradiction.
  - intros series out Hexact. unfold _normalize_numeric_code.
    revert out. induction Hexact as [| x series Hx _ IH]; simpl; intros out E.
    + injection E as <-. constructor.
    + apply bind_Ok in E as (k & Hk & E).
      apply bind_Ok in E as (ks & Hks & E).
      injection E as <-. constructor; [| now apply IH].
      intros z -> Hz.
      assert (0 <= z <= INT64_MAX) as Hz'.
      { unfold code_is in Hx.
        change (to_numeric_coerce numeric_of_text (PInt z))
          with (Finite (inject_Z z)) in Hx.
        unfold exact_or_null in Hx. destruct Hx as [_ Hx].
        rewrite Qfloor_Z in Hx. unfold FLOAT64_EXACT in Hx.
        unfold INT64_MAX. lia. }
      destruct (normalize_value_nonneg numeric_of_text width z Hz')
        as (code & Hcode & Hw).
      rewrite Hcode in Hk. injection Hk as <-. now exists code.
Qed.

Lemma X19_normalized_code_reads_back_witness :
  exists codes,
    _normalize_numeric_code Sample.numeric_of_decimal
      (map PInt [5001; 11001]) (Some 5) = Ok (map Some codes)
    /\ Forall2 (fun z code =>
                  all_digits code = true
                  /\ Sample.int_of_decimal code = Some z
                  /\ Z.of_nat (String.length code) =
                     Z.max (fillna 0 (Some 5))
                           (Z.of_nat (String.length (str_of_int z))))
               [5001; 11001] codes
    /\ (NoDup [5001; 11001] -> NoDup codes).
Proof.
  apply (proj1 (X19_normalized_code_reads_back
                  Sample.numeric_of_decimal (Some 5))).
  repeat constructor; unfold INT64_MAX; lia.
Defined.

(** ** The age table *)

Lemma code_in_range z :
  0 <= z <= 29 -> In z (map Z.of_nat (seq 0 30)).
Proof.
  intros Hz. apply in_map_iff. exists (Z.to_nat z). split; [lia |].
  apply in_seq. lia.
Qed.

(** X20. The age table has one entry for each code from 0 to 29 and no
    other; the brackets follow the codes: a larger code never gets an
    earlier bracket; and each of the 11 brackets is the label of some
    code. *)
Theorem X20_age_table_is_ordered :
  NoDup (map fst AGE_CATEGORY_LABELS)
  /\ (forall z, In z (map fst AGE_CATEGORY_LABELS) <-> 0 <= z <= 29)
  /\ (forall z z', 0 <= z -> z <= z' -> z' <= 29 ->
        exists i j,
          index_of (dict_get z AGE_CATEGORY_LABELS DEFAULT_AGE_CATEGORY)
                   AGE_CATEGORY_ORDER = Some i
          /\ index_of (dict_get z' AGE_CATEGORY_LABELS DEFAULT_AGE_CATEGORY)
                      AGE_CATEGORY_ORDER = Some j
          /\ (i <= j)%nat)
  /\ (forall label, In label AGE_CATEGORY_ORDER ->
        exists z, 0 <= z <= 29
                  /\ dict_get z AGE_CATEGORY_LABELS DEFAULT_AGE_CATEGORY = label).
Proof.
  assert (map fst AGE_CATEGORY_LABELS = map Z.of_nat (seq 0 30)) as Hkeys
    by reflexivity.
  split; [| split; [| split]].
  - rewrite Hkeys. apply NoDup_map_NoDup_ForallPairs; [| apply seq_NoDup].
    intros a b _ _. apply Nat2Z.inj.
  - intros z. rewrite Hkeys, in_map_iff. split.
    + intros (n & <- & Hn). apply in_seq in Hn. lia.
    + intros Hz. apply in_map_iff. now apply code_in_range.
  - intros z z' H0 Hzz H29.
    set (rank c := index_of (dict_get c AGE_CATEGORY_LABELS DEFAULT_AGE_CATEGORY)
                            AGE_CATEGORY_ORDER).
    assert (forallb
              (fun a =>
                 forallb
                   (fun b =>
                      negb (a <=? b)
                      || match rank a, rank b with
                         | Some i, Some j => (i <=? j)%nat
                         | _, _ => false
                         end)
                   (map Z.of_nat (seq 0 30)))
              (map Z.of_nat (seq 0 30)) = true) as H by reflexivity.
    rewrite forallb_forall in H.
    specialize (H z (code_in_range z ltac:(lia))).
    rewrite forallb_forall in H.
    specialize (H z' (code_in_range z' ltac:(lia))).
    apply orb_prop in H as [H | H].
    + apply negb_true_iff, Z.leb_gt in H. lia.
    + fold (rank z). fold (rank z').
      destruct (rank z) as [i |], (rank z') as [j |]; try discriminate.
      exists i, j. repeat split. now apply Nat.leb_le.
  - intros label Hlabel.
    assert (forallb
              (fun l =>
                 existsb
                   (fun c =>
                      String.eqb
                        (dict_get c AGE_CATEGORY_LABELS DEFAULT_AGE_CATEGORY) l)
                   (map Z.of_nat (seq 0 30)))
              AGE_CATEGORY_ORDER = true) as H by reflexivity.
    rewrite forallb_forall in H. specialize (H label Hlabel).
    apply existsb_exists in H as (z & Hz & E).
    apply String.eqb_eq in E. exists z. split; [| exact E].
    apply in_map_iff in Hz as (n & <- & Hn). apply in_seq in Hn. lia.
Qed.

Lemma X20_age_table_is_ordered_witness :
  exists i j,
    index_of (dict_get 4 AGE_CATEGORY_LABELS DEFAULT_AGE_CATEGORY)
             AGE_CATEGORY_ORDER = Some i
    /\ index_of (dict_get 25 AGE_CATEGORY_LABELS DEFAULT_AGE_CATEGORY)
                AGE_CATEGORY_ORDER = Some j
    /\ (i <= j)%nat.
Proof.
  apply (proj1 (proj2 (proj2 X20_age_table_is_ordered)) 4 25); lia.
Defined.

(** ** The catalogue of causes *)

Lemma load_codigos_In (df : list codigo_row) c :
  In c (load_codigos_muerte df) <->
  exists c0 k, In c0 df /\ codigo_cuatro c0 = Some k
               /\ c = {| codigo_cuatro := Some (upper (strip k));
                         descripcion_cuatro := descripcion_cuatro c0 |}.
Proof.
  unfold load_codigos_muerte. rewrite in_map_iff. split.
  - intros (c0 & <- & Hc0). apply filter_In in Hc0 as [Hin Hk].
    destruct (codigo_cuatro c0) as [k |] eqn:E; [| discriminate].
    exists c0, k. now repeat split.
  - intros (c0 & k & Hin & Hk & ->). exists c0. split.
    + now rewrite Hk.
    + apply filter_In. split; [assumption | now rewrite Hk].
Qed.

(** X23. Loading the catalogue of causes drops the entries with no
    4-character code and keeps the others in their order, with their
    descriptions; when the codes are ASCII text, the codes it returns are
    ASCII text in capitals with no white space at the ends, and loading
    what it returned changes nothing. *)
Theorem X23_load_codigos_muerte_cleans :
  forall df,
    Forall (fun c => ascii_cell (codigo_cuatro c) = true) df ->
    let out := load_codigos_muerte df in
    Forall (fun c => exists k, codigo_cuatro c = Some k /\ clean_capitals k)
           out
    /\ map descripcion_cuatro out =
       map descripcion_cuatro (filter (fun c => notna (codigo_cuatro c)) df)
    /\ (List.length out <= List.length df)%nat
    /\ load_codigos_muerte out = out.
Proof.
  intros df Hascii out.
  assert (Forall (fun c => exists k, codigo_cuatro c = Some k
                                     /\ clean_capitals k) out)
    as Hclean.
  { apply Forall_forall. intros c Hc.
    apply load_codigos_In in Hc as (c0 & k & Hc0 & Hk & ->). simpl.
    exists (upper (strip k)). split; [reflexivity |].
    apply (clean_upper_normal (Some k)); [| reflexivity].
    rewrite Forall_forall in Hascii. rewrite <- Hk. now apply Hascii. }
  split; [exact Hclean |]. split; [| split].
  - unfold out, load_codigos_muerte. now rewrite map_map.
  - unfold out, load_codigos_muerte. rewrite length_map.
    apply filter_length_le.
  - clear - Hclean. induction out as [| c l IH]; [reflexivity |].
    apply Forall_cons_iff in Hclean as [(k & Hk & Hclean) Hl].
    destruct Hclean as ((_ & _ & Hs) & _ & Hu).
    specialize (IH Hl). unfold load_codigos_muerte in *. simpl.
    rewrite Hk. simpl. rewrite IH. f_equal.
    destruct c as [code desc]. simpl in *. subst code. simpl.
    now rewrite Hs, Hu.
Qed.

Lemma X23_load_codigos_muerte_cleans_witness :
  load_codigos_muerte (load_codigos_muerte Sample.codigos) =
  load_codigos_muerte Sample.codigos.
Proof.
  assert (Forall (fun c => ascii_cell (codigo_cuatro c) = true)
                 Sample.codigos) as H
    by (repeat constructor).
  apply (proj2 (proj2 (proj2
           (X23_load_codigos_muerte_cleans Sample.codigos H)))).
Defined.

Lemma build_full_dataset_cause int_of_text numeric_of_text
    mortalidad codigos divipola ds r :
  build_full_dataset int_of_text numeric_of_text mortalidad codigos divipola =
    Ok ds ->
  In r ds ->
  exists oc,
    DESCRIPCION_COD_MUERTE r = right_col descripcion_cuatro oc
    /\ match oc with
       | Some c => In c (load_codigos_muerte codigos)
                   /\ COD_MUERTE r = codigo_cuatro c
       | None => forall c, In c (load_codigos_muerte codigos) ->
                           COD_MUERTE r <> codigo_cuatro c
       end.
Proof.
  unfold build_full_dataset. intros H Hr.
  apply bind_Ok in H as (mortalidad_n & Hm & H).
  apply bind_Ok in H as (divipola_n & Hd & H).
  destruct (mapM_In _ _ _ _ H Hr) as ([l oc] & Hl & He).
  apply merge_left_In in Hl as [_ Hoc].
  unfold enrich in He. apply bind_Ok in He as (label & _ & He).
  injection He as <-. simpl. exists oc. split; [reflexivity | exact Hoc].
Qed.

(** X21. In a dataset the build returns, the cause description of a row
    is the description of an entry of the catalogue of causes whose code
    is the cause code of the row once both are cleaned and put in
    capitals; when the catalogue has an entry for the code of the row, the
    description is the one of such an entry; and a row with no cause code
    has no description. *)
Theorem X21_cause_description_lookup :
  forall int_of_text numeric_of_text mortalidad codigos divipola ds r,
    build_full_dataset int_of_text numeric_of_text
      mortalidad codigos divipola = Ok ds ->
    In r ds ->
    (forall desc, DESCRIPCION_COD_MUERTE r = Some desc ->
       exists c k, In c codigos /\ codigo_cuatro c = Some k
                   /\ COD_MUERTE r = Some (upper (strip k))
                   /\ descripcion_cuatro c = Some desc)
    /\ (forall c k, In c codigos -> codigo_cuatro c = Some k ->
          COD_MUERTE r = Some (upper (strip k)) ->
          exists c' k', In c' codigos /\ codigo_cuatro c' = Some k'
                        /\ upper (strip k') = upper (strip k)
                        /\ DESCRIPCION_COD_MUERTE r = descripcion_cuatro c')
    /\ (COD_MUERTE r = None -> DESCRIPCION_COD_MUERTE r = None).
Proof.
  intros int_of_text numeric_of_text mortalidad codigos divipola ds r
    Hbuild Hr.
  destruct (build_full_dataset_cause _ _ _ _ _ _ _ Hbuild Hr)
    as (oc & Hdesc & Hoc).
  split; [| split].
  - intros desc Hd. rewrite Hdesc in Hd.
    destruct oc as [c |]; simpl in Hd; [| discriminate].
    destruct Hoc as [Hc Hkey].
    apply load_codigos_In in Hc as (c0 & k & Hin & Hk & ->).
    simpl in *. now exists c0, k.
  - intros c k Hin Hk Hcode.
    destruct oc as [c1 |].
    + destruct Hoc as [Hc Hkey].
      apply load_codigos_In in Hc as (c0 & k0 & Hin0 & Hk0 & ->).
      simpl in *. exists c0, k0. repeat split; try assumption. congruence.
    + exfalso.
      apply (Hoc {| codigo_cuatro := Some (upper (strip k));
                    descripcion_cuatro := descripcion_cuatro c |});
        [| exact Hcode].
      apply load_codigos_In. now exists c, k.
  - intros Hnone. rewrite Hdesc.
    destruct oc as [c |]; [| reflexivity].
    destruct Hoc as [Hc Hkey].
    apply load_codigos_In in Hc as (c0 & k & _ & _ & ->).
    simpl in Hkey. congruence.
Qed.

Lemma X21_cause_description_lookup_witness :
  exists c k, In c Sample.codigos /\ codigo_cuatro c = Some k
              /\ Some "X954" = Some (upper (strip k))
              /\ descripcion_cuatro c = Some "Agresion con disparo".
Proof.
  apply (proj1 (X21_cause_description_lookup
           Sample.int_of_decimal Sample.numeric_of_decimal
           Sample.mortalidad Sample.codigos Sample.divipola Sample.dataset
           (nth 0 Sample.dataset Sample.blank) eq_refl (or_introl eq_refl))).
  reflexivity.
Defined.

(** ** The options of the age filter *)

(** X22. The options of the age filter are the brackets that some row of
    the dataset has, in the order of the brackets; when the bracket of
    every row is one of the 11 brackets, as in a dataset the build
    returns, the bracket of every row is among the options. *)
Theorem X22_categoria_options :
  forall df_full,
    (forall label,
        In label (App.categoria_options df_full) <->
        In label AGE_CATEGORY_ORDER
        /\ exists r, In r df_full /\ categoria_edad r = Some label)
    /\ (exists keep,
          App.categoria_options df_full = filter keep AGE_CATEGORY_ORDER)
    /\ (Forall (fun r => exists label, categoria_edad r = Some label
                                       /\ In label AGE_CATEGORY_ORDER)
               df_full ->
        forall r, In r df_full ->
          exists label, categoria_edad r = Some label
                        /\ In label (App.categoria_options df_full)).
Proof.
  intros df_full.
  assert (forall label,
             In label (App.categoria_options df_full) <->
             In label AGE_CATEGORY_ORDER
             /\ exists r, In r df_full /\ categoria_edad r = Some label)
    as Hin.
  { intros label. unfold App.categoria_options.
    rewrite filter_In, existsb_exists. split.
    - intros [Hl (v & Hv & E)]. split; [assumption |].
      apply key_eqb_eq in E. subst v.
      apply in_map_iff in Hv as (r & Hr & Hin). now exists r.
    - intros [Hl (r & Hr & E)]. split; [assumption |].
      exists (Some label). split; [| now apply key_eqb_eq].
      rewrite <- E. now apply in_map. }
  split; [exact Hin |]. split; [eexists; reflexivity |].
  intros Hdf r Hr. rewrite Forall_forall in Hdf.
  destruct (Hdf r Hr) as (label & Hk & Hl).
  exists label. split; [assumption |]. apply Hin. split; [assumption |].
  now exists r.
Qed.
